(** * Calendar slot booking and the notes: a shallow embedding

    The development follows [src/calendar.tsx] (the [Calendar] component and
    the [Note] component that the same file carries).  Handlers are modelled
    as functions from the answers the user gives and the current snapshot of
    the event collection to the list of effects they issue (alerts and
    document writes); the document collection is a finite map from document
    id to document.

    Modelling conventions:
    - a JavaScript time value is a [TimeValue]: an integer number of
      milliseconds since the epoch, or [NaN] for an invalid date.  A date made
      from a number is invalid beyond 8.64e15 milliseconds from the epoch
      ([timeClip]).  Sums and products are exact integers: the rounding of
      intermediate results above 2^53, which only an hour, a minute or a slot
      length beyond 10^9 reaches, is left out;
    - the strings the code stores in [start] and [end] are kept by their
      form ([DateInput]), because [new Date(string)] reads a date-only string
      as UTC and a date-time string without offset as local time; a string
      that is no date, or that names a date beyond the range of [Date], is
      [Unparseable].  [isoLocalDate] writes the year without padding, so what
      it writes is read back only for years of four digits (or of six digits
      after a minus sign);
    - the local time zone is a constant offset [tz], in minutes east of UTC
      (no daylight-saving change inside the period looked at);
    - [createdAt] (a server timestamp used for ordering only) is left out;
    - the calendar widget is a library.  Of its behaviour the model keeps
      what the component configures: it calls [eventDrop] and [eventResize]
      for an event it shows, and with [eventOverlap={false}] only when that
      event, at its new times, overlaps no other event it shows
      ([widgetAllows]);
    - the snapshot a handler reads is the current content of the collection:
      there is one client, and the race between two clients that read the
      same snapshot is outside the model;
    - a handler of the note component is a function from the state of the
      component and the answers of the backend to the trace of what it does
      (calls, dialogs, state setters); an [async] handler runs to its end
      before the next handler starts;
    - the characters of a text are code units below 256, and the percentages
      of an upload are given by the backend as the progress callback computes
      them. *)

From stdpp Require Import base numbers option list sorting strings pretty gmap fin_maps.

#[local] Open Scope Z_scope.

(** ** JavaScript values *)

Module Js.

(** [Date.prototype.getTime()]: milliseconds since the epoch, or NaN. *)
Inductive TimeValue : Type :=
| Ms (t : Z)
| NaN.

(** [a < b] on numbers: false as soon as one side is NaN. *)
Definition lt (a b : TimeValue) : bool :=
  match a, b with
  | Ms x, Ms y => bool_decide (x < y)
  | _, _ => false
  end.

(** [a <= b] on numbers. *)
Definition le (a b : TimeValue) : bool :=
  match a, b with
  | Ms x, Ms y => bool_decide (x <= y)
  | _, _ => false
  end.

Definition isNaN (a : TimeValue) : bool :=
  match a with
  | NaN => true
  | Ms _ => false
  end.

(** The answer of [prompt]: [None] is null (dialog cancelled). *)
Definition truthy (s : option string) : bool :=
  match s with
  | Some s => negb (bool_decide (s = ""))
  | None => false
  end.

(** [s || dflt] on an optional string. *)
Definition orString (s : option string) (dflt : string) : string :=
  match s with
  | Some s => if bool_decide (s = "") then dflt else s
  | None => dflt
  end.

(** [n || dflt] on a number: NaN and 0 are falsy. *)
Definition orNumber (n : option Z) (dflt : Z) : Z :=
  match n with
  | Some n => if bool_decide (n = 0) then dflt else n
  | None => dflt
  end.

Definition msPerMinute : Z := 60000.
Definition msPerHour : Z := 3600000.
Definition msPerDay : Z := 86400000.

(** The forms of date string the components write and read back. *)
Inductive DateInput : Type :=
| DateOnly (day : Z)        (* "YYYY-MM-DD": the day number since 1970-01-01 *)
| LocalDateTime (wall : Z)  (* "YYYY-MM-DDTHH:mm:ss": local wall clock, in ms *)
| Instant (ms : Z)          (* with "Z" or an explicit offset: an absolute time *)
| Unparseable.              (* any other non-empty string *)

(** [new Date(s).getTime()] in a zone [tz] minutes east of UTC: a date-only
    string is read as UTC, a date-time string without offset as local time. *)
Definition getTime (tz : Z) (s : DateInput) : TimeValue :=
  match s with
  | DateOnly day => Ms (day * msPerDay)
  | LocalDateTime wall => Ms (wall - tz * msPerMinute)
  | Instant ms => Ms ms
  | Unparseable => NaN
  end.

(** [new Date(t).toISOString()]. *)
Definition toISOString (t : Z) : DateInput := Instant t.

(** The largest time value a [Date] holds: 100,000,000 days from the epoch. *)
Definition maxTime : Z := 8640000000000000.

(** [new Date(v)] for a number [v]: beyond the range the date is invalid. *)
Definition timeClip (v : Z) : TimeValue :=
  if bool_decide (- maxTime <= v <= maxTime) then Ms v else NaN.

(** [new Date(d)] for a date [d]. *)
Definition newDate (d : TimeValue) : TimeValue :=
  match d with
  | Ms t => timeClip t
  | NaN => NaN
  end.

(** [new Date(d.getTime() + ms)]. *)
Definition dateAfter (d : TimeValue) (ms : Z) : TimeValue :=
  match d with
  | Ms t => timeClip (t + ms)
  | NaN => NaN
  end.

End Js.

Import Js.

(** ** The calendar component *)

Module Calendar.

Inductive SlotStatus : Type :=
| available
| booked
| pending.

#[global] Instance SlotStatus_eq_dec : EqDecision SlotStatus.
Proof. solve_decision. Defined.

(** [interface CalendarEvent extends EventInput]. *)
Record CalendarEvent : Type := mkEvent {
  id : string;
  title : string;
  start : DateInput;
  end_ : option DateInput;
  allDay : option bool;
  color : string;
  status : option SlotStatus;
  studentName : option string;
}.

(** The first instants of the years 1000, 10000 and -99999, as wall-clock
    times: [Date.UTC(1000, 0, 1)], [Date.UTC(10000, 0, 1)] and
    [Date.UTC(-99999, 0, 1)]. *)
Definition year1000 : Z := -30610224000000.
Definition year10000 : Z := 253402300800000.
Definition yearMinus99999 : Z := -3217830796800000.

(** [isoLocalDate] writes the year as it is, without padding.  What it
    writes is a date-time string, which [new Date] reads back, when the year
    has four digits, or a sign and six digits: the local years 1000 to 9999
    and those up to -100000.  Any other year gives a text that is read as an
    invalid date (so V8 reads it; the language leaves it open). *)
Definition isoReadable (wall : Z) : bool :=
  bool_decide (year1000 <= wall < year10000) || bool_decide (wall < yearMinus99999).

(** [isoLocalDate]: the local wall clock of a date, cut to whole seconds; for
    an invalid date the text ["NaN-NaN-NaNTNaN:NaN:NaN"]. *)
Definition isoLocalDate (tz : Z) (d : TimeValue) : DateInput :=
  match d with
  | Ms t =>
      let wall := t + tz * msPerMinute in
      if isoReadable wall then LocalDateTime (wall `div` 1000 * 1000) else Unparseable
  | NaN => Unparseable
  end.

(** [ymdLocal]: the local calendar day of a date. *)
Definition ymdLocal (tz : Z) (t : Z) : DateInput :=
  DateOnly ((t + tz * msPerMinute) `div` msPerDay).

Definition aStart (tz : Z) (a : CalendarEvent) : TimeValue :=
  getTime tz (start a).

Definition aEnd (tz : Z) (a : CalendarEvent) : TimeValue :=
  match end_ a with
  | Some e => getTime tz e
  | None => aStart tz a
  end.

(** [overlaps(a, b)]. *)
Definition overlaps (tz : Z) (a b : CalendarEvent) : bool :=
  Js.lt (aStart tz a) (aEnd tz b) && Js.lt (aStart tz b) (aEnd tz a).

Definition DEFAULT_TIMED_MINUTES : Z := 30.

(** [addMinutes]. *)
Definition addMinutes (d : TimeValue) (mins : Z) : TimeValue :=
  dateAfter d (mins * 60000).

(** The entries of the object handed to [updateDoc]; [None] is a key whose
    value is [undefined]. *)
Inductive PatchEntry : Type :=
| SetStart (v : option DateInput)
| SetEnd (v : option DateInput)
| SetAllDay (v : option bool)
| SetStatus (v : SlotStatus)
| SetStudentName (v : string)
| SetColor (v : string).

(** What a handler does to the outside: dialogs shown and writes issued. *)
Inductive Effect : Type :=
| Alert (msg : string)
| AlertEventAdded (evTitle : string) (when : DateInput)  (* "Event added: ... on/from ..." *)
| BatchSet (docs : list CalendarEvent)          (* [saveEvents]: one batch commit *)
| UpdateDoc (evId : string) (patch : list PatchEntry)  (* [updateEvent] *)
| DeleteDoc (evId : string).                    (* [removeEvent] *)

Definition isWrite (e : Effect) : bool :=
  match e with
  | Alert _ | AlertEventAdded _ _ => false
  | _ => true
  end.

(** The persisted writes among the effects of a handler. *)
Definition writes (effs : list Effect) : list Effect := filter isWrite effs.

(** *** The document collection *)

Definition withStart (v : DateInput) (e : CalendarEvent) : CalendarEvent :=
  mkEvent (id e) (title e) v (end_ e) (allDay e) (color e) (status e) (studentName e).
Definition withEnd (v : option DateInput) (e : CalendarEvent) : CalendarEvent :=
  mkEvent (id e) (title e) (start e) v (allDay e) (color e) (status e) (studentName e).
Definition withAllDay (v : option bool) (e : CalendarEvent) : CalendarEvent :=
  mkEvent (id e) (title e) (start e) (end_ e) v (color e) (status e) (studentName e).
Definition withColor (v : string) (e : CalendarEvent) : CalendarEvent :=
  mkEvent (id e) (title e) (start e) (end_ e) (allDay e) v (status e) (studentName e).
Definition withStatus (v : option SlotStatus) (e : CalendarEvent) : CalendarEvent :=
  mkEvent (id e) (title e) (start e) (end_ e) (allDay e) (color e) v (studentName e).
Definition withStudentName (v : option string) (e : CalendarEvent) : CalendarEvent :=
  mkEvent (id e) (title e) (start e) (end_ e) (allDay e) (color e) (status e) v.

Definition definedEntry (p : PatchEntry) : bool :=
  match p with
  | SetStart None | SetEnd None | SetAllDay None => false
  | _ => true
  end.

(** One field of a patch written into a document; an [undefined] value that
    the store is configured to ignore leaves the field as it is. *)
Definition applyEntry (e : CalendarEvent) (p : PatchEntry) : CalendarEvent :=
  match p with
  | SetStart (Some v) => withStart v e
  | SetEnd (Some v) => withEnd (Some v) e
  | SetAllDay (Some v) => withAllDay (Some v) e
  | SetStatus v => withStatus (Some v) e
  | SetStudentName v => withStudentName (Some v) e
  | SetColor v => withColor v e
  | SetStart None | SetEnd None | SetAllDay None => e
  end.

Definition applyPatch (patch : list PatchEntry) (e : CalendarEvent) : CalendarEvent :=
  foldl applyEntry e patch.

(** The collection [calendarEvents]: documents by id.  [ignoreUndefined] is
    the store setting [ignoreUndefinedProperties], made in the module
    [../../firebase]: without it a write that carries an [undefined] value is
    rejected as a whole.  An update of a document that does not exist is
    rejected too. *)
Definition applyEffect (ignoreUndefined : bool)
    (m : gmap string CalendarEvent) (eff : Effect) : gmap string CalendarEvent :=
  match eff with
  | Alert _ | AlertEventAdded _ _ => m
  | BatchSet docs => foldl (λ m d, <[id d := d]> m) m docs
  | UpdateDoc evId patch =>
      if forallb definedEntry patch || ignoreUndefined
      then alter (applyPatch patch) evId m
      else m
  | DeleteDoc evId => delete evId m
  end.

Definition applyEffects (ignoreUndefined : bool)
    (m : gmap string CalendarEvent) (effs : list Effect) : gmap string CalendarEvent :=
  foldl (applyEffect ignoreUndefined) m effs.

(** The [onSnapshot] listener: the list the component keeps in [events]. *)
Definition fromDoc (k : string) (d : CalendarEvent) : CalendarEvent :=
  mkEvent k (title d) (start d) (end_ d) (Some (default false (allDay d)))
    (color d) (status d) (studentName d).

Definition snapshot (m : gmap string CalendarEvent) : list CalendarEvent :=
  (λ kd, fromDoc kd.1 kd.2) <$> map_to_list m.

(** *** Handlers *)

(** [handleSelect]: a plain event over the selected range. *)
Definition handleSelect (newId : string) (titleAnswer : option string)
    (startStr endStr : DateInput) (isAllDay : bool) : list Effect :=
  match titleAnswer with
  | Some t =>
      if negb (truthy titleAnswer) then []
      else [BatchSet [mkEvent newId t startStr (Some endStr) (Some isAllDay)
                        "#42a5f5" None None]]
  | None => []
  end.

(** [handleDateClick]: an all-day event keeps the clicked date string and has
    no end; a timed event lasts [DEFAULT_TIMED_MINUTES].  [date] is the time
    value of the clicked date, a valid one. *)
Definition handleDateClick (tz : Z) (newId : string) (titleAnswer : option string)
    (isAllDay : bool) (dateStr : DateInput) (date : Z) : list Effect :=
  match titleAnswer with
  | Some t =>
      if negb (truthy titleAnswer) then []
      else if isAllDay then
        [BatchSet [mkEvent newId t dateStr None (Some true) "#42a5f5" None None];
         AlertEventAdded t dateStr]
      else
        [BatchSet [mkEvent newId t (isoLocalDate tz (Ms date))
                     (Some (isoLocalDate tz (addMinutes (Ms date) DEFAULT_TIMED_MINUTES)))
                     (Some false) "#42a5f5" None None];
         AlertEventAdded t (isoLocalDate tz (Ms date))]
  | None => []
  end.

Definition bookingPatch (name : string) : list PatchEntry :=
  [SetStatus booked; SetStudentName name; SetColor "#f6c343"].

(** The test inside [events.some] of [handleEventClick]. *)
Definition bookingConflict (tz : Z) (name : string) (candidate e : CalendarEvent) : bool :=
  bool_decide (status e = Some booked)
  && bool_decide (studentName e = Some name)
  && overlaps tz e candidate.

(** [handleEventClick]: book an available slot, or delete anything else. *)
Definition handleEventClick (tz : Z) (events : list CalendarEvent) (evId : string)
    (nameAnswer : option string) (confirmAnswer : bool) : list Effect :=
  match find (λ e, bool_decide (id e = evId)) events with
  | None => []
  | Some ev =>
      if bool_decide (status ev = Some available) then
        match nameAnswer with
        | Some name =>
            if negb (truthy nameAnswer) then []
            else
              let candidate := withStudentName (Some name) ev in
              let conflict := existsb (bookingConflict tz name candidate) events in
              if conflict
              then [Alert (name +:+ " already has a booked slot that overlaps.")]
              else [UpdateDoc evId (bookingPatch name)]
        | None => []
        end
      else if confirmAnswer then [DeleteDoc evId] else []
  end.

(** The answers to the five prompts of [generateTimeSlots], read as the code
    reads them. *)
Inductive DateAnswer : Type :=
| NoDate            (* null or the empty string *)
| BadDate           (* a text that [new Date(text + 'T00:00:00')] rejects *)
| Day (day : Z).    (* "YYYY-MM-DD" (for other years "+YYYYYY-MM-DD"): a day *)

Record SlotPrompts : Type := mkPrompts {
  dateStr : DateAnswer;
  (* [split(':').map(Number)] of the answer, each number cut to its integer
     part as [setHours] does; [None] when the prompt is left empty; a
     component is [None] when it is NaN or missing *)
  startHHMM : option (option Z * option Z);
  endHHMM : option (option Z * option Z);
  (* [parseInt(answer, 10)]; [None] when NaN or the prompt is left empty *)
  slotMinStr : option Z;
  slotTitleAnswer : option string;
}.

(** [new Date(dateStr + 'T00:00:00')]: local midnight. *)
Definition localMidnight (tz : Z) (d : DateAnswer) : TimeValue :=
  match d with
  | Day day => getTime tz (LocalDateTime (day * msPerDay))
  | _ => NaN
  end.

(** [d.setHours(h, m, 0, 0)] on the local day of [d]; the date becomes
    invalid when the result is beyond the range of [Date]. *)
Definition setHours (tz : Z) (d : TimeValue) (h m : option Z) : TimeValue :=
  match d, h, m with
  | Ms t, Some h, Some m =>
      let wall := t + tz * msPerMinute in
      timeClip (wall `div` msPerDay * msPerDay + h * msPerHour + m * msPerMinute
                - tz * msPerMinute)
  | _, _, _ => NaN
  end.

(** [Math.max(5, parseInt(slotMinStr, 10) || 15)]. *)
Definition slotMinOf (parsed : option Z) : Z := Z.max 5 (orNumber parsed 15).

Definition mkCandidate (tz : Z) (newId slotTitle : string) (t t2 : TimeValue)
    : CalendarEvent :=
  mkEvent newId slotTitle (isoLocalDate tz t) (Some (isoLocalDate tz t2)) None
    "#43a047" (Some available) None.

Definition hasConflict (tz : Z) (events : list CalendarEvent) (candidate : CalendarEvent) : bool :=
  existsb (λ e, overlaps tz e candidate) events.

(** The [for] loop of [generateTimeSlots], from the date [t].  [k] counts the
    calls of [uid] made so far; [None] is a loop that has not ended within
    [fuel] turns. *)
Fixpoint slotLoop (tz : Z) (uid : nat → string) (events : list CalendarEvent)
    (slotTitle : string) (slotMin : Z) (endD : TimeValue) (fuel : nat) (k : nat)
    (t : TimeValue) : option (list CalendarEvent) :=
  match fuel with
  | O => None
  | S fuel' =>
      if Js.lt t endD then
        let t2 := dateAfter t (slotMin * 60000) in
        if Js.lt endD t2 then Some []
        else
          let candidate := mkCandidate tz (uid k) slotTitle t t2 in
          rest ← slotLoop tz uid events slotTitle slotMin endD fuel' (S k)
                   (dateAfter t (slotMin * 60000));
          Some (if hasConflict tz events candidate then rest else candidate :: rest)
      else Some []
  end.

(** Turns enough for the loop: one for each whole slot of the window and two
    more. *)
Definition slotFuel (slotMin : Z) (startD endD : TimeValue) : nat :=
  match startD, endD with
  | Ms startT, Ms endT => S (S (Z.to_nat ((endT - startT) `div` (slotMin * 60000))))
  | _, _ => 1%nat
  end.

(** [generateTimeSlots]; [uid k] is the value of the [k]-th call of [uid()]. *)
Definition generateTimeSlots (tz : Z) (uid : nat → string)
    (events : list CalendarEvent) (p : SlotPrompts) : option (list Effect) :=
  match dateStr p with
  | NoDate => Some []
  | _ =>
      let '(sh, sm) := default (Some 14, Some 0) (startHHMM p) in
      let '(eh, em) := default (Some 16, Some 0) (endHHMM p) in
      let slotMin := slotMinOf (slotMinStr p) in
      let slotTitle := orString (slotTitleAnswer p) "Conference Slot" in
      let day := localMidnight tz (dateStr p) in
      let startD := setHours tz (newDate day) sh sm in
      let endD := setHours tz (newDate day) eh em in
      if isNaN startD || isNaN endD || Js.le endD startD
      then Some [Alert "Invalid time range."]
      else
        created ← slotLoop tz uid events slotTitle slotMin endD
                    (slotFuel slotMin startD endD) 0 (newDate startD);
        if bool_decide (created = [])
        then Some [Alert "No slots created (maybe conflicts or too short range)."]
        else Some [BatchSet created;
                   Alert ("Created " +:+ pretty (length created) +:+ " slot(s).")]
  end.

(** The [eventDrop] callback: the calendar hands over the moved event. *)
Definition eventDrop (evId : string) (newStart newEnd : option Z) (newAllDay : bool)
    : list Effect :=
  [UpdateDoc evId [SetStart (toISOString <$> newStart);
                   SetEnd (toISOString <$> newEnd);
                   SetAllDay (Some newAllDay)]].

(** The [eventResize] callback. *)
Definition eventResize (evId : string) (newEnd : option Z) : list Effect :=
  [UpdateDoc evId [SetEnd (toISOString <$> newEnd)]].

(** The "Clear All" button. *)
Definition clearAll (events : list CalendarEvent) (confirmAnswer : bool) : list Effect :=
  if confirmAnswer then (λ e, DeleteDoc (id e)) <$> events else [].

(** The "Add Event Today" button. *)
Definition addEventToday (tz : Z) (newId : string) (titleAnswer : option string)
    (now : Z) : list Effect :=
  match titleAnswer with
  | Some t =>
      if negb (truthy titleAnswer) then []
      else [BatchSet [mkEvent newId t (ymdLocal tz now) None (Some true) "#42a5f5" None None];
            AlertEventAdded t (ymdLocal tz now)]
  | None => []
  end.

End Calendar.

(** ** The note component *)

Module Note.

(** [type NoteDoc] (the two server timestamps are left out). *)
Record NoteDoc : Type := mkNote {
  id : string;
  title : string;
  body : string;
  ownerId : option string;
  fileUrl : option string;
  fileName : option string;
  contentType : option string;
  fileSize : option Z;
  storagePath : option string;
}.

(** What a rejected call throws: the handler reads [code] and [message]. *)
Record JsError : Type := mkError {
  code : option string;
  message : option string;
}.

(** The calls into the backend that [handleDelete] awaits. *)
Inductive Remote : Type :=
| EnsureAnon
| DeleteDoc (collectionName docId : string)
| DeleteObject (path : string).

Inductive Action : Type :=
| Call (r : Remote) (outcome : option JsError)  (* [None]: the call resolved *)
| ConsoleWarn (label : string) (e : JsError)
| ConsoleError (label : string) (e : JsError)
| Alert (msg : string)
| SetSelected (v : option NoteDoc).

(** How the backend answers each call; [None] means it resolves. *)
Record Backend : Type := mkBackend {
  ensureAnon : option JsError;
  deleteDoc : string → string → option JsError;
  deleteObject : string → option JsError;
}.

(** An [async] body: the actions done so far, then a thrown error or a value. *)
Definition Task (A : Type) : Type := list Action * (JsError + A).

Definition ret {A : Type} (x : A) : Task A := ([], inr x).

Definition bind {A B : Type} (m : Task A) (f : A → Task B) : Task B :=
  match m with
  | (tr, inl e) => (tr, inl e)
  | (tr, inr x) => let '(tr', r) := f x in (tr ++ tr', r)
  end.

(** [try { body } catch (e) { handler(e) }]. *)
Definition tryCatch {A : Type} (body : Task A) (handler : JsError → Task A) : Task A :=
  match body with
  | (tr, inl e) => let '(tr', r) := handler e in (tr ++ tr', r)
  | (tr, inr x) => (tr, inr x)
  end.

(** [await call]: the call is made, and throws when it is rejected. *)
Definition await (r : Remote) (outcome : option JsError) : Task unit :=
  ([Call r outcome], match outcome with Some e => inl e | None => inr () end).

Definition emit (a : Action) : Task unit := ([a], inr ()).

Notation "m ;;; k" := (bind m (λ _, k)) (at level 100, right associativity).

(** The text of the alert in the outer [catch]. *)
Definition errorMessage (e : JsError) : string :=
  (if truthy (code e) then default "" (code e) +:+ ": " else "")
  +:+ orString (message e) "Failed to delete note".

(** [handleDelete]. *)
Definition handleDelete (B : Backend) (confirmAnswer : bool)
    (selected : option NoteDoc) (note : NoteDoc) : Task unit :=
  if negb confirmAnswer then ret ()
  else
    tryCatch
      (await EnsureAnon (ensureAnon B) ;;;
       await (DeleteDoc "teacherNotes" (id note))
             (deleteDoc B "teacherNotes" (id note)) ;;;
       (if truthy (storagePath note) then
          let path := default "" (storagePath note) in
          tryCatch (await (DeleteObject path) (deleteObject B path))
                   (λ e, emit (ConsoleWarn "Storage delete warning:" e))
        else ret ()) ;;;
       (if bool_decide (id <$> selected = Some (id note))
        then emit (SetSelected None) else ret ()))
      (λ e, emit (ConsoleError "Delete error:" e) ;;;
            emit (Alert (errorMessage e))).

(** The backend as the note component sees it: the note documents and the
    stored files. *)
Record World : Type := mkWorld {
  notes : gmap string NoteDoc;
  blobs : gset string;
}.

(** The effect of one action on the backend: only a call that resolved
    changes it. *)
Definition perform (w : World) (a : Action) : World :=
  match a with
  | Call (DeleteDoc _ docId) None => mkWorld (delete docId (notes w)) (blobs w)
  | Call (DeleteObject path) None => mkWorld (notes w) (blobs w ∖ {[path]})
  | _ => w
  end.

Definition performAll (w : World) (tr : list Action) : World := foldl perform w tr.

(** The remote calls of a trace, in the order they were made. *)
Definition remoteCalls (tr : list Action) : list Remote :=
  omap (λ a, match a with Call r _ => Some r | _ => None end) tr.

(** The actions that bring an error before the user or into the error log. *)
Definition reportsError (a : Action) : bool :=
  match a with
  | Alert _ | ConsoleError _ _ => true
  | _ => false
  end.

End Note.

Import Calendar.

(** ** Notions the statements below use *)

(** The half-open interval [s, e) of an event whose two ends are valid times;
    a missing end stands for the start. *)
Definition interval (tz : Z) (a : CalendarEvent) (s e : Z) : Prop :=
  getTime tz (start a) = Ms s ∧ getTime tz (default (start a) (end_ a)) = Ms e.

(** An event given by two absolute times. *)
Definition timed (evId : string) (s e : Z) (st : option SlotStatus)
    (who : option string) : CalendarEvent :=
  mkEvent evId "" (Instant s) (Some (Instant e)) (Some false) "#42a5f5" st who.

(** An event with a start only. *)
Definition point (evId : string) (s : DateInput) : CalendarEvent :=
  mkEvent evId "" s None (Some true) "#42a5f5" None None.

(** A local wall-clock time: hour [h], minute [m] of day number [day]. *)
Definition wallClock (day h m : Z) : Z := day * msPerDay + h * msPerHour + m * msPerMinute.

(** An event stored with local date-time strings, as [isoLocalDate] writes them. *)
Definition localEvent (evId : string) (s e : Z) (st : option SlotStatus)
    (who : option string) : CalendarEvent :=
  mkEvent evId "" (LocalDateTime s) (Some (LocalDateTime e)) (Some false) "#42a5f5" st who.

(** The events a handler hands to [saveEvents]. *)
Definition persisted (effs : list Effect) : list CalendarEvent :=
  mjoin (omap (λ e, match e with BatchSet docs => Some docs | _ => None end) effs).

(** The candidates of the fixed grid: [n] slots of [slotMin] minutes from [t],
    the first one taking the [k]-th identifier. *)
Fixpoint grid (tz : Z) (uid : nat → string) (slotTitle : string) (slotMin : Z)
    (n : nat) (k : nat) (t : Z) : list CalendarEvent :=
  match n with
  | O => []
  | S n' =>
      mkCandidate tz (uid k) slotTitle (Ms t) (Ms (t + slotMin * 60000))
      :: grid tz uid slotTitle slotMin n' (S k) (t + slotMin * 60000)
  end.

(** The number of whole slots of [slotMin] minutes that fit in a window. *)
Definition slotCount (slotMin startT endT : Z) : nat :=
  Z.to_nat ((endT - startT) `div` (slotMin * 60000)).

(** The slot after the [n] whole slots from [t], when the window is not used
    up and the end of that slot is beyond the range of [Date]: it starts
    where the next slot would, and its end is the text of an invalid date. *)
Definition strayStart (slotMin : Z) (n : nat) (t : Z) : Z :=
  t + Z.of_nat n * (slotMin * 60000).

Definition straySlot (tz : Z) (uid : nat → string) (slotTitle : string) (slotMin : Z)
    (n : nat) (k : nat) (t endT : Z) : list CalendarEvent :=
  if bool_decide (strayStart slotMin n t < endT
                  ∧ maxTime < strayStart slotMin n t + slotMin * 60000)
  then [mkCandidate tz (uid (k + n)%nat) slotTitle (Ms (strayStart slotMin n t)) NaN]
  else [].

(** The candidates of a window from [t] to [endT]: the whole slots, and the
    stray one if there is one. *)
Definition candidates (tz : Z) (uid : nat → string) (slotTitle : string) (slotMin : Z)
    (k : nat) (t endT : Z) : list CalendarEvent :=
  grid tz uid slotTitle slotMin (slotCount slotMin t endT) k t
  ++ straySlot tz uid slotTitle slotMin (slotCount slotMin t endT) k t endT.

(** The window the prompts describe, when both ends are valid dates. *)
Definition window (tz : Z) (p : SlotPrompts) : option (Z * Z) :=
  let '(sh, sm) := default (Some 14, Some 0) (startHHMM p) in
  let '(eh, em) := default (Some 16, Some 0) (endHHMM p) in
  let day := localMidnight tz (dateStr p) in
  match setHours tz (newDate day) sh sm, setHours tz (newDate day) eh em with
  | Ms s, Ms e => Some (s, e)
  | _, _ => None
  end.

(** A time whose local year has four digits: what [isoLocalDate] writes for
    it is read back. *)
Definition fourDigitYear (tz t : Z) : Prop :=
  year1000 <= t + tz * msPerMinute < year10000.

(** A time zone: local time is less than a day from UTC. *)
Definition zone (tz : Z) : Prop := -1440 < tz < 1440.

(** A wall-clock time at least a day away from both ends of the range of
    [Date]. *)
Definition inside (w : Z) : Prop := - maxTime + msPerDay <= w <= maxTime - msPerDay.

(** A time whose local wall clock has no fraction of a second. *)
Definition wholeSeconds (tz t : Z) : Prop := (t + tz * msPerMinute) `mod` 1000 = 0.

(** What [generateTimeSlots] does with the list [created] once the loop is over. *)
Definition reportCreated (created : list CalendarEvent) : list Effect :=
  if bool_decide (created = [])
  then [Alert "No slots created (maybe conflicts or too short range)."]
  else [BatchSet created; Alert ("Created " +:+ pretty (length created) +:+ " slot(s).")].

(** The candidates that overlap no event of the snapshot. *)
Definition survivors (tz : Z) (uid : nat → string) (events : list CalendarEvent)
    (p : SlotPrompts) (s e : Z) : list CalendarEvent :=
  filter (λ c, hasConflict tz events c = false)
    (candidates tz uid (orString (slotTitleAnswer p) "Conference Slot")
       (slotMinOf (slotMinStr p)) 0 s e).

(** An event whose dates are stored as local date-time strings. *)
Definition storedLocal (a : CalendarEvent) : bool :=
  match start a, end_ a with
  | LocalDateTime _, (None | Some (LocalDateTime _)) => true
  | _, _ => false
  end.

(** The prompts of one generation: a day, a window and a slot length, the
    title left at its default. *)
Definition promptsFor (day : Z) (sh sm eh em : Z) (slotMin : option Z) : SlotPrompts :=
  mkPrompts (Day day) (Some (Some sh, Some sm)) (Some (Some eh, Some em)) slotMin None.

(** A slot as [generateTimeSlots] stores it, from hour:minute to hour:minute
    of a day. *)
Definition slotOn (day : Z) (newId : string) (h m h2 m2 : Z) : CalendarEvent :=
  mkEvent newId "Conference Slot" (LocalDateTime (wallClock day h m))
    (Some (LocalDateTime (wallClock day h2 m2))) None "#43a047" (Some available) None.


(** No two booked events of one student overlap. *)
Definition noDoubleBooking (tz : Z) (m : gmap string CalendarEvent) : Prop :=
  ∀ i j a b, i ≠ j → m !! i = Some a → m !! j = Some b →
    status a = Some booked → status b = Some booked →
    studentName a = studentName b →
    overlaps tz a b = false.



(** Some booked event of the student [name] in the collection overlaps [ev]. *)
Definition conflicting (tz : Z) (m : gmap string CalendarEvent) (name : string)
    (ev : CalendarEvent) : Prop :=
  ∃ k e, m !! k = Some e ∧ status e = Some booked ∧ studentName e = Some name
         ∧ overlaps tz e ev = true.

(** The operations of the client on the calendar. *)
Inductive Operation : Type :=
| OpGenerate (uid : nat → string) (p : SlotPrompts)
| OpEventClick (evId : string) (nameAnswer : option string) (confirmAnswer : bool)
| OpEventDrop (evId : string) (newStart newEnd : option Z) (newAllDay : bool)
| OpEventResize (evId : string) (newEnd : option Z)
| OpSelect (newId : string) (titleAnswer : option string) (startStr endStr : DateInput)
    (isAllDay : bool)
| OpDateClick (newId : string) (titleAnswer : option string) (isAllDay : bool)
    (dateStr : DateInput) (date : Z)
| OpClearAll (confirmAnswer : bool)
| OpAddEventToday (newId : string) (titleAnswer : option string) (now : Z).

(** The effects of an operation on the snapshot [events]. *)
Definition run (tz : Z) (op : Operation) (events : list CalendarEvent)
    : option (list Effect) :=
  match op with
  | OpGenerate uid p => generateTimeSlots tz uid events p
  | OpEventClick evId nameAnswer confirmAnswer =>
      Some (handleEventClick tz events evId nameAnswer confirmAnswer)
  | OpEventDrop evId newStart newEnd newAllDay =>
      Some (eventDrop evId newStart newEnd newAllDay)
  | OpEventResize evId newEnd => Some (eventResize evId newEnd)
  | OpSelect newId titleAnswer startStr endStr isAllDay =>
      Some (handleSelect newId titleAnswer startStr endStr isAllDay)
  | OpDateClick newId titleAnswer isAllDay dateStr date =>
      Some (handleDateClick tz newId titleAnswer isAllDay dateStr date)
  | OpClearAll confirmAnswer => Some (clearAll events confirmAnswer)
  | OpAddEventToday newId titleAnswer now => Some (addEventToday tz newId titleAnswer now)
  end.

(** One operation, run on the snapshot of the collection, and its writes
    applied to the collection. *)
Definition step (tz : Z) (ignoreUndefined : bool) (op : Operation)
    (m m' : gmap string CalendarEvent) : Prop :=
  ∃ effs, run tz op (snapshot m) = Some effs ∧ m' = applyEffects ignoreUndefined m effs.


(** The states reached from [m] by operations that satisfy [allowed]. *)
Inductive reachable (tz : Z) (ignoreUndefined : bool) (allowed : Operation → Prop)
    (m : gmap string CalendarEvent) : gmap string CalendarEvent → Prop :=
| reach_refl : reachable tz ignoreUndefined allowed m m
| reach_step m1 m2 op :
    reachable tz ignoreUndefined allowed m m1 →
    allowed op →
    step tz ignoreUndefined op m1 m2 →
    reachable tz ignoreUndefined allowed m m2.

(** What [handleDelete] does to the open note once the record is deleted and
    the stored file dealt with. *)
Definition unselect (selected : option Note.NoteDoc) (note : Note.NoteDoc)
    : list Note.Action :=
  if bool_decide (Note.id <$> selected = Some (Note.id note))
  then [Note.SetSelected None] else [].

(** ** More of the calendar component *)

(** The value of the status filter of the toolbar. *)
Inductive StatusFilter : Type :=
| FilterAll
| FilterStatus (s : SlotStatus).

(** [filteredEvents]: what the calendar widget is given to show. *)
Definition filteredEvents (statusFilter : StatusFilter) (events : list CalendarEvent)
    : list CalendarEvent :=
  match statusFilter with
  | FilterAll => events
  | FilterStatus s => filter (λ e, status e = Some s) events
  end.





(** The three counters of the header. *)
Definition availableCount (events : list CalendarEvent) : nat :=
  length (filter (λ e, status e = Some available) events).
Definition bookedCount (events : list CalendarEvent) : nat :=
  length (filter (λ e, status e = Some booked) events).
Definition pendingCount (events : list CalendarEvent) : nat :=
  length (filter (λ e, status e = Some pending) events).

(** Two documents that differ at most in their times and in [allDay]. *)
Definition sameBooking (d d' : CalendarEvent) : Prop :=
  id d' = id d ∧ title d' = title d ∧ color d' = color d
  ∧ status d' = status d ∧ studentName d' = studentName d.

(** The time a date string stands for when it is read back, cut to the second. *)
Definition wholeSecond (tz t : Z) : Z :=
  (t + tz * msPerMinute) `div` 1000 * 1000 - tz * msPerMinute.

(** ** More of the note component *)

Module NoteForm.

(** Strings stand for sequences of code units, each below 256. *)

(** White space and line ends, as [String.prototype.trim] knows them, among
    the code units below 256. *)
Definition isWhiteSpace (c : Ascii.ascii) : bool :=
  bool_decide (Ascii.N_of_ascii c ∈ [9; 10; 11; 12; 13; 32; 160]%N).

Fixpoint trimStart (s : string) : string :=
  match s with
  | EmptyString => EmptyString
  | String c s' => if isWhiteSpace c then trimStart s' else s
  end.

Fixpoint trimEnd (s : string) : string :=
  match s with
  | EmptyString => EmptyString
  | String c s' =>
      match trimEnd s' with
      | EmptyString => if isWhiteSpace c then EmptyString else String c EmptyString
      | r => String c r
      end
  end.

(** [s.trim()]. *)
Definition trim (s : string) : string := trimEnd (trimStart s).

(** The characters the pattern [/[^a-zA-Z0-9.-]/g] leaves alone. *)
Definition safeChar (c : Ascii.ascii) : bool :=
  let n := Ascii.N_of_ascii c in
  bool_decide (97 ≤ n ≤ 122)%N || bool_decide (65 ≤ n ≤ 90)%N
  || bool_decide (48 ≤ n ≤ 57)%N || bool_decide (n = 46)%N || bool_decide (n = 45)%N.

(** The character "_". *)
Definition underscore : Ascii.ascii := Ascii.ascii_of_N 95.

(** [name.replace(/[^a-zA-Z0-9.-]/g, "_")]. *)
Fixpoint sanitizeName (s : string) : string :=
  match s with
  | EmptyString => EmptyString
  | String c s' => String (if safeChar c then c else underscore) (sanitizeName s')
  end.

(** A value of a payload. *)
Inductive JsValue : Type :=
| VUndefined
| VNull
| VString (s : string)
| VNumber (n : Z)
| VServerTimestamp.

#[global] Instance JsValue_eq_dec : EqDecision JsValue.
Proof. solve_decision. Defined.

(** [omitUndefined]: the keys of the object, one after the other, copied
    unless their value is [undefined]. *)
Definition omitUndefined (obj : gmap string JsValue) : gmap string JsValue :=
  map_fold (λ key v out, if decide (v = VUndefined) then out else <[key := v]> out)
    ∅ obj.

(** What the component reads of a [File]. *)
Record File : Type := mkFile {
  name : string;
  type : string;
  size : Z;
}.

Definition MAX_MB : Z := 10.

Definition ALLOWED_TYPES : list string :=
  ["image/png"; "image/jpeg"; "image/jpg"; "image/gif"; "image/webp";
   "application/pdf"; "text/plain";
   "application/vnd.openxmlformats-officedocument.wordprocessingml.document"].

(** [isImage]. *)
Definition isImage (contentType : option string) : bool :=
  truthy contentType && String.prefix "image/" (default "" contentType).

(** [(num / den).toFixed(1)] for a quotient that is exact as a number (here
    a file size over a power of two): the nearest tenth, the larger one of
    two that are equally near. *)
Definition toFixed1 (num den : Z) : string :=
  let tenths := (20 * num + den) `div` (2 * den) in
  pretty (tenths `div` 10) +:+ "." +:+ pretty (tenths `mod` 10).

(** [getFileSizeMB(f).toFixed(1)]. *)
Definition fileSizeMBText (f : File) : string := toFixed1 (size f) (1024 * 1024).

(** The calls into the backend. *)
Inductive Remote : Type :=
| EnsureAnon
| UploadBytes (path : string) (f : File) (contentType : option string)
| GetDownloadURL (path : string)
| AddDoc (collectionName : string) (payload : gmap string JsValue)
| UpdateDoc (collectionName docId : string) (payload : gmap string JsValue).

(** What a handler does: calls, dialogs and logs, and the state it sets. *)
Inductive Action : Type :=
| Call (r : Remote) (failed : option Note.JsError)  (* [None]: the call resolved *)
| ConsoleError (label : string) (e : Note.JsError)
| Alert (msg : string)
| ClearFileInput
| ReadAsDataURL (f : File)
| SetTitle (v : string)
| SetBody (v : string)
| SetFile (v : option File)
| SetImagePreview (v : option string)
| SetSaving (v : bool)
| SetUploadProgress (v : option Z)
| SetUploadError (v : option string)
| SetNotes (v : list Note.NoteDoc)
| SetSelected (v : option Note.NoteDoc)
| UpdateSelected (f : option Note.NoteDoc → option Note.NoteDoc)  (* [setSelected(prev => ...)] *)
| SetIsEditing (v : bool)
| SetEditTitle (v : string)
| SetEditBody (v : string).

(** The state of the component. *)
Record State : Type := mkState {
  title : string;
  body : string;
  file : option File;
  imagePreview : option string;
  saving : bool;
  uploadProgress : option Z;
  notes : list Note.NoteDoc;
  selected : option Note.NoteDoc;
  isEditing : bool;
  editTitle : string;
  editBody : string;
  uploadError : option string;
}.

Definition initialState : State :=
  mkState "" "" None None false None [] None false "" "" None.

(** A state setter carried out. *)
Definition setState (st : State) (a : Action) : State :=
  let '(mkState t b f ip sv up ns sel ie et eb ue) := st in
  match a with
  | SetTitle v => mkState v b f ip sv up ns sel ie et eb ue
  | SetBody v => mkState t v f ip sv up ns sel ie et eb ue
  | SetFile v => mkState t b v ip sv up ns sel ie et eb ue
  | SetImagePreview v => mkState t b f v sv up ns sel ie et eb ue
  | SetSaving v => mkState t b f ip v up ns sel ie et eb ue
  | SetUploadProgress v => mkState t b f ip sv v ns sel ie et eb ue
  | SetNotes v => mkState t b f ip sv up v sel ie et eb ue
  | SetSelected v => mkState t b f ip sv up ns v ie et eb ue
  | UpdateSelected g => mkState t b f ip sv up ns (g sel) ie et eb ue
  | SetIsEditing v => mkState t b f ip sv up ns sel v et eb ue
  | SetEditTitle v => mkState t b f ip sv up ns sel ie v eb ue
  | SetEditBody v => mkState t b f ip sv up ns sel ie et v ue
  | SetUploadError v => mkState t b f ip sv up ns sel ie et eb v
  | Call _ _ | ConsoleError _ _ | Alert _ | ClearFileInput | ReadAsDataURL _ => st
  end.

(** The state after a handler. *)
Definition after (st : State) (tr : list Action) : State := foldl setState st tr.

(** How the backend answers; [inl] is a rejection. *)
Record Backend : Type := mkBackend {
  ensureAnon : Note.JsError + string;          (* the user id *)
  now : N;                                     (* [Date.now()] *)
  (* the percentages the progress callback computes, then the end of the upload *)
  uploadBytes : string → list Z * option Note.JsError;
  getDownloadURL : string → Note.JsError + string;
  addDoc : gmap string JsValue → option Note.JsError;
  updateDoc : string → gmap string JsValue → option Note.JsError;
}.

(** An [async] body: the actions done so far, then a thrown error or a value. *)
Definition Task (A : Type) : Type := list Action * (Note.JsError + A).

Definition ret {A : Type} (x : A) : Task A := ([], inr x).

Definition bind {A B : Type} (m : Task A) (f : A → Task B) : Task B :=
  match m with
  | (tr, inl e) => (tr, inl e)
  | (tr, inr x) => let '(tr', r) := f x in (tr ++ tr', r)
  end.

(** [try { body } catch (e) { handler(e) }]. *)
Definition tryCatch {A : Type} (body : Task A) (handler : Note.JsError → Task A)
    : Task A :=
  match body with
  | (tr, inl e) => let '(tr', r) := handler e in (tr ++ tr', r)
  | (tr, inr x) => (tr, inr x)
  end.

(** [try { body } finally { cleanup }], the cleanup being state setters. *)
Definition finally {A : Type} (body : Task A) (cleanup : list Action) : Task A :=
  (body.1 ++ cleanup, body.2).

Definition failed {A : Type} (outcome : Note.JsError + A) : option Note.JsError :=
  match outcome with
  | inl e => Some e
  | inr _ => None
  end.

(** [await call]. *)
Definition await {A : Type} (r : Remote) (outcome : Note.JsError + A) : Task A :=
  ([Call r (failed outcome)], outcome).

Definition settled (outcome : option Note.JsError) : Note.JsError + unit :=
  match outcome with
  | Some e => inl e
  | None => inr ()
  end.

Definition emit (a : Action) : Task unit := ([a], inr ()).

Definition emitAll (tr : list Action) : Task unit := (tr, inr ()).

#[local] Notation "x ⇐ m ;;; k" := (bind m (λ x, k))
  (at level 100, m at next level, right associativity).
#[local] Notation "m ;;; k" := (bind m (λ _, k)) (at level 100, right associativity).

(** [(e?.code ? `${e.code}: ` : "") + (e?.message || dflt)]. *)
Definition errorText (e : Note.JsError) (dflt : string) : string :=
  (if truthy (Note.code e) then default "" (Note.code e) +:+ ": " else "")
  +:+ orString (Note.message e) dflt.

(** [onPickFile], given the first file of the input, if any. *)
Definition onPickFile (picked : option File) : list Action :=
  match picked with
  | None => [SetFile None; SetImagePreview None; SetUploadError None;
             SetUploadProgress None]
  | Some f =>
      if negb (bool_decide (type f ∈ ALLOWED_TYPES)) then
        [Alert ("This file type is not allowed. Type: "
                +:+ orString (Some (type f)) "unknown");
         ClearFileInput; SetUploadProgress None]
      else if bool_decide (MAX_MB * 1024 * 1024 < size f) then
        [Alert ("File is too large. Max " +:+ pretty MAX_MB +:+ " MB. Your file is "
                +:+ fileSizeMBText f +:+ " MB.");
         ClearFileInput; SetUploadProgress None]
      else
        [SetUploadError None; SetUploadProgress None; SetFile (Some f)]
        ++ (if isImage (Some (type f)) then [ReadAsDataURL f]
            else [SetImagePreview None])
  end.

(** The [onloadend] callback of the reader that [onPickFile] starts. *)
Definition onPreviewLoaded (result : string) : list Action :=
  [SetImagePreview (Some result)].

(** [canSave]. *)
Definition canSave (st : State) : bool :=
  (negb (bool_decide (trim (title st) = ""))
   || negb (bool_decide (trim (body st) = ""))
   || bool_decide (is_Some (file st)))
  && negb (saving st).

(** The path under which [handleSave] stores the file. *)
Definition storagePathFor (uid : string) (nowMs : N) (f : File) : string :=
  "users/" +:+ uid +:+ "/notes/" +:+ pretty nowMs +:+ "_" +:+ sanitizeName (name f).

(** The upload part of [handleSave]: the task is started, the progress set
    to 0 and then to what the callback computes; a failure is logged and
    thrown. *)
Definition upload (B : Backend) (path : string) (f : File) (contentType : option string)
    : Task unit :=
  let '(progress, outcome) := uploadBytes B path in
  emit (Call (UploadBytes path f contentType) outcome) ;;;
  emit (SetUploadProgress (Some 0)) ;;;
  emitAll ((λ pct, SetUploadProgress (Some pct)) <$> progress) ;;;
  match outcome with
  | Some e => emit (ConsoleError "Storage upload error:" e) ;;; (([], inl e) : Task unit)
  | None => ret ()
  end.

(** The document [handleSave] hands to [addDoc]; [attached] holds what the
    variables [fileUrl] and [storagePath] have been given, if anything. *)
Definition notePayload (st : State) (uid : string)
    (attached : option (string * string)) : gmap string JsValue :=
  omitUndefined
    (list_to_map
       [("title", VString (trim (title st)));
        ("body", VString (trim (body st)));
        ("fileUrl", match file st, attached with
                    | Some _, Some (url, _) => VString url
                    | Some _, None => VUndefined
                    | None, _ => VNull
                    end);
        ("fileName", match file st with Some f => VString (name f) | None => VNull end);
        ("contentType", match file st with
                        | Some f => if truthy (Some (type f)) then VString (type f)
                                    else VNull
                        | None => VNull
                        end);
        ("fileSize", match file st with Some f => VNumber (size f) | None => VNull end);
        ("storagePath", match file st, attached with
                        | Some _, Some (_, path) => VString path
                        | Some _, None => VUndefined
                        | None, _ => VNull
                        end);
        ("ownerId", VString uid);
        ("createdAt", VServerTimestamp);
        ("updatedAt", VServerTimestamp)]).

(** [handleSave]. *)
Definition handleSave (B : Backend) (st : State) : list Action :=
  if bool_decide (trim (title st) = "") && bool_decide (trim (body st) = "")
     && negb (bool_decide (is_Some (file st)))
  then [Alert "Please add a title or note, or attach a file."]
  else
    [SetSaving true; SetUploadError None]
    ++ (finally
          (tryCatch
             (uid ⇐ await EnsureAnon (ensureAnon B) ;;;
              attached ⇐
                match file st with
                | Some f =>
                    let storagePath := storagePathFor uid (now B) f in
                    let contentType :=
                      if truthy (Some (type f)) then Some (type f) else None in
                    upload B storagePath f contentType ;;;
                    fileUrl ⇐ await (GetDownloadURL storagePath)
                                (getDownloadURL B storagePath) ;;;
                    ret (Some (fileUrl, storagePath))
                | None => ret None
                end ;;;
              let payload := notePayload st uid attached in
              await (AddDoc "teacherNotes" payload) (settled (addDoc B payload)) ;;;
              emitAll [SetTitle ""; SetBody ""; SetFile None; SetImagePreview None;
                       ClearFileInput])
             (λ e,
                emit (ConsoleError "Upload/save error:" e) ;;;
                emit (SetUploadError (Some (errorText e "Failed to save note"))) ;;;
                emit (Alert ("Save failed: " +:+ errorText e "Failed to save note"))))
          [SetUploadProgress None; SetSaving false]).1.

(** The "Clear" button. *)
Definition clearForm : list Action :=
  [SetTitle ""; SetBody ""; SetFile None; SetImagePreview None; SetUploadError None;
   SetUploadProgress None; ClearFileInput].

(** [openNote] and [closeNote]. *)
Definition openNote (n : Note.NoteDoc) : list Action :=
  [SetSelected (Some n); SetIsEditing false;
   SetEditTitle (Note.title n); SetEditBody (Note.body n)].

Definition closeNote : list Action := [SetSelected None; SetIsEditing false].

(** [editChanged]. *)
Definition editChanged (st : State) : bool :=
  negb (bool_decide (default "" (Note.title <$> selected st) = editTitle st))
  || negb (bool_decide (default "" (Note.body <$> selected st) = editBody st)).

Definition withText (t b : string) (n : Note.NoteDoc) : Note.NoteDoc :=
  Note.mkNote (Note.id n) t b (Note.ownerId n) (Note.fileUrl n) (Note.fileName n)
    (Note.contentType n) (Note.fileSize n) (Note.storagePath n).

(** The document [saveEdit] hands to [updateDoc]. *)
Definition editPayload (st : State) : gmap string JsValue :=
  omitUndefined
    (list_to_map
       [("title", VString (trim (editTitle st)));
        ("body", VString (trim (editBody st)));
        ("updatedAt", VServerTimestamp)]).

(** [saveEdit]. *)
Definition saveEdit (B : Backend) (st : State) : list Action :=
  match selected st with
  | None => []
  | Some sel =>
      (tryCatch
         (await EnsureAnon (ensureAnon B) ;;;
          await (UpdateDoc "teacherNotes" (Note.id sel) (editPayload st))
                (settled (updateDoc B (Note.id sel) (editPayload st))) ;;;
          emit (UpdateSelected
                  (fmap (withText (trim (editTitle st)) (trim (editBody st))))) ;;;
          emit (SetIsEditing false))
         (λ e,
            emit (ConsoleError "Update error:" e) ;;;
            emit (Alert (errorText e "Failed to update note")))).1
  end.

(** A field of a document read with [?? dflt]. *)
Definition stringField (data : gmap string JsValue) (key : string) : option string :=
  match data !! key with
  | Some (VString s) => Some s
  | _ => None
  end.

Definition numberField (data : gmap string JsValue) (key : string) : option Z :=
  match data !! key with
  | Some (VNumber n) => Some n
  | _ => None
  end.

(** One document as the [onSnapshot] listener maps it; its fields hold
    what [NoteDoc] declares for them. *)
Definition fromData (docId : string) (data : gmap string JsValue) : Note.NoteDoc :=
  Note.mkNote docId
    (default "" (stringField data "title"))
    (default "" (stringField data "body"))
    (stringField data "ownerId")
    (stringField data "fileUrl")
    (stringField data "fileName")
    (stringField data "contentType")
    (numberField data "fileSize")
    (stringField data "storagePath").

(** The open note looked up again in a new list. *)
Definition refresh (list : list Note.NoteDoc) (prev : option Note.NoteDoc)
    : option Note.NoteDoc :=
  match prev with
  | None => None
  | Some p => Some (default p (find (λ n, bool_decide (Note.id n = Note.id p)) list))
  end.

(** The listener: the list is replaced, and the open note refreshed from it
    when it is still there. *)
Definition onNotesSnapshot (docs : list (string * gmap string JsValue)) : list Action :=
  let list := (λ d, fromData d.1 d.2) <$> docs in
  [SetNotes list; UpdateSelected (refresh list)].

(** The fields of a document that an update rewrites. *)
Definition patchNote (payload : gmap string JsValue) (n : Note.NoteDoc) : Note.NoteDoc :=
  withText (default (Note.title n) (stringField payload "title"))
    (default (Note.body n) (stringField payload "body")) n.

(** The effect of one action on the backend; the store names a new document
    [docId]. *)
Definition perform (docId : string) (w : Note.World) (a : Action) : Note.World :=
  match a with
  | Call (UploadBytes path _ _) None =>
      Note.mkWorld (Note.notes w) ({[path]} ∪ Note.blobs w)
  | Call (AddDoc _ payload) None =>
      Note.mkWorld (<[docId := fromData docId payload]> (Note.notes w)) (Note.blobs w)
  | Call (UpdateDoc _ k payload) None =>
      Note.mkWorld (alter (patchNote payload) k (Note.notes w)) (Note.blobs w)
  | _ => w
  end.

Definition performAll (docId : string) (w : Note.World) (tr : list Action) : Note.World :=
  foldl (perform docId) w tr.

(** The remote calls of a trace, in the order they were made. *)
Definition remoteCalls (tr : list Action) : list Remote :=
  omap (λ a, match a with Call r _ => Some r | _ => None end) tr.

(** A file the picker lets through. *)
Definition validFile (f : File) : Prop :=
  type f ∈ ALLOWED_TYPES ∧ size f <= MAX_MB * 1024 * 1024.

#[global] Instance validFile_dec (f : File) : Decision (validFile f).
Proof. unfold validFile. apply _. Defined.

(** The "Cancel" button of the open note. *)
Definition cancelEdit (st : State) : list Action :=
  match selected st with
  | Some sel => [SetIsEditing false; SetEditTitle (Note.title sel);
                 SetEditBody (Note.body sel)]
  | None => []
  end.

(** What happens to the component: its inputs, its buttons and the
    callbacks it has registered. *)
Inductive FormOp : Type :=
| OpTitle (v : string)
| OpBody (v : string)
| OpPick (picked : option File)
| OpPreviewLoaded (result : string)
| OpSave (B : Backend)
| OpClear
| OpSnapshot (docs : list (string * gmap string JsValue))
| OpOpenNote (n : Note.NoteDoc)
| OpCloseNote
| OpEdit
| OpEditTitle (v : string)
| OpEditBody (v : string)
| OpCancelEdit
| OpSaveEdit (B : Backend).

Definition runForm (op : FormOp) (st : State) : list Action :=
  match op with
  | OpTitle v => [SetTitle v]
  | OpBody v => [SetBody v]
  | OpPick picked => onPickFile picked
  | OpPreviewLoaded result => onPreviewLoaded result
  | OpSave B => handleSave B st
  | OpClear => clearForm
  | OpSnapshot docs => onNotesSnapshot docs
  | OpOpenNote n => openNote n
  | OpCloseNote => closeNote
  | OpEdit => [SetIsEditing true]
  | OpEditTitle v => [SetEditTitle v]
  | OpEditBody v => [SetEditBody v]
  | OpCancelEdit => cancelEdit st
  | OpSaveEdit B => saveEdit B st
  end.

(** The states of the component reached from [st], one handler after the
    other. *)
Inductive formReach (st : State) : State → Prop :=
| form_refl : formReach st st
| form_step st1 op : formReach st st1 → formReach st (after st1 (runForm op st1)).

End NoteForm.

(** ** Notions the statements about the note form use *)

(** The actions that leave what the user has entered as it is. *)
Definition keepsInput (a : NoteForm.Action) : bool :=
  match a with
  | NoteForm.SetTitle _ | NoteForm.SetBody _ | NoteForm.SetFile _
  | NoteForm.SetImagePreview _ => false
  | _ => true
  end.

(** The actions that leave the open note and the edit fields as they are. *)
Definition keepsEdit (a : NoteForm.Action) : bool :=
  match a with
  | NoteForm.SetSelected _ | NoteForm.UpdateSelected _ | NoteForm.SetIsEditing _
  | NoteForm.SetEditTitle _ | NoteForm.SetEditBody _ | NoteForm.SetNotes _ => false
  | _ => true
  end.

(** The dialogs of a trace. *)
Definition dialogs (tr : list NoteForm.Action) : list string :=
  omap (λ a, match a with NoteForm.Alert msg => Some msg | _ => None end) tr.

(** The calls of a trace that were rejected. *)
Definition rejections (tr : list NoteForm.Action) : list Note.JsError :=
  omap (λ a, match a with NoteForm.Call _ o => o | _ => None end) tr.

(** The calls of a trace that changed the store. *)
Definition storeWrites (tr : list NoteForm.Action) : list NoteForm.Remote :=
  omap (λ a, match a with
             | NoteForm.Call (NoteForm.AddDoc c p) None => Some (NoteForm.AddDoc c p)
             | NoteForm.Call (NoteForm.UpdateDoc c k p) None =>
                 Some (NoteForm.UpdateDoc c k p)
             | _ => None
             end) tr.

(** The characters of a string. *)
Fixpoint chars (s : string) : list Ascii.ascii :=
  match s with
  | EmptyString => []
  | String c s' => c :: chars s'
  end.

(** The character "/". *)
Definition slash : Ascii.ascii := Ascii.ascii_of_N 47.

(** The digits. *)
Definition isDigit (c : Ascii.ascii) : Prop := (48 ≤ Ascii.N_of_ascii c ≤ 57)%N.

(** A backend for deletions on which every call resolves. *)
Definition deleting : Note.Backend := Note.mkBackend None (λ _ _, None) (λ _, None).


(** A document as the handlers write it: it has a title, it is not pending,
    and when it is booked it carries the name of the student. *)
Definition wellFormed (d : CalendarEvent) : Prop :=
  title d ≠ "" ∧ status d ≠ Some pending
  ∧ (status d = Some booked → ∃ name, studentName d = Some name ∧ name ≠ "").

(** A collection of such documents, each under its own id. *)
Definition wellKept (m : gmap string CalendarEvent) : Prop :=
  ∀ k d, m !! k = Some d → id d = k ∧ wellFormed d.

(** An effect that writes only such documents. *)
Definition keepsWellFormed (eff : Effect) : Prop :=
  match eff with
  | BatchSet docs => Forall wellFormed docs
  | UpdateDoc _ patch =>
      ∀ d, wellFormed d →
        id (applyPatch patch d) = id d ∧ wellFormed (applyPatch patch d)
  | Alert _ | AlertEventAdded _ _ | DeleteDoc _ => True
  end.

(** A picture, the form filled in with it, an open note, and two backends:
    one on which every call resolves, one that rejects every write of a
    document. *)
Definition photo : NoteForm.File := NoteForm.mkFile "a b.png" "image/png" 2048.

Definition agenda : Note.NoteDoc :=
  Note.mkNote "n1" "Agenda" "" (Some "u1") None None None None None.

Definition filled : NoteForm.State :=
  NoteForm.mkState "Agenda " "" (Some photo) None false None [] (Some agenda) true
    " Agenda, week 2" "bring forms" None.

Definition denied : Note.JsError :=
  Note.mkError (Some "permission-denied") (Some "Missing permissions").

Definition reliable : NoteForm.Backend :=
  NoteForm.mkBackend (inr "u1") 42 (λ _, ([50; 100], None))
    (λ _, inr "https://files/a_b.png") (λ _, None) (λ _ _, None).

Definition readOnly : NoteForm.Backend :=
  NoteForm.mkBackend (inr "u1") 42 (λ _, ([50; 100], None))
    (λ _, inr "https://files/a_b.png") (λ _, Some denied) (λ _ _, Some denied).

(** ** The overlap engine *)

Section overlap_engine.

Variable tz : Z.
Implicit Types a b : CalendarEvent.

Lemma lt_Ms (x y : Z) : Js.lt (Ms x) (Ms y) = true ↔ x < y.
Proof. simpl. apply bool_decide_eq_true. Qed.

Lemma interval_ends a s e :
  interval tz a s e ↔ aStart tz a = Ms s ∧ aEnd tz a = Ms e.
Proof. unfold interval, aStart, aEnd. by destruct (end_ a). Qed.

Lemma overlaps_interval a b s1 e1 s2 e2 :
  interval tz a s1 e1 → interval tz b s2 e2 →
  overlaps tz a b = true ↔ s1 < e2 ∧ s2 < e1.
Proof.
  rewrite !interval_ends. intros [Ha1 Ha2] [Hb1 Hb2]. unfold overlaps.
  rewrite Ha1, Ha2, Hb1, Hb2, andb_true_iff, !lt_Ms. reflexivity.
Qed.

Lemma overlaps_true_valid a b :
  overlaps tz a b = true →
  ∃ s1 e1 s2 e2, interval tz a s1 e1 ∧ interval tz b s2 e2.
Proof.
  unfold overlaps. rewrite andb_true_iff.
  destruct (aStart tz a) as [s1|] eqn:Ha1, (aEnd tz b) as [e2|] eqn:Hb2,
    (aStart tz b) as [s2|] eqn:Hb1, (aEnd tz a) as [e1|] eqn:Ha2; simpl;
    intros [H1 H2]; try discriminate.
  exists s1, e1, s2, e2. by rewrite !interval_ends.
Qed.

Lemma overlaps_sym a b : overlaps tz a b = overlaps tz b a.
Proof. unfold overlaps. apply andb_comm. Qed.

Lemma overlaps_false_interval a b s1 e1 s2 e2 :
  interval tz a s1 e1 → interval tz b s2 e2 →
  overlaps tz a b = false ↔ ¬ (s1 < e2 ∧ s2 < e1).
Proof.
  intros Ha Hb. rewrite <- (overlaps_interval a b s1 e1 s2 e2 Ha Hb).
  by destruct (overlaps tz a b).
Qed.

(** C3. [overlaps(a, b)] is true exactly when both events have valid times
    and [aStart < bEnd] and [bStart < aEnd], a missing end standing for the
    start of its event; two intervals that touch at an end point do not
    overlap, as [0,30) and [30,60). *)
Theorem overlaps_strict_half_open a b :
  (overlaps tz a b = true ↔
     ∃ s1 e1 s2 e2,
       getTime tz (start a) = Ms s1 ∧ getTime tz (default (start a) (end_ a)) = Ms e1 ∧
       getTime tz (start b) = Ms s2 ∧ getTime tz (default (start b) (end_ b)) = Ms e2 ∧
       s1 < e2 ∧ s2 < e1)
  ∧ (∀ s1 e1 s2 e2, interval tz a s1 e1 → interval tz b s2 e2 →
       e1 = s2 → overlaps tz a b = false ∧ overlaps tz b a = false)
  ∧ overlaps tz (timed "a" 0 30 None None) (timed "b" 30 60 None None) = false.
Proof.
  split; [|split].
  - split.
    + intros H. destruct (overlaps_true_valid _ _ H) as (s1 & e1 & s2 & e2 & Ha & Hb).
      exists s1, e1, s2, e2. pose proof (proj1 (overlaps_interval _ _ _ _ _ _ Ha Hb) H).
      destruct Ha, Hb. tauto.
    + intros (s1 & e1 & s2 & e2 & Ha1 & Ha2 & Hb1 & Hb2 & Hlt).
      by apply (overlaps_interval a b s1 e1 s2 e2).
  - intros s1 e1 s2 e2 Ha Hb ->. rewrite (overlaps_sym b a).
    split; apply (overlaps_false_interval _ _ _ _ _ _ Ha Hb); lia.
  - reflexivity.
Qed.

(** C6 (as the code has it). A zero-width interval [t, t), be it an event
    without end or one whose end equals its start, overlaps an interval
    [s, e) exactly when [s < t < e]: the instant has to lie strictly inside. *)
Theorem zero_width_overlaps_strictly_inside a b t s e :
  interval tz a t t → interval tz b s e →
  overlaps tz a b = true ↔ s < t < e.
Proof.
  intros Ha Hb. rewrite (overlaps_interval _ _ _ _ _ _ Ha Hb). lia.
Qed.

(** C8. [overlaps] is symmetric; an event overlaps itself when its interval
    has positive width and does not when the interval has zero width. *)
Theorem overlaps_symmetric_and_self :
  (∀ a b, overlaps tz a b = overlaps tz b a)
  ∧ (∀ a s e, interval tz a s e → s < e → overlaps tz a a = true)
  ∧ (∀ a s, interval tz a s s → overlaps tz a a = false).
Proof.
  split; [exact overlaps_sym|split].
  - intros a s e Ha Hlt. by apply (overlaps_interval _ _ _ _ _ _ Ha Ha).
  - intros a s Ha. apply (overlaps_false_interval _ _ _ _ _ _ Ha Ha). lia.
Qed.

End overlap_engine.

Lemma overlaps_strict_half_open_witness :
  interval 0 (timed "a" 0 30 None None) 0 30
  ∧ interval 0 (timed "b" 30 60 None None) 30 60
  ∧ overlaps 0 (timed "a" 0 30 None None) (timed "b" 30 60 None None) = false
  ∧ overlaps 0 (timed "b" 30 60 None None) (timed "a" 0 30 None None) = false.
Proof.
  assert (Ha : interval 0 (timed "a" 0 30 None None) 0 30) by (split; reflexivity).
  assert (Hb : interval 0 (timed "b" 30 60 None None) 30 60) by (split; reflexivity).
  split; [exact Ha|split; [exact Hb|]].
  exact (proj1 (proj2 (overlaps_strict_half_open 0 _ _)) 0 30 30 60 Ha Hb eq_refl).
Defined.

Lemma zero_width_overlaps_strictly_inside_witness :
  interval 0 (point "p" (Instant 7)) 7 7
  ∧ interval 0 (timed "b" 5 10 None None) 5 10
  ∧ (overlaps 0 (point "p" (Instant 7)) (timed "b" 5 10 None None) = true ↔ 5 < 7 < 10).
Proof.
  split; [|split]; [split; reflexivity | split; reflexivity |].
  apply (zero_width_overlaps_strictly_inside 0 _ _ 7 5 10); split; reflexivity.
Defined.

(** C6 (as stated) fails where the instant is the start of the other interval:
    [5, 5) against [5, 10) gives [false], although [5 <= 5 < 10]. *)
Lemma zero_width_at_start_counterexample :
  interval 0 (point "p" (Instant 5)) 5 5
  ∧ interval 0 (timed "b" 5 10 None None) 5 10
  ∧ overlaps 0 (point "p" (Instant 5)) (timed "b" 5 10 None None) = false
  ∧ ¬ (overlaps 0 (point "p" (Instant 5)) (timed "b" 5 10 None None) = true
       ↔ 5 <= 5 < 10).
Proof.
  split; [|split; [|split]]; [split; reflexivity | split; reflexivity | reflexivity |].
  intros [_ H]. assert (Hf : overlaps 0 (point "p" (Instant 5))
                               (timed "b" 5 10 None None) = false) by reflexivity.
  rewrite H in Hf; [discriminate | lia].
Qed.

Lemma overlaps_symmetric_and_self_witness :
  overlaps 0 (timed "a" 0 30 None None) (timed "b" 15 45 None None)
    = overlaps 0 (timed "b" 15 45 None None) (timed "a" 0 30 None None)
  ∧ (interval 0 (timed "a" 0 30 None None) 0 30 ∧ 0 < 30
     ∧ overlaps 0 (timed "a" 0 30 None None) (timed "a" 0 30 None None) = true)
  ∧ (interval 0 (point "p" (DateOnly 3)) 259200000 259200000
     ∧ overlaps 0 (point "p" (DateOnly 3)) (point "p" (DateOnly 3)) = false).
Proof.
  destruct (overlaps_symmetric_and_self 0) as (Hsym & Hpos & Hzero).
  split; [apply Hsym|split].
  - assert (Hi : interval 0 (timed "a" 0 30 None None) 0 30) by (split; reflexivity).
    split; [exact Hi|split; [lia|]]. apply (Hpos _ 0 30 Hi). lia.
  - assert (Hi : interval 0 (point "p" (DateOnly 3)) 259200000 259200000)
      by (split; reflexivity).
    split; [exact Hi|]. apply (Hzero _ _ Hi).
Defined.

(** ** Slot generation *)

Section slot_generation.

Variable tz : Z.
Variable uid : nat → string.
Implicit Types (events : list CalendarEvent) (p : SlotPrompts).

Lemma timeClip_in v : - maxTime <= v <= maxTime → timeClip v = Ms v.
Proof. intros H. unfold timeClip. by rewrite bool_decide_eq_true_2. Qed.

Lemma timeClip_out v : ¬ (- maxTime <= v <= maxTime) → timeClip v = NaN.
Proof. intros H. unfold timeClip. by rewrite bool_decide_eq_false_2. Qed.

Lemma timeClip_Ms v t : timeClip v = Ms t → t = v ∧ - maxTime <= v <= maxTime.
Proof. unfold timeClip. case_bool_decide; [by intros [= <-]|discriminate]. Qed.

Lemma isoLocalDate_fourDigitYear t :
  fourDigitYear tz t →
  isoLocalDate tz (Ms t) = LocalDateTime ((t + tz * msPerMinute) `div` 1000 * 1000).
Proof.
  unfold fourDigitYear, isoLocalDate, isoReadable. intros H. cbn zeta.
  by rewrite bool_decide_eq_true_2.
Qed.

(** What [isoLocalDate] writes is read back as a local time, or not at all. *)
Lemma isoLocalDate_form tz' d :
  isoLocalDate tz' d = Unparseable ∨ ∃ w, isoLocalDate tz' d = LocalDateTime w.
Proof.
  destruct d as [t|]; [|by left]. unfold isoLocalDate. cbn zeta.
  destruct (isoReadable _); [right; by eexists|by left].
Qed.


(** A text of [isoLocalDate] that is read back gives the time it was written
    for, cut to the second. *)
Lemma isoLocalDate_read d :
  getTime tz (isoLocalDate tz d) = NaN
  ∨ ∃ t, d = Ms t ∧ getTime tz (isoLocalDate tz d) = Ms (wholeSecond tz t).
Proof.
  destruct d as [t|]; [|by left]. unfold isoLocalDate. cbn zeta.
  destruct (isoReadable _); [right; by exists t|by left].
Qed.

Lemma wholeSecond_wholeSeconds t : wholeSeconds tz t → wholeSecond tz t = t.
Proof.
  unfold wholeSeconds, wholeSecond. intros H.
  pose proof (Z.div_mod (t + tz * msPerMinute) 1000 ltac:(lia)). lia.
Qed.

Lemma wholeSeconds_step t slotMin :
  wholeSeconds tz t → wholeSeconds tz (t + slotMin * 60000).
Proof.
  unfold wholeSeconds. intros H.
  replace (t + slotMin * 60000 + tz * msPerMinute)
    with (t + tz * msPerMinute + (slotMin * 60) * 1000) by lia.
  by rewrite Z_mod_plus_full.
Qed.


Lemma setHours_localMidnight day h m :
  zone tz → inside (day * msPerDay) → inside (wallClock day h m) →
  setHours tz (newDate (localMidnight tz (Day day))) (Some h) (Some m)
  = Ms (wallClock day h m - tz * msPerMinute).
Proof.
  unfold zone, inside, maxTime, msPerDay, msPerMinute. intros Hz Hd Hw.
  unfold localMidnight, getTime, newDate, msPerDay, msPerMinute.
  rewrite timeClip_in by (unfold maxTime; lia).
  unfold setHours, wallClock, msPerDay, msPerMinute in *.
  replace (day * 86400000 - tz * 60000 + tz * 60000) with (day * 86400000) by lia.
  rewrite Z.div_mul by lia. rewrite timeClip_in by (unfold maxTime; lia). done.
Qed.

Lemma setHours_wholeSeconds d h m t :
  setHours tz d h m = Ms t → wholeSeconds tz t.
Proof.
  unfold setHours, wholeSeconds.
  destruct d as [t0|], h as [h|], m as [m|]; try discriminate.
  intros [-> _]%timeClip_Ms. unfold msPerDay, msPerHour, msPerMinute.
  match goal with |- ?x `mod` 1000 = 0 =>
    replace x with
      ((((t0 + tz * 60000) `div` 86400000) * 86400 + h * 3600 + m * 60) * 1000)
      by lia end.
  apply Z_mod_mult.
Qed.

Lemma setHours_range d h m t :
  setHours tz d h m = Ms t → - maxTime <= t <= maxTime.
Proof.
  unfold setHours. destruct d as [t0|], h as [h|], m as [m|]; try discriminate.
  by intros [-> ?]%timeClip_Ms.
Qed.

Lemma window_wholeSeconds p s e :
  window tz p = Some (s, e) → wholeSeconds tz s ∧ wholeSeconds tz e.
Proof.
  unfold window. destruct (default _ (startHHMM p)) as [sh sm].
  destruct (default _ (endHHMM p)) as [eh em].
  destruct (setHours tz _ sh sm) as [s'|] eqn:Hs; [|discriminate].
  destruct (setHours tz _ eh em) as [e'|] eqn:He; [|discriminate].
  intros [= <- <-]. split; eapply setHours_wholeSeconds; eassumption.
Qed.

(** Both ends of a window are within the range of [Date]. *)
Lemma window_range p s e :
  window tz p = Some (s, e) → (- maxTime <= s <= maxTime) ∧ (- maxTime <= e <= maxTime).
Proof.
  unfold window. destruct (default _ (startHHMM p)) as [sh sm].
  destruct (default _ (endHHMM p)) as [eh em].
  destruct (setHours tz _ sh sm) as [s'|] eqn:Hs; [|discriminate].
  destruct (setHours tz _ eh em) as [e'|] eqn:He; [|discriminate].
  intros [= <- <-]. split; eapply setHours_range; eassumption.
Qed.

Lemma slotMinOf_ge parsed : 5 <= slotMinOf parsed.
Proof. unfold slotMinOf. lia. Qed.

Lemma hasConflict_false events c :
  hasConflict tz events c = false ↔ ∀ e, e ∈ events → overlaps tz e c = false.
Proof.
  unfold hasConflict. rewrite <- not_true_iff_false, existsb_exists. split.
  - intros H e He. apply not_true_iff_false. intros Ho. apply H.
    exists e. by rewrite <- list_elem_of_In.
  - intros H (e & He & Ho). rewrite <- list_elem_of_In in He.
    rewrite (H e He) in Ho. discriminate.
Qed.

(** A slot whose end is the text of an invalid date overlaps nothing. *)
Lemma overlaps_stray ev i ttl d :
  overlaps tz ev (mkCandidate tz i ttl d NaN) = false.
Proof.
  unfold overlaps, aEnd. simpl. by destruct (aStart tz ev).
Qed.

Lemma hasConflict_stray events i ttl d :
  hasConflict tz events (mkCandidate tz i ttl d NaN) = false.
Proof. apply hasConflict_false. intros ev _. apply overlaps_stray. Qed.

Lemma slotCount_step slotMin t endT :
  0 < slotMin → t + slotMin * 60000 <= endT →
  slotCount slotMin t endT = S (slotCount slotMin (t + slotMin * 60000) endT).
Proof.
  intros Hpos Hle. unfold slotCount.
  replace (endT - t) with (1 * (slotMin * 60000) + (endT - (t + slotMin * 60000)))
    by lia.
  rewrite Z.div_add_l by lia.
  assert (0 <= (endT - (t + slotMin * 60000)) `div` (slotMin * 60000))
    by (apply Z.div_pos; lia).
  rewrite Z2Nat.inj_add by lia. reflexivity.
Qed.

Lemma slotCount_0 slotMin t endT :
  0 < slotMin → endT < t + slotMin * 60000 → slotCount slotMin t endT = 0%nat.
Proof.
  intros Hpos Hlt. unfold slotCount.
  assert ((endT - t) `div` (slotMin * 60000) < 1); [|lia].
  apply Z.div_lt_upper_bound; lia.
Qed.

Lemma straySlot_none tz' ttl slotMin n k t endT :
  endT + slotMin * 60000 <= maxTime →
  straySlot tz' uid ttl slotMin n k t endT = [].
Proof. intros H. unfold straySlot. rewrite bool_decide_eq_false_2; [done|lia]. Qed.

Lemma candidates_step ttl slotMin k t endT :
  0 < slotMin → t + slotMin * 60000 <= endT →
  candidates tz uid ttl slotMin k t endT
  = mkCandidate tz (uid k) ttl (Ms t) (Ms (t + slotMin * 60000))
    :: candidates tz uid ttl slotMin (S k) (t + slotMin * 60000) endT.
Proof.
  intros Hpos Hle. unfold candidates. rewrite slotCount_step by done.
  cbn [grid app]. do 2 f_equal. unfold straySlot, strayStart.
  replace (t + Z.of_nat (S (slotCount slotMin (t + slotMin * 60000) endT))
               * (slotMin * 60000))
    with (t + slotMin * 60000
          + Z.of_nat (slotCount slotMin (t + slotMin * 60000) endT) * (slotMin * 60000))
    by lia.
  by rewrite Nat.add_succ_r.
Qed.

Lemma candidates_nil ttl slotMin k t endT :
  0 < slotMin →
  endT <= t ∨ (endT < t + slotMin * 60000 ∧ t + slotMin * 60000 <= maxTime) →
  candidates tz uid ttl slotMin k t endT = [].
Proof.
  intros Hpos H. unfold candidates. rewrite slotCount_0 by lia.
  unfold straySlot, strayStart. rewrite bool_decide_eq_false_2; [done|lia].
Qed.

Lemma candidates_stray ttl slotMin k t endT :
  0 < slotMin → t < endT → endT <= maxTime → maxTime < t + slotMin * 60000 →
  candidates tz uid ttl slotMin k t endT = [mkCandidate tz (uid k) ttl (Ms t) NaN].
Proof.
  intros Hpos Hlt Hend Hout. unfold candidates. rewrite slotCount_0 by lia.
  unfold straySlot, strayStart. rewrite bool_decide_eq_true_2 by lia.
  rewrite Nat.add_0_r. cbn [grid app]. do 3 f_equal. lia.
Qed.

(** The loop ends within its fuel, and yields the candidates without
    conflict, in the order they are made. *)
Lemma slotLoop_candidates events ttl slotMin endT fuel k t :
  0 < slotMin → endT <= maxTime → - maxTime <= t →
  (S (slotCount slotMin t endT) < fuel)%nat →
  slotLoop tz uid events ttl slotMin (Ms endT) fuel k (Ms t)
  = Some (filter (λ c, hasConflict tz events c = false)
            (candidates tz uid ttl slotMin k t endT)).
Proof.
  intros Hpos Hend. revert k t.
  induction fuel as [|fuel IH]; intros k t Hlo Hfuel; [lia|].
  assert (Hstep : 0 < slotMin * 60000) by lia.
  cbn [slotLoop Js.lt dateAfter]. case_bool_decide as Hlt.
  - destruct (decide (t + slotMin * 60000 <= maxTime)) as [Hin|Hout].
    + rewrite timeClip_in by lia. cbn [Js.lt]. case_bool_decide as Hbrk.
      * rewrite candidates_nil by (auto with lia). reflexivity.
      * rewrite candidates_step by lia.
        rewrite slotCount_step in Hfuel by lia.
        rewrite IH by lia. cbn [mbind option_bind]. rewrite filter_cons.
        destruct (hasConflict tz events _) eqn:Hc.
        -- rewrite decide_False by discriminate. reflexivity.
        -- rewrite decide_True by reflexivity. reflexivity.
    + rewrite timeClip_out by lia. cbn [Js.lt].
      destruct fuel as [|fuel]; [lia|]. cbn [slotLoop Js.lt mbind option_bind].
      rewrite candidates_stray by lia. rewrite hasConflict_stray.
      rewrite filter_cons, decide_True by apply hasConflict_stray. reflexivity.
  - rewrite candidates_nil by (auto with lia). reflexivity.
Qed.

Lemma grid_lookup ttl slotMin n k t j :
  (j < n)%nat →
  grid tz uid ttl slotMin n k t !! j
  = Some (mkCandidate tz (uid (k + j)) ttl
            (Ms (t + Z.of_nat j * (slotMin * 60000)))
            (Ms (t + (Z.of_nat j + 1) * (slotMin * 60000)))).
Proof.
  revert k t j. induction n as [|n IH]; intros k t j Hj; [lia|].
  destruct j as [|j]; simpl.
  - rewrite Nat.add_0_r. do 3 f_equal; lia.
  - rewrite IH by lia. do 2 f_equal; [f_equal; lia|f_equal; lia|f_equal; lia].
Qed.

Lemma grid_length ttl slotMin n k t :
  length (grid tz uid ttl slotMin n k t) = n.
Proof. revert k t. induction n as [|n IH]; intros k t; simpl; by rewrite ?IH. Qed.

Lemma grid_elem ttl slotMin n k t c :
  c ∈ grid tz uid ttl slotMin n k t ↔
  ∃ j, (j < n)%nat ∧
    c = mkCandidate tz (uid (k + j)) ttl
          (Ms (t + Z.of_nat j * (slotMin * 60000)))
          (Ms (t + (Z.of_nat j + 1) * (slotMin * 60000))).
Proof.
  rewrite list_elem_of_lookup. split.
  - intros [j Hj]. exists j.
    assert (Hlt : (j < n)%nat).
    { apply lookup_lt_Some in Hj. by rewrite grid_length in Hj. }
    split; [done|]. rewrite grid_lookup in Hj by done. congruence.
  - intros (j & Hlt & ->). exists j. by apply grid_lookup.
Qed.

Lemma straySlot_cases ttl slotMin n k t endT :
  straySlot tz uid ttl slotMin n k t endT = []
  ∨ (strayStart slotMin n t < endT
     ∧ maxTime < strayStart slotMin n t + slotMin * 60000
     ∧ straySlot tz uid ttl slotMin n k t endT
       = [mkCandidate tz (uid (k + n)) ttl (Ms (strayStart slotMin n t)) NaN]).
Proof. unfold straySlot. case_bool_decide; [right; tauto|by left]. Qed.

(** Every candidate is a slot made by [mkCandidate] at a valid start, with
    an identifier that [uid] gave. *)
Lemma candidates_elem ttl slotMin k t endT c :
  c ∈ candidates tz uid ttl slotMin k t endT →
  ∃ j t1 d2, c = mkCandidate tz (uid (k + j)) ttl (Ms t1) d2
             ∧ t1 = t + Z.of_nat j * (slotMin * 60000).
Proof.
  unfold candidates. rewrite elem_of_app. intros [Hc|Hc].
  - apply grid_elem in Hc as (j & _ & ->). by eexists _, _, _.
  - destruct (straySlot_cases ttl slotMin (slotCount slotMin t endT) k t endT)
      as [Hs|(_ & _ & Hs)]; rewrite Hs in Hc.
    + by apply elem_of_nil in Hc.
    + apply list_elem_of_singleton in Hc as ->. by eexists _, _, _.
Qed.

Lemma candidates_grid tz' ttl slotMin k t endT :
  endT + slotMin * 60000 <= maxTime →
  candidates tz' uid ttl slotMin k t endT
  = grid tz' uid ttl slotMin (slotCount slotMin t endT) k t.
Proof. intros H. unfold candidates. by rewrite straySlot_none, app_nil_r. Qed.

Lemma window_Day p s e :
  window tz p = Some (s, e) → ∃ day, dateStr p = Day day.
Proof.
  unfold window. destruct (default _ (startHHMM p)) as [sh sm].
  destruct (default _ (endHHMM p)) as [eh em].
  destruct (dateStr p) as [| |day]; simpl; try discriminate. by exists day.
Qed.

Lemma generateTimeSlots_valid events p s e :
  window tz p = Some (s, e) → s < e →
  generateTimeSlots tz uid events p = Some (reportCreated (survivors tz uid events p s e)).
Proof.
  intros Hw Hlt. destruct (window_Day _ _ _ Hw) as [day Hday].
  destruct (window_range _ _ _ Hw) as [Hs He].
  unfold generateTimeSlots, window in *. rewrite Hday in *.
  destruct (default _ (startHHMM p)) as [sh sm].
  destruct (default _ (endHHMM p)) as [eh em].
  destruct (setHours tz _ sh sm) as [s'|]; [|discriminate].
  destruct (setHours tz _ eh em) as [e'|]; [|discriminate].
  injection Hw as -> ->. cbn [isNaN Js.le orb newDate].
  rewrite bool_decide_eq_false_2 by lia.
  rewrite timeClip_in by done.
  rewrite slotLoop_candidates;
    [|pose proof (slotMinOf_ge (slotMinStr p)); lia|lia|lia
     |unfold slotFuel, slotCount; lia].
  cbn [mbind option_bind]. unfold reportCreated, survivors. by case_bool_decide.
Qed.

Lemma generateTimeSlots_invalid events p :
  dateStr p ≠ NoDate →
  (window tz p = None ∨ ∃ s e, window tz p = Some (s, e) ∧ e <= s) →
  generateTimeSlots tz uid events p = Some [Alert "Invalid time range."].
Proof.
  intros Hd Hw. unfold generateTimeSlots, window in *.
  destruct (default _ (startHHMM p)) as [sh sm].
  destruct (default _ (endHHMM p)) as [eh em].
  destruct (dateStr p) as [| |day] eqn:Hday; [done| |].
  - reflexivity.
  - destruct (setHours tz _ sh sm) as [s'|]; [|reflexivity].
    destruct (setHours tz _ eh em) as [e'|]; [|reflexivity].
    destruct Hw as [Hw|(s & e & [= <- <-] & Hle)]; [discriminate|].
    cbn [isNaN Js.le orb]. by rewrite bool_decide_eq_true_2.
Qed.

(** The model of the loop never runs out of fuel: every call of
    [generateTimeSlots] returns. *)
Lemma generateTimeSlots_total events p :
  is_Some (generateTimeSlots tz uid events p).
Proof.
  assert (Hd : dateStr p = NoDate ∨ dateStr p ≠ NoDate)
    by (destruct (dateStr p); auto).
  destruct Hd as [Hd|Hd].
  { unfold generateTimeSlots. by rewrite Hd. }
  destruct (window tz p) as [[s e]|] eqn:Hw.
  - destruct (decide (s < e)).
    + by rewrite (generateTimeSlots_valid _ _ s e).
    + rewrite generateTimeSlots_invalid; [done..|]. right. exists s, e. split; [done|lia].
  - rewrite generateTimeSlots_invalid; auto.
Qed.

Lemma persisted_reportCreated created : persisted (reportCreated created) = created.
Proof.
  unfold reportCreated. case_bool_decide as H; [by rewrite H|].
  simpl. apply app_nil_r.
Qed.

(** The outcomes of [generateTimeSlots]: nothing at all, the rejection of
    the window, or the report on the survivors of a valid window. *)
Lemma generateTimeSlots_cases events p effs :
  generateTimeSlots tz uid events p = Some effs →
  effs = [] ∨ effs = [Alert "Invalid time range."]
  ∨ ∃ s e, window tz p = Some (s, e) ∧ s < e
           ∧ effs = reportCreated (survivors tz uid events p s e).
Proof.
  intros H.
  assert (Hd : dateStr p = NoDate ∨ dateStr p ≠ NoDate)
    by (destruct (dateStr p); auto).
  destruct Hd as [Hd|Hd].
  { unfold generateTimeSlots in H. rewrite Hd in H. left. congruence. }
  right. destruct (window tz p) as [[s e]|] eqn:Hw.
  - destruct (decide (s < e)).
    + right. exists s, e. rewrite (generateTimeSlots_valid _ _ s e) in H by done.
      split_and!; congruence.
    + left. rewrite generateTimeSlots_invalid in H; [congruence|done|].
      right. exists s, e. split; [done|lia].
  - left. rewrite generateTimeSlots_invalid in H; [congruence|auto..].
Qed.

(** Dates stored as local strings compare the same in every zone. *)
Lemma overlaps_storedLocal a b :
  storedLocal a = true → storedLocal b = true →
  overlaps tz a b = overlaps 0 a b.
Proof.
  unfold storedLocal, overlaps, aEnd, aStart.
  destruct (start a) as [|wa| |], (end_ a) as [[|wa2| |]|],
    (start b) as [|wb| |], (end_ b) as [[|wb2| |]|]; try discriminate;
    intros _ _; simpl; unfold msPerMinute;
    f_equal; apply bool_decide_ext; lia.
Qed.

(** So do they against a slot as [mkCandidate] makes it. *)
Lemma overlaps_candidate_wall a tz' i ttl d d2 :
  storedLocal a = true →
  overlaps tz a (mkCandidate tz' i ttl d d2) = overlaps 0 a (mkCandidate tz' i ttl d d2).
Proof.
  unfold storedLocal, overlaps, aEnd, aStart, mkCandidate. cbn [start end_].
  destruct (isoLocalDate_form tz' d) as [->|[w ->]],
    (isoLocalDate_form tz' d2) as [->|[w2 ->]];
    destruct (start a) as [|wa| |], (end_ a) as [[|wa2| |]|]; try discriminate;
    intros _; simpl; unfold msPerMinute; try reflexivity;
    f_equal; apply bool_decide_ext; lia.
Qed.

Lemma mkCandidate_wall i ttl w w2 :
  mkCandidate tz i ttl (Ms (w - tz * msPerMinute)) (Ms (w2 - tz * msPerMinute))
  = mkCandidate 0 i ttl (Ms w) (Ms w2).
Proof.
  unfold mkCandidate, isoLocalDate, msPerMinute. cbn zeta.
  replace (w - tz * 60000 + tz * 60000) with (w + 0 * 60000) by lia.
  replace (w2 - tz * 60000 + tz * 60000) with (w2 + 0 * 60000) by lia.
  reflexivity.
Qed.

Lemma grid_wall ttl slotMin n k w :
  grid tz uid ttl slotMin n k (w - tz * msPerMinute) = grid 0 uid ttl slotMin n k w.
Proof.
  revert k w. induction n as [|n IH]; intros k w; [done|]. simpl.
  replace (w - tz * msPerMinute + slotMin * 60000)
    with (w + slotMin * 60000 - tz * msPerMinute) by lia.
  by rewrite mkCandidate_wall, IH.
Qed.

Lemma filter_ext_elem {A : Type} (P Q : A → Prop)
    `{!∀ x, Decision (P x), !∀ x, Decision (Q x)} (l : list A) :
  (∀ x, x ∈ l → P x ↔ Q x) → filter P l = filter Q l.
Proof.
  induction l as [|x l IH]; intros Hext; [done|].
  rewrite !filter_cons, IH by (intros y Hy; apply Hext; by right).
  destruct (decide (P x)) as [HP|HP], (decide (Q x)) as [HQ|HQ]; try done.
  - destruct HQ. by apply (Hext x); [left|].
  - destruct HP. by apply (Hext x); [left|].
Qed.

Lemma survivors_wall events p w w2 :
  Forall (λ e, storedLocal e = true) events →
  zone tz → w2 + slotMinOf (slotMinStr p) * 60000 <= maxTime - msPerDay →
  survivors tz uid events p (w - tz * msPerMinute) (w2 - tz * msPerMinute)
  = survivors 0 uid events p w w2.
Proof.
  intros Hloc Hz Hin. unfold survivors.
  unfold zone, msPerDay, msPerMinute in *.
  rewrite !candidates_grid by lia. unfold slotCount.
  replace (w2 - tz * 60000 - (w - tz * 60000)) with (w2 - w) by lia.
  pose proof (grid_wall (orString (slotTitleAnswer p) "Conference Slot")
                (slotMinOf (slotMinStr p))) as Hg.
  unfold msPerMinute in Hg. rewrite Hg.
  apply filter_ext_elem. intros c Hc.
  assert (hasConflict tz events c = hasConflict 0 events c) as ->; [|done].
  assert (Hgrid : ∃ i ttl d d2, c = mkCandidate 0 i ttl d d2).
  { clear -Hc. revert Hc. generalize 0%nat.
    generalize (Z.to_nat ((w2 - w) `div` (slotMinOf (slotMinStr p) * 60000))).
    intros n. revert w. induction n as [|n IH]; intros w k Hc; simpl in Hc.
    - by apply elem_of_nil in Hc.
    - apply elem_of_cons in Hc as [->|Hc]; [by eexists _, _, _, _|by eapply IH]. }
  destruct Hgrid as (i & ttl & d & d2 & ->).
  unfold hasConflict. induction Hloc as [|e es He _ IH]; [done|]. simpl.
  by rewrite IH, overlaps_candidate_wall.
Qed.

Lemma window_promptsFor day sh sm eh em slotMin :
  zone tz → inside (day * msPerDay) →
  inside (wallClock day sh sm) → inside (wallClock day eh em) →
  window tz (promptsFor day sh sm eh em slotMin)
  = Some (wallClock day sh sm - tz * msPerMinute,
          wallClock day eh em - tz * msPerMinute).
Proof.
  intros Hz Hd Hs He.
  cbv [window promptsFor startHHMM endHHMM dateStr default from_option Datatypes.id].
  by rewrite !setHours_localMidnight.
Qed.

(** Generation for a day and a window, over events stored as local
    strings, comes out the same in every zone. *)
Lemma generateTimeSlots_wall events day sh sm eh em slotMin :
  zone tz → inside (day * msPerDay) →
  inside (wallClock day sh sm) → inside (wallClock day eh em) →
  wallClock day eh em + slotMinOf slotMin * 60000 <= maxTime - msPerDay →
  Forall (λ e, storedLocal e = true) events →
  wallClock day sh sm < wallClock day eh em →
  generateTimeSlots tz uid events (promptsFor day sh sm eh em slotMin)
  = Some (reportCreated
            (survivors 0 uid events (promptsFor day sh sm eh em slotMin)
               (wallClock day sh sm) (wallClock day eh em))).
Proof.
  intros Hz Hd Hs He Hin Hloc Hlt.
  rewrite (generateTimeSlots_valid _ _ _ _ (window_promptsFor _ _ _ _ _ _ Hz Hd Hs He))
    by lia.
  by rewrite survivors_wall.
Qed.

(** C1. Every call of [generateTimeSlots] returns, and whatever the prompts
    and the snapshot, no event handed to [saveEvents] overlaps an event of
    the snapshot, of any status.  For a valid window the persisted events are
    exactly the candidates the loop makes that overlap no event of the
    snapshot, each kept as it stands and in the order made (an overlapping
    candidate is left out, not moved); the candidates are those of the fixed
    grid whenever one more slot after the window end would still end within
    the range of [Date].  With the window 14:00-16:00 of 2024-01-01, slots of
    15 minutes and one booked event 14:30-15:00, the candidates 14:30-14:45
    and 14:45-15:00 are left out and the six others are persisted, in every
    time zone. *)
Theorem generated_slots_avoid_existing_events events p :
  (∃ effs, generateTimeSlots tz uid events p = Some effs
     ∧ (∀ c e, c ∈ persisted effs → e ∈ events → overlaps tz e c = false)
     ∧ (∀ s e, window tz p = Some (s, e) → s < e →
          let made :=
            candidates tz uid (orString (slotTitleAnswer p) "Conference Slot")
              (slotMinOf (slotMinStr p)) 0 s e in
          persisted effs `sublist_of` made
          ∧ (∀ c, c ∈ persisted effs ↔
                  c ∈ made ∧ ∀ e, e ∈ events → overlaps tz e c = false)
          ∧ (e + slotMinOf (slotMinStr p) * 60000 <= maxTime →
             made = grid tz uid (orString (slotTitleAnswer p) "Conference Slot")
                      (slotMinOf (slotMinStr p))
                      (slotCount (slotMinOf (slotMinStr p)) s e) 0 s)))
  ∧ (zone tz →
     generateTimeSlots tz uid
       [localEvent "lesson" (wallClock 19723 14 30) (wallClock 19723 15 0)
          (Some booked) (Some "Sam")]
       (promptsFor 19723 14 0 16 0 (Some 15))
     = Some [BatchSet [slotOn 19723 (uid 0) 14 0 14 15;
                       slotOn 19723 (uid 1) 14 15 14 30;
                       slotOn 19723 (uid 4) 15 0 15 15;
                       slotOn 19723 (uid 5) 15 15 15 30;
                       slotOn 19723 (uid 6) 15 30 15 45;
                       slotOn 19723 (uid 7) 15 45 16 0];
             Alert "Created 6 slot(s)."]).
Proof.
  split.
  - destruct (generateTimeSlots_total events p) as [effs Heffs].
    exists effs. split; [done|].
    destruct (generateTimeSlots_cases _ _ _ Heffs)
      as [->|[->|(s & e & Hw & Hlt & ->)]].
    + split; [intros c e Hc; by apply elem_of_nil in Hc|].
      intros s e Hw Hlt. rewrite (generateTimeSlots_valid _ _ s e Hw Hlt) in Heffs.
      unfold reportCreated in Heffs. by case_bool_decide.
    + split; [intros c e Hc; by apply elem_of_nil in Hc|].
      intros s e Hw Hlt. rewrite (generateTimeSlots_valid _ _ s e Hw Hlt) in Heffs.
      unfold reportCreated in Heffs. by case_bool_decide.
    + rewrite persisted_reportCreated. split.
      * intros c e0 Hc He. unfold survivors in Hc.
        apply list_elem_of_filter in Hc as [Hc _].
        by apply (proj1 (hasConflict_false _ _) Hc).
      * intros s' e' Hw' _. rewrite Hw in Hw'. injection Hw' as <- <-.
        split; [apply sublist_filter|]. split.
        -- intros c. unfold survivors. rewrite list_elem_of_filter, hasConflict_false.
           tauto.
        -- apply candidates_grid.
  - intros Hz. rewrite generateTimeSlots_wall; [reflexivity|done|..].
    + vm_compute. split; discriminate.
    + vm_compute. split; discriminate.
    + vm_compute. split; discriminate.
    + vm_compute. discriminate.
    + repeat constructor.
    + done.
Qed.




Lemma wholeSeconds_steps t slotMin (i : Z) :
  wholeSeconds tz t → wholeSeconds tz (t + i * (slotMin * 60000)).
Proof.
  intros Ht. replace (t + i * (slotMin * 60000)) with (t + (i * slotMin) * 60000) by lia.
  by apply wholeSeconds_step.
Qed.



Lemma grid_ids ttl slotMin n k t :
  id <$> grid tz uid ttl slotMin n k t = uid <$> seq k n.
Proof. revert k t. induction n as [|n IH]; intros k t; simpl; by rewrite ?IH. Qed.

(** The candidates take the values of [uid] in the order of its calls. *)
Lemma candidates_ids ttl slotMin k s e :
  id <$> candidates tz uid ttl slotMin k s e
  = uid <$> seq k (length (candidates tz uid ttl slotMin k s e)).
Proof.
  unfold candidates. rewrite fmap_app, length_app, grid_ids, grid_length.
  destruct (straySlot_cases ttl slotMin (slotCount slotMin s e) k s e)
    as [->|(_ & _ & ->)]; simpl.
  - by rewrite Nat.add_0_r, app_nil_r.
  - by rewrite seq_app, fmap_app.
Qed.



(** C7 (as the code has it). A window that is not valid, or whose end is
    not after its start, is rejected with the alert "Invalid time range.";
    a valid window none of whose candidates survives (each overlaps an event)
    is answered with the alert "No slots created ...", and so is a valid
    window shorter than one slot when a slot from its start would end within
    the range of [Date].  In these cases, and whenever there is nothing to
    persist, no write is issued and the collection stays as it is. *)
Theorem generation_without_slots events p :
  dateStr p ≠ NoDate →
  ((window tz p = None ∨ ∃ s e, window tz p = Some (s, e) ∧ e <= s) →
     generateTimeSlots tz uid events p = Some [Alert "Invalid time range."])
  ∧ (∀ s e, window tz p = Some (s, e) → s < e →
       (∀ c, c ∈ candidates tz uid (orString (slotTitleAnswer p) "Conference Slot")
               (slotMinOf (slotMinStr p)) 0 s e →
             ∃ ev, ev ∈ events ∧ overlaps tz ev c = true) →
       generateTimeSlots tz uid events p
       = Some [Alert "No slots created (maybe conflicts or too short range)."])
  ∧ (∀ s e, window tz p = Some (s, e) → s < e →
       e < s + slotMinOf (slotMinStr p) * 60000 →
       s + slotMinOf (slotMinStr p) * 60000 <= maxTime →
       generateTimeSlots tz uid events p
       = Some [Alert "No slots created (maybe conflicts or too short range)."])
  ∧ (∀ effs, generateTimeSlots tz uid events p = Some effs →
       persisted effs = [] →
       writes effs = [] ∧ ∀ ign m, applyEffects ign m effs = m).
Proof.
  intros Hd. split_and!.
  - by apply generateTimeSlots_invalid.
  - intros s e Hw Hlt Hall. rewrite (generateTimeSlots_valid _ _ s e Hw Hlt).
    assert (survivors tz uid events p s e = []) as ->; [|done].
    unfold survivors. apply elem_of_nil_inv. intros c Hc.
    apply list_elem_of_filter in Hc as [Hno Hc].
    destruct (Hall c Hc) as (ev & Hev & Ho).
    rewrite hasConflict_false in Hno. rewrite (Hno ev Hev) in Ho. discriminate.
  - intros s e Hw Hlt Hshort Hin. rewrite (generateTimeSlots_valid _ _ s e Hw Hlt).
    unfold survivors. rewrite candidates_nil; [done| |auto].
    pose proof (slotMinOf_ge (slotMinStr p)). lia.
  - intros effs Heffs Hp.
    destruct (generateTimeSlots_cases _ _ _ Heffs)
      as [->|[->|(s & e & Hw & Hlt & ->)]]; [done..|].
    rewrite persisted_reportCreated in Hp. by rewrite Hp.
Qed.

End slot_generation.

Lemma generated_slots_avoid_existing_events_witness :
  window 0 (promptsFor 19723 14 0 16 0 (Some 15))
    = Some (wallClock 19723 14 0, wallClock 19723 16 0)
  ∧ wallClock 19723 14 0 < wallClock 19723 16 0
  ∧ wallClock 19723 16 0 + slotMinOf (Some 15) * 60000 <= maxTime
  ∧ zone 0
  ∧ (∃ effs,
      generateTimeSlots 0 pretty
        [localEvent "lesson" (wallClock 19723 14 30) (wallClock 19723 15 0)
           (Some booked) (Some "Sam")]
        (promptsFor 19723 14 0 16 0 (Some 15)) = Some effs
      ∧ persisted effs
          `sublist_of` grid 0 pretty "Conference Slot" 15 8 0 (wallClock 19723 14 0))
  ∧ generateTimeSlots 0 pretty
      [localEvent "lesson" (wallClock 19723 14 30) (wallClock 19723 15 0)
         (Some booked) (Some "Sam")]
      (promptsFor 19723 14 0 16 0 (Some 15))
    = Some [BatchSet [slotOn 19723 "0" 14 0 14 15; slotOn 19723 "1" 14 15 14 30;
                      slotOn 19723 "4" 15 0 15 15; slotOn 19723 "5" 15 15 15 30;
                      slotOn 19723 "6" 15 30 15 45; slotOn 19723 "7" 15 45 16 0];
            Alert "Created 6 slot(s)."].
Proof.
  assert (Hw : window 0 (promptsFor 19723 14 0 16 0 (Some 15))
               = Some (wallClock 19723 14 0, wallClock 19723 16 0)) by reflexivity.
  assert (Hlt : wallClock 19723 14 0 < wallClock 19723 16 0) by reflexivity.
  assert (Hin : wallClock 19723 16 0 + slotMinOf (Some 15) * 60000 <= maxTime)
    by (vm_compute; discriminate).
  assert (Hz : zone 0) by (unfold zone; lia).
  split; [exact Hw|split; [exact Hlt|split; [exact Hin|split; [exact Hz|]]]].
  destruct (generated_slots_avoid_existing_events 0 pretty
              [localEvent "lesson" (wallClock 19723 14 30) (wallClock 19723 15 0)
                 (Some booked) (Some "Sam")]
              (promptsFor 19723 14 0 16 0 (Some 15)))
    as [(effs & Heffs & _ & Hgrid) Hex].
  split; [|exact (Hex Hz)].
  exists effs. split; [exact Heffs|].
  destruct (Hgrid _ _ Hw Hlt) as (Hsub & _ & Hmade).
  rewrite (Hmade Hin) in Hsub. exact Hsub.
Defined.



Lemma generation_without_slots_witness :
  dateStr (promptsFor 19723 14 0 16 0 (Some 120)) ≠ NoDate
  ∧ generateTimeSlots 0 pretty
      [localEvent "lesson" (wallClock 19723 15 0) (wallClock 19723 15 30) None None]
      (promptsFor 19723 14 0 16 0 (Some 120))
    = Some [Alert "No slots created (maybe conflicts or too short range)."]
  ∧ generateTimeSlots 0 pretty [] (promptsFor 19723 16 0 16 0 (Some 15))
    = Some [Alert "Invalid time range."]
  ∧ generateTimeSlots 0 pretty [] (promptsFor 19723 14 0 14 10 (Some 15))
    = Some [Alert "No slots created (maybe conflicts or too short range)."].
Proof.
  assert (Hd : ∀ h m p, dateStr (promptsFor 19723 14 0 h m p) ≠ NoDate) by discriminate.
  split; [apply Hd|split; [|split]].
  - destruct (generation_without_slots 0 pretty
                [localEvent "lesson" (wallClock 19723 15 0) (wallClock 19723 15 30)
                   None None]
                (promptsFor 19723 14 0 16 0 (Some 120)) (Hd _ _ _)) as (_ & Hnone & _).
    apply (Hnone (wallClock 19723 14 0) (wallClock 19723 16 0) eq_refl eq_refl).
    intros c Hc. eexists. split; [by left|].
    vm_compute in Hc. apply list_elem_of_singleton in Hc. by subst c.
  - destruct (generation_without_slots 0 pretty []
                (promptsFor 19723 16 0 16 0 (Some 15))) as (Hinv & _); [discriminate|].
    apply Hinv. right. eexists _, _. split; [reflexivity|]. vm_compute. discriminate.
  - destruct (generation_without_slots 0 pretty []
                (promptsFor 19723 14 0 14 10 (Some 15)) (Hd _ _ _)) as (_ & _ & Hshort & _).
    apply (Hshort (wallClock 19723 14 0) (wallClock 19723 14 10) eq_refl eq_refl).
    + reflexivity.
    + vm_compute. discriminate.
Defined.

(** An hour beyond the range of [Date] makes the window invalid, and the
    generation is rejected. *)
Lemma hour_beyond_the_range_is_rejected :
  window 0 (promptsFor 19723 14 0 3000000000 0 (Some 15)) = None
  ∧ generateTimeSlots 0 pretty [] (promptsFor 19723 14 0 3000000000 0 (Some 15))
    = Some [Alert "Invalid time range."].
Proof. split; reflexivity. Qed.

(** C7 (as stated) fails for a window that ends before it starts: the caller
    is told "Invalid time range.", not that no slot was created. *)
Lemma degenerate_window_counterexample :
  window 0 (promptsFor 19723 16 0 14 0 (Some 15))
    = Some (wallClock 19723 16 0, wallClock 19723 14 0)
  ∧ wallClock 19723 14 0 <= wallClock 19723 16 0
  ∧ generateTimeSlots 0 pretty [] (promptsFor 19723 16 0 14 0 (Some 15))
    = Some [Alert "Invalid time range."]
  ∧ generateTimeSlots 0 pretty [] (promptsFor 19723 16 0 14 0 (Some 15))
    ≠ Some [Alert "No slots created (maybe conflicts or too short range)."].
Proof.
  split; [reflexivity|split; [vm_compute; discriminate|split; [reflexivity|]]].
  discriminate.
Qed.

(** ** Events without an end *)

Section events_without_end.

Variable tz : Z.
Variable uid : nat → string.

Lemma no_end_overlaps_false ev c t s e :
  end_ ev = None → aStart tz ev = Ms t → interval tz c s e → t <= s →
  overlaps tz ev c = false.
Proof.
  intros Hend Hstart Hc Hle.
  assert (Hev : interval tz ev t t).
  { apply interval_ends. unfold aEnd. by rewrite Hend. }
  apply (overlaps_false_interval _ _ _ _ _ _ _ Hev Hc). lia.
Qed.

Lemma hasConflict_skip events1 events2 ev c :
  overlaps tz ev c = false →
  hasConflict tz (events1 ++ ev :: events2) c = hasConflict tz (events1 ++ events2) c.
Proof.
  intros Ho. unfold hasConflict. rewrite !existsb_app. simpl. by rewrite Ho.
Qed.

(** Nor does it overlap a slot made for a start at or after [t], whether
    the texts of the slot are read back or not. *)
Lemma no_end_overlaps_candidate ev t i ttl t1 d2 :
  end_ ev = None → aStart tz ev = Ms t → wholeSeconds tz t1 → t <= t1 →
  overlaps tz ev (mkCandidate tz i ttl (Ms t1) d2) = false.
Proof.
  intros Hend Hstart Hw Hle. unfold overlaps.
  assert (aEnd tz ev = Ms t) as -> by (unfold aEnd; by rewrite Hend).
  assert (Hc : Js.lt (aStart tz (mkCandidate tz i ttl (Ms t1) d2)) (Ms t) = false).
  { unfold aStart. cbn [start mkCandidate].
    destruct (isoLocalDate_read tz (Ms t1)) as [->|(t' & [= <-] & ->)]; [done|].
    rewrite wholeSecond_wholeSeconds by done. cbn [Js.lt].
    by rewrite bool_decide_eq_false_2 by lia. }
  rewrite Hc. apply andb_false_r.
Qed.

Lemma window_promptsFor_inv day sh sm eh em slotMin s e :
  window tz (promptsFor day sh sm eh em slotMin) = Some (s, e) →
  s = wallClock day sh sm - tz * msPerMinute
  ∧ e = wallClock day eh em - tz * msPerMinute.
Proof.
  cbv [window promptsFor startHHMM endHHMM dateStr default from_option Datatypes.id].
  unfold localMidnight, getTime, newDate, timeClip. case_bool_decide; [|discriminate].
  unfold setHours, wallClock.
  replace (day * msPerDay - tz * msPerMinute + tz * msPerMinute)
    with (day * msPerDay) by lia.
  rewrite Z.div_mul by done.
  destruct (timeClip (_ + sh * _ + _ - _)) as [s'|] eqn:Hs; [|discriminate].
  destruct (timeClip (_ + eh * _ + _ - _)) as [e'|] eqn:He; [|discriminate].
  apply timeClip_Ms in Hs as [-> _]. apply timeClip_Ms in He as [-> _].
  by intros [= <- <-].
Qed.

Lemma generateTimeSlots_skip ev t events1 events2 p :
  end_ ev = None → aStart tz ev = Ms t →
  (∀ s e, window tz p = Some (s, e) → t <= s) →
  generateTimeSlots tz uid (events1 ++ ev :: events2) p
  = generateTimeSlots tz uid (events1 ++ events2) p.
Proof.
  intros Hend Hstart Hwin.
  assert (Hd : dateStr p = NoDate ∨ dateStr p ≠ NoDate)
    by (destruct (dateStr p); auto).
  destruct Hd as [Hd|Hd].
  { unfold generateTimeSlots. by rewrite Hd. }
  destruct (window tz p) as [[s e]|] eqn:Hw.
  - destruct (decide (s < e)) as [Hlt|Hge].
    + rewrite !(generateTimeSlots_valid _ _ _ _ s e Hw Hlt). do 2 f_equal.
      unfold survivors. apply filter_ext_elem. intros c Hc.
      apply candidates_elem in Hc as (j & t1 & d2 & -> & ->).
      rewrite hasConflict_skip; [done|].
      destruct (window_wholeSeconds _ _ _ _ Hw) as [Hs _].
      pose proof (slotMinOf_ge (slotMinStr p)).
      apply (no_end_overlaps_candidate ev t); [done..| |].
      * by apply wholeSeconds_steps.
      * specialize (Hwin s e eq_refl). nia.
    + rewrite !generateTimeSlots_invalid; [done|done| |done|];
        right; exists s, e; (split; [done|lia]).
  - by rewrite !generateTimeSlots_invalid by auto.
Qed.

(** C10 (as the code has it). An event stored without end, at instant [t],
    overlaps no interval that starts at or after [t].  An all-day event made
    by a click on a day has no end, and its start, a date-only string, is
    read as midnight UTC of that day.  Such an event changes nothing in a
    generation whose window starts at or after its instant; where local
    time is not ahead of UTC this holds for every generation on the day of
    the event whose window starts at 00:00 or later.  Nor does it count as
    a booking conflict with a slot that starts at or after its instant. *)
Theorem event_without_end_and_later_slots :
  (∀ ev c t s e,
     end_ ev = None → aStart tz ev = Ms t → interval tz c s e → t <= s →
     overlaps tz ev c = false ∧ overlaps tz c ev = false)
  ∧ (∀ newId ttl day date, ttl ≠ "" →
       ∃ ev, persisted (handleDateClick tz newId (Some ttl) true (DateOnly day) date)
             = [ev]
             ∧ end_ ev = None ∧ aStart tz ev = Ms (day * msPerDay))
  ∧ (∀ ev t events1 events2 p,
       end_ ev = None → aStart tz ev = Ms t →
       (∀ s e, window tz p = Some (s, e) → t <= s) →
       generateTimeSlots tz uid (events1 ++ ev :: events2) p
       = generateTimeSlots tz uid (events1 ++ events2) p)
  ∧ (∀ ev day events1 events2 sh sm eh em slotMin,
       start ev = DateOnly day → end_ ev = None →
       tz <= 0 → 0 <= sh → 0 <= sm →
       generateTimeSlots tz uid (events1 ++ ev :: events2)
         (promptsFor day sh sm eh em slotMin)
       = generateTimeSlots tz uid (events1 ++ events2)
           (promptsFor day sh sm eh em slotMin))
  ∧ (∀ ev name cand t s e,
       end_ ev = None → aStart tz ev = Ms t → interval tz cand s e → t <= s →
       bookingConflict tz name cand ev = false).
Proof.
  split_and!.
  - intros ev c t s e Hend Hstart Hc Hle. rewrite (overlaps_sym tz c ev).
    split; by eapply no_end_overlaps_false.
  - intros newId ttl day date Httl. eexists. unfold handleDateClick, truthy.
    rewrite bool_decide_eq_false_2 by done. simpl. split_and!; reflexivity.
  - apply generateTimeSlots_skip.
  - intros ev day events1 events2 sh sm eh em slotMin Hstart Hend Htz Hsh Hsm.
    apply (generateTimeSlots_skip ev (day * msPerDay)); [done| |].
    + unfold aStart. by rewrite Hstart.
    + intros s e [-> _]%window_promptsFor_inv.
      unfold wallClock, msPerHour, msPerMinute. lia.
  - intros ev name cand t s e Hend Hstart Hc Hle. unfold bookingConflict.
    rewrite (no_end_overlaps_false ev cand t s e) by done.
    apply andb_false_r.
Qed.

End events_without_end.

Lemma event_without_end_and_later_slots_witness :
  end_ (point "holiday" (DateOnly 19723)) = None
  ∧ aStart (-300) (point "holiday" (DateOnly 19723)) = Ms (19723 * msPerDay)
  ∧ interval (-300) (slotOn 19723 "0" 0 0 0 30)
      (wallClock 19723 5 0) (wallClock 19723 5 30)
  ∧ 19723 * msPerDay <= wallClock 19723 5 0
  ∧ overlaps (-300) (point "holiday" (DateOnly 19723)) (slotOn 19723 "0" 0 0 0 30) = false
  ∧ generateTimeSlots (-300) pretty [point "holiday" (DateOnly 19723)]
      (promptsFor 19723 0 0 1 0 (Some 30))
    = generateTimeSlots (-300) pretty [] (promptsFor 19723 0 0 1 0 (Some 30)).
Proof.
  destruct (event_without_end_and_later_slots (-300) pretty) as (Hov & _ & _ & Hgen & _).
  assert (Hi : interval (-300) (slotOn 19723 "0" 0 0 0 30)
                 (wallClock 19723 5 0) (wallClock 19723 5 30)) by (split; reflexivity).
  assert (Hle : 19723 * msPerDay <= wallClock 19723 5 0) by (vm_compute; discriminate).
  split_and!; [reflexivity|reflexivity|exact Hi|exact Hle| |].
  - exact (proj1 (Hov (point "holiday" (DateOnly 19723)) _ _ _ _ eq_refl eq_refl Hi Hle)).
  - apply (Hgen (point "holiday" (DateOnly 19723)) 19723 [] []); [reflexivity..|lia|lia|lia].
Defined.

(** C10 (as stated) fails east of Greenwich.  In a zone nine hours ahead of
    UTC the all-day event of 2024-01-01 stands at 09:00 local time: the
    candidate 08:45-09:15 of that very day overlaps it and is dropped, and a
    booked all-day event counts as a conflict for that slot.  It fails too
    for an all-day event made by a selection, which is stored with the end
    of the selection: such an event of 2024-01-01 covers the day, and on the
    meridian of Greenwich every candidate of 14:00-16:00 is dropped. *)
Lemma all_day_event_drops_slot_counterexample :
  persisted (handleDateClick 540 "holiday" (Some "Holiday") true (DateOnly 19723)
               (wallClock 19723 0 0 - 540 * msPerMinute))
    = [mkEvent "holiday" "Holiday" (DateOnly 19723) None (Some true) "#42a5f5" None None]
  ∧ interval 540 (slotOn 19723 "0" 8 45 9 15)
      (wallClock 19723 8 45 - 540 * msPerMinute) (wallClock 19723 9 15 - 540 * msPerMinute)
  ∧ overlaps 540
      (mkEvent "holiday" "Holiday" (DateOnly 19723) None (Some true) "#42a5f5" None None)
      (slotOn 19723 "0" 8 45 9 15) = true
  ∧ generateTimeSlots 540 pretty
      [mkEvent "holiday" "Holiday" (DateOnly 19723) None (Some true) "#42a5f5" None None]
      (promptsFor 19723 8 45 9 45 (Some 30))
    = Some [BatchSet [slotOn 19723 "1" 9 15 9 45]; Alert "Created 1 slot(s)."]
  ∧ generateTimeSlots 540 pretty [] (promptsFor 19723 8 45 9 45 (Some 30))
    = Some [BatchSet [slotOn 19723 "0" 8 45 9 15; slotOn 19723 "1" 9 15 9 45];
            Alert "Created 2 slot(s)."]
  ∧ bookingConflict 540 "Sam" (slotOn 19723 "0" 8 45 9 15)
      (mkEvent "holiday" "Holiday" (DateOnly 19723) None (Some true) "#42a5f5"
         (Some booked) (Some "Sam")) = true
  ∧ persisted (handleSelect "fair" (Some "Fair") (DateOnly 19723) (DateOnly 19724) true)
    = [mkEvent "fair" "Fair" (DateOnly 19723) (Some (DateOnly 19724)) (Some true)
         "#42a5f5" None None]
  ∧ generateTimeSlots 0 pretty
      [mkEvent "fair" "Fair" (DateOnly 19723) (Some (DateOnly 19724)) (Some true)
         "#42a5f5" None None]
      (promptsFor 19723 14 0 16 0 (Some 15))
    = Some [Alert "No slots created (maybe conflicts or too short range)."].
Proof. split_and!; [reflexivity|split; reflexivity|reflexivity..]. Qed.

(** ** Booking *)

Section booking.

Variable tz : Z.
Implicit Types (m : gmap string CalendarEvent) (ev : CalendarEvent).

Lemma elem_of_snapshot m e :
  e ∈ snapshot m ↔ ∃ k d, m !! k = Some d ∧ e = fromDoc k d.
Proof.
  unfold snapshot. rewrite list_elem_of_fmap. split.
  - intros ([k d] & -> & Hkd). apply elem_of_map_to_list in Hkd. by exists k, d.
  - intros (k & d & Hkd & ->). exists (k, d). split; [done|].
    by apply elem_of_map_to_list.
Qed.

Lemma find_snapshot m evId :
  find (λ e, bool_decide (id e = evId)) (snapshot m) = fromDoc evId <$> m !! evId.
Proof.
  destruct (find _ (snapshot m)) as [x|] eqn:Hfind.
  - apply find_some in Hfind as [Hin Hid].
    apply list_elem_of_In, elem_of_snapshot in Hin as (k & d & Hkd & ->).
    apply bool_decide_eq_true in Hid. simpl in Hid. subst k. by rewrite Hkd.
  - destruct (m !! evId) as [d|] eqn:Hd; [|done].
    assert (Hin : In (fromDoc evId d) (snapshot m)).
    { apply list_elem_of_In, elem_of_snapshot. by exists evId, d. }
    pose proof (find_none _ _ Hfind _ Hin) as Hnone. simpl in Hnone.
    by rewrite bool_decide_eq_true_2 in Hnone.
Qed.


(** The test of [handleEventClick] finds a conflict exactly when the
    collection holds a booked event of the student that overlaps the slot. *)
Lemma conflict_in_snapshot m name k ev :
  existsb (bookingConflict tz name (withStudentName (Some name) (fromDoc k ev)))
    (snapshot m) = true
  ↔ conflicting tz m name ev.
Proof.
  rewrite existsb_exists. unfold conflicting, bookingConflict. split.
  - intros (e & Hin & Hc).
    apply list_elem_of_In, elem_of_snapshot in Hin as (j & d & Hjd & ->).
    apply andb_true_iff in Hc as [Hc Ho]. apply andb_true_iff in Hc as [Hs Hn].
    apply bool_decide_eq_true in Hs, Hn. by exists j, d.
  - intros (j & d & Hjd & Hs & Hn & Ho). exists (fromDoc j d). split.
    + apply list_elem_of_In, elem_of_snapshot. by exists j, d.
    + simpl. rewrite !bool_decide_eq_true_2 by done. simpl. by rewrite <- Ho.
Qed.

Lemma alter_lookup_insert {A : Type} (f : A → A) (m : gmap string A) i x :
  m !! i = Some x → alter f i m = <[i := f x]> m.
Proof.
  intros Hi. apply map_eq. intros j. destruct (decide (i = j)) as [<-|Hne].
  - by rewrite lookup_alter_eq, lookup_insert_eq, Hi.
  - by rewrite lookup_alter_ne, lookup_insert_ne.
Qed.

(** The effects of a click on an available slot, once a name is given. *)
Lemma handleEventClick_available m evId ev name confirmAnswer :
  m !! evId = Some ev → status ev = Some available → name ≠ "" →
  handleEventClick tz (snapshot m) evId (Some name) confirmAnswer
  = if existsb (bookingConflict tz name (withStudentName (Some name) (fromDoc evId ev)))
         (snapshot m)
    then [Alert (name +:+ " already has a booked slot that overlaps.")]
    else [UpdateDoc evId (bookingPatch name)].
Proof.
  intros Hev Hst Hname. unfold handleEventClick.
  rewrite find_snapshot, Hev. simpl.
  rewrite (bool_decide_eq_true_2 _ Hst). unfold truthy.
  by rewrite (bool_decide_eq_false_2 _ Hname).
Qed.

(** C2. A click on a slot whose status is [available], answered with a
    name that is not empty: when a booked event of that student overlaps
    the slot, the only effect is an alert that names the student, no write
    is issued and the collection is unchanged; otherwise exactly one write
    is issued, an update of that one document which sets its status to
    [booked], its student name and its colour together, every other field
    and every other document staying as it was. *)
Theorem booking_transition ign m evId ev name confirmAnswer :
  m !! evId = Some ev → status ev = Some available → name ≠ "" →
  let effs := handleEventClick tz (snapshot m) evId (Some name) confirmAnswer in
  (conflicting tz m name ev →
     effs = [Alert (name +:+ " already has a booked slot that overlaps.")]
     ∧ writes effs = []
     ∧ applyEffects ign m effs = m)
  ∧ (¬ conflicting tz m name ev →
     effs = [UpdateDoc evId [SetStatus booked; SetStudentName name; SetColor "#f6c343"]]
     ∧ length (writes effs) = 1%nat
     ∧ applyEffects ign m effs
       = <[evId := mkEvent (id ev) (title ev) (start ev) (end_ ev) (allDay ev)
                     "#f6c343" (Some booked) (Some name)]> m).
Proof.
  intros Hev Hst Hname effs. unfold effs.
  rewrite (handleEventClick_available _ _ _ _ _ Hev Hst Hname).
  destruct (existsb _ (snapshot m)) eqn:Hc.
  - split; [done|]. intros Hno. destruct Hno. by apply (conflict_in_snapshot m name evId).
  - split.
    + intros Hyes. apply (conflict_in_snapshot m name evId) in Hyes. congruence.
    + intros _. split_and!; [done..|]. simpl.
      by rewrite (alter_lookup_insert _ _ _ _ Hev).
Qed.

End booking.

Lemma booking_transition_witness :
  let slot := slotOn 19723 "s1" 14 0 14 15 in
  let other := withStudentName (Some "Sam")
                 (withStatus (Some booked) (slotOn 19723 "s2" 14 15 14 30)) in
  let m : gmap string CalendarEvent := {[ "s1" := slot; "s2" := other ]} in
  m !! "s1" = Some slot ∧ status slot = Some available ∧ "Sam" ≠ ""
  ∧ ¬ conflicting 0 m "Sam" slot
  ∧ handleEventClick 0 (snapshot m) "s1" (Some "Sam") false
    = [UpdateDoc "s1" [SetStatus booked; SetStudentName "Sam"; SetColor "#f6c343"]].
Proof.
  intros slot other m.
  assert (Hev : m !! "s1" = Some slot) by reflexivity.
  assert (Hno : ¬ conflicting 0 m "Sam" slot).
  { intros (k & e & Hk & Hs & _ & Ho). unfold m in Hk.
    apply lookup_insert_Some in Hk as [[_ <-]|[_ Hk]]; [discriminate Hs|].
    apply lookup_singleton_Some in Hk as [_ <-]. discriminate Ho. }
  split_and!; [exact Hev|reflexivity|discriminate|exact Hno|].
  exact (proj1 (proj2 (booking_transition 0 false m "s1" slot "Sam" false
                         Hev eq_refl ltac:(discriminate)) Hno)).
Defined.

(** ** One booking per student and interval *)

Section no_double_booking.

Variable tz : Z.
Variable ign : bool.
Implicit Types (m : gmap string CalendarEvent) (ev : CalendarEvent).

















End no_double_booking.


(** The refusal of the widget is what keeps moves and resizes in line: the
    two handlers write the times they are handed as they come.  Sam holds the
    two adjacent booked slots 14:00-14:15 and 14:15-14:30; [eventDrop] called
    with the second slot on 14:00-14:15, or [eventResize] with the first slot
    stretched to 14:30, would leave two booked events of Sam that overlap. *)
Lemma handlers_rely_on_the_widget :
  let a := localEvent "a" (wallClock 19723 14 0) (wallClock 19723 14 15)
             (Some booked) (Some "Sam") in
  let b := localEvent "b" (wallClock 19723 14 15) (wallClock 19723 14 30)
             (Some booked) (Some "Sam") in
  let m : gmap string CalendarEvent := {[ "a" := a; "b" := b ]} in
  let m1 := applyEffects false m
              (eventDrop "b" (Some (wallClock 19723 14 0))
                 (Some (wallClock 19723 14 15)) false) in
  let m2 := applyEffects false m (eventResize "a" (Some (wallClock 19723 14 30))) in
  noDoubleBooking 0 m ∧ ¬ noDoubleBooking 0 m1 ∧ ¬ noDoubleBooking 0 m2.
Proof.
  intros a b m m1 m2.
  assert (Hab : "a" ≠ "b") by discriminate.
  split_and!.
  - intros i j x y Hij Hi Hj _ _ _. unfold m in Hi, Hj.
    apply lookup_insert_Some in Hi as [[<- <-]|[_ Hi]];
      apply lookup_insert_Some in Hj as [[<- <-]|[_ Hj]];
      try apply lookup_singleton_Some in Hi as [<- <-];
      try apply lookup_singleton_Some in Hj as [<- <-]; done.
  - intros Hinv.
    assert (Ho : overlaps 0 a (timed "b" (wallClock 19723 14 0) (wallClock 19723 14 15)
                                 (Some booked) (Some "Sam")) = false);
      [|discriminate Ho].
    apply (Hinv "a" "b"); [exact Hab|vm_compute; reflexivity..].
  - intros Hinv.
    assert (Ho : overlaps 0
                   (mkEvent "a" "" (LocalDateTime (wallClock 19723 14 0))
                      (Some (Instant (wallClock 19723 14 30))) (Some false) "#42a5f5"
                      (Some booked) (Some "Sam")) b = false);
      [|discriminate Ho].
    apply (Hinv "a" "b"); [exact Hab|vm_compute; reflexivity..].
Qed.

(** ** Deleting a note *)

Section note_deletion.

Variable B : Note.Backend.
Implicit Types (note : Note.NoteDoc) (w : Note.World).

Lemma handleDelete_trace selected note path :
  Note.ensureAnon B = None →
  Note.deleteDoc B "teacherNotes" (Note.id note) = None →
  Note.storagePath note = Some path → path ≠ "" →
  Note.handleDelete B true selected note
  = ([Note.Call Note.EnsureAnon None;
      Note.Call (Note.DeleteDoc "teacherNotes" (Note.id note)) None;
      Note.Call (Note.DeleteObject path) (Note.deleteObject B path)]
     ++ match Note.deleteObject B path with
        | Some e => [Note.ConsoleWarn "Storage delete warning:" e]
        | None => []
        end
     ++ unselect selected note,
     inr ()).
Proof.
  intros Hanon Hdoc Hpath Hne. unfold Note.handleDelete, unselect.
  rewrite Hanon, Hdoc, Hpath. unfold truthy.
  rewrite (bool_decide_eq_false_2 _ Hne). simpl.
  destruct (Note.deleteObject B path); case_bool_decide; reflexivity.
Qed.

Lemma handleDelete_record_failed selected note e :
  Note.ensureAnon B = None →
  Note.deleteDoc B "teacherNotes" (Note.id note) = Some e →
  Note.handleDelete B true selected note
  = ([Note.Call Note.EnsureAnon None;
      Note.Call (Note.DeleteDoc "teacherNotes" (Note.id note)) (Some e);
      Note.ConsoleError "Delete error:" e;
      Note.Alert (Note.errorMessage e)],
     inr ()).
Proof.
  intros Hanon Hdoc. unfold Note.handleDelete. by rewrite Hanon, Hdoc.
Qed.

(** C9. Deleting a note that carries a storage path (a text that is not
    empty, as every path the component saves is), once the user has
    confirmed and the identity is there: the record delete is issued, and
    when it has gone through, the delete of the stored file is issued next,
    and no other call.  Whether the file delete succeeds or fails, the
    handler ends normally, shows no alert and logs no error, and the record
    stays deleted; a failure of the file delete leaves one warning in the
    console and the stored files as they were.  (A failure of the record
    delete itself is what is shown to the user, and then no file delete is
    issued.) *)
Theorem blob_delete_is_best_effort selected note path w :
  Note.ensureAnon B = None →
  Note.storagePath note = Some path → path ≠ "" →
  let tr := (Note.handleDelete B true selected note).1 in
  let result := (Note.handleDelete B true selected note).2 in
  (∃ rest, Note.remoteCalls tr
           = Note.EnsureAnon :: Note.DeleteDoc "teacherNotes" (Note.id note) :: rest)
  ∧ (Note.deleteDoc B "teacherNotes" (Note.id note) = None →
       result = inr ()
       ∧ Note.remoteCalls tr
         = [Note.EnsureAnon; Note.DeleteDoc "teacherNotes" (Note.id note);
            Note.DeleteObject path]
       ∧ Forall (λ a, Note.reportsError a = false) tr
       ∧ Note.notes (Note.performAll w tr) = delete (Note.id note) (Note.notes w)
       ∧ (∀ e, Note.deleteObject B path = Some e →
            tr = [Note.Call Note.EnsureAnon None;
                  Note.Call (Note.DeleteDoc "teacherNotes" (Note.id note)) None;
                  Note.Call (Note.DeleteObject path) (Some e);
                  Note.ConsoleWarn "Storage delete warning:" e]
                 ++ unselect selected note
            ∧ Note.blobs (Note.performAll w tr) = Note.blobs w)
       ∧ (Note.deleteObject B path = None →
            Note.blobs (Note.performAll w tr) = Note.blobs w ∖ {[path]}))
  ∧ (∀ e, Note.deleteDoc B "teacherNotes" (Note.id note) = Some e →
       tr = [Note.Call Note.EnsureAnon None;
             Note.Call (Note.DeleteDoc "teacherNotes" (Note.id note)) (Some e);
             Note.ConsoleError "Delete error:" e;
             Note.Alert (Note.errorMessage e)]).
Proof.
  intros Hanon Hpath Hne tr result. unfold tr, result.
  destruct (Note.deleteDoc B "teacherNotes" (Note.id note)) as [e0|] eqn:Hdoc.
  - rewrite (handleDelete_record_failed _ _ _ Hanon Hdoc). cbn [fst snd].
    split_and!; [by eexists|done|by intros e [= <-]].
  - rewrite (handleDelete_trace _ _ _ Hanon Hdoc Hpath Hne). cbn [fst snd].
    split_and!; [by eexists| |done]. intros _. unfold unselect.
    destruct (Note.deleteObject B path) as [e|] eqn:Hobj;
      case_bool_decide; simpl; split_and!; try done;
      try (by repeat constructor);
      by intros e' [= <-].
Qed.

End note_deletion.

Lemma blob_delete_is_best_effort_witness :
  let B := Note.mkBackend None (λ _ _, None)
             (λ _, Some (Note.mkError (Some "storage/object-not-found") None)) in
  let note := Note.mkNote "n1" "Plan" "" None (Some "https://files/n1") (Some "plan.pdf")
                (Some "application/pdf") (Some 1024) (Some "users/u1/notes/1_plan.pdf") in
  let w := Note.mkWorld {[ "n1" := note ]} {[ "users/u1/notes/1_plan.pdf" ]} in
  Note.ensureAnon B = None
  ∧ Note.deleteDoc B "teacherNotes" (Note.id note) = None
  ∧ Note.storagePath note = Some "users/u1/notes/1_plan.pdf"
  ∧ "users/u1/notes/1_plan.pdf" ≠ ""
  ∧ (Note.handleDelete B true (Some note) note).2 = inr ()
  ∧ Note.notes (Note.performAll w (Note.handleDelete B true (Some note) note).1)
    = delete "n1" (Note.notes w).
Proof.
  intros B note w.
  destruct (blob_delete_is_best_effort B (Some note) note "users/u1/notes/1_plan.pdf" w
              eq_refl eq_refl ltac:(discriminate))
    as (_ & Hok & _).
  destruct (Hok eq_refl) as (Hres & _ & _ & Hnotes & _).
  split_and!; [reflexivity|reflexivity|reflexivity|discriminate|exact Hres|exact Hnotes].
Defined.

(** ** Dates written and read back *)

Section dates.

Variable tz : Z.





(** X2. A click on a time of the grid, answered with a title, creates one
    plain event (no status, no student); when the half hour from the clicked
    instant lies in the local years 1000 to 9999, the event starts at the
    clicked instant, cut to the second, and lasts exactly 30 minutes.  A
    prompt that is cancelled or left empty creates nothing, for a day as for
    a time. *)
Theorem timed_click_makes_half_hour_event newId date dateStr :
  (∀ answer isAllDay, truthy answer = false →
     handleDateClick tz newId answer isAllDay dateStr date = [])
  ∧ (∀ ttl, ttl ≠ "" →
       ∃ ev, handleDateClick tz newId (Some ttl) false dateStr date
             = [BatchSet [ev]; AlertEventAdded ttl (start ev)]
             ∧ id ev = newId ∧ title ev = ttl
             ∧ status ev = None ∧ studentName ev = None
             ∧ (zone tz → fourDigitYear tz date →
                fourDigitYear tz (date + DEFAULT_TIMED_MINUTES * msPerMinute) →
                interval tz ev (wholeSecond tz date)
                  (wholeSecond tz date + DEFAULT_TIMED_MINUTES * msPerMinute)
                ∧ overlaps tz ev ev = true)).
Proof.
  split.
  - intros [a|] isAllDay Ha; unfold handleDateClick; [|done]. by rewrite Ha.
  - intros ttl Httl.
    exists (mkEvent newId ttl (isoLocalDate tz (Ms date))
              (Some (isoLocalDate tz (addMinutes (Ms date) DEFAULT_TIMED_MINUTES)))
              (Some false) "#42a5f5" None None).
    unfold handleDateClick, truthy.
    rewrite (bool_decide_eq_false_2 _ Httl). cbn [negb].
    split; [reflexivity|]. cbn [id title status studentName start].
    split_and!; [done..|]. intros Hz Hy Hy2.
    assert (Hi : interval tz
                   (mkEvent newId ttl (isoLocalDate tz (Ms date))
                      (Some (isoLocalDate tz (addMinutes (Ms date) DEFAULT_TIMED_MINUTES)))
                      (Some false) "#42a5f5" None None)
                   (wholeSecond tz date)
                   (wholeSecond tz date + DEFAULT_TIMED_MINUTES * msPerMinute)).
    { unfold interval, addMinutes, dateAfter. cbn [start end_ default from_option].
      rewrite timeClip_in.
      2:{ unfold zone, fourDigitYear, year1000, year10000, maxTime,
            DEFAULT_TIMED_MINUTES, msPerMinute in *. lia. }
      replace (date + DEFAULT_TIMED_MINUTES * 60000)
        with (date + DEFAULT_TIMED_MINUTES * msPerMinute) by done.
      rewrite !isoLocalDate_fourDigitYear by done.
      split; [done|]. simpl. f_equal.
      unfold wholeSecond, DEFAULT_TIMED_MINUTES, msPerMinute.
      replace (date + 30 * 60000 + tz * 60000)
        with (date + tz * 60000 + 1800 * 1000) by lia.
      rewrite Z.div_add by lia. lia. }
    split; [exact Hi|].
    apply (overlaps_interval tz _ _ _ _ _ _ Hi Hi).
    unfold DEFAULT_TIMED_MINUTES, msPerMinute. lia.
Qed.

(** X3. [ymdLocal] names the local day that contains the instant: local
    midnight of that day is at or before the instant and less than a day
    before it.  Read back as a plain date string, the day stands for midnight
    UTC, which is local midnight shifted by the offset of the zone; that is
    where the all-day event of "Add Event Today" is placed, without end. *)
Theorem ymdLocal_names_the_local_day t :
  ∃ day t0,
    ymdLocal tz t = DateOnly day
    ∧ localMidnight tz (Day day) = Ms t0
    ∧ t0 <= t < t0 + msPerDay
    ∧ getTime tz (ymdLocal tz t) = Ms (t0 + tz * msPerMinute)
    ∧ ∀ newId ttl, ttl ≠ "" →
        ∃ ev, persisted (addEventToday tz newId (Some ttl) t) = [ev]
              ∧ interval tz ev (t0 + tz * msPerMinute) (t0 + tz * msPerMinute)
              ∧ status ev = None.
Proof.
  exists ((t + tz * msPerMinute) `div` msPerDay),
         ((t + tz * msPerMinute) `div` msPerDay * msPerDay - tz * msPerMinute).
  pose proof (Z.mod_pos_bound (t + tz * msPerMinute) msPerDay
                ltac:(unfold msPerDay; lia)).
  pose proof (Z.div_mod (t + tz * msPerMinute) msPerDay ltac:(unfold msPerDay; lia)).
  split_and!; [done|done|lia|lia| |].
  - simpl. f_equal. lia.
  - intros newId ttl Httl. eexists. unfold addEventToday, truthy.
    rewrite (bool_decide_eq_false_2 _ Httl). cbn [negb].
    split; [reflexivity|]. split; [|done].
    split; simpl; f_equal; lia.
Qed.

End dates.


Lemma timed_click_makes_half_hour_event_witness :
  "Call home" ≠ ""
  ∧ zone 60
  ∧ fourDigitYear 60 (wallClock 19723 9 30)
  ∧ fourDigitYear 60 (wallClock 19723 9 30 + DEFAULT_TIMED_MINUTES * msPerMinute)
  ∧ ∃ ev, handleDateClick 60 "e1" (Some "Call home") false (DateOnly 19723)
            (wallClock 19723 9 30)
          = [BatchSet [ev]; AlertEventAdded "Call home" (start ev)]
          ∧ interval 60 ev (wallClock 19723 9 30) (wallClock 19723 10 0).
Proof.
  assert (Hz : zone 60) by (unfold zone; lia).
  assert (Hy : fourDigitYear 60 (wallClock 19723 9 30)) by (by vm_compute).
  assert (Hy2 : fourDigitYear 60
                  (wallClock 19723 9 30 + DEFAULT_TIMED_MINUTES * msPerMinute))
    by (by vm_compute).
  split; [discriminate|]. split; [exact Hz|]. split; [exact Hy|]. split; [exact Hy2|].
  destruct (proj2 (timed_click_makes_half_hour_event 60 "e1" (wallClock 19723 9 30)
                     (DateOnly 19723)) "Call home" ltac:(discriminate))
    as (ev & Heff & _ & _ & _ & _ & Hi).
  exists ev. split; [exact Heff|exact (proj1 (Hi Hz Hy Hy2))].
Defined.

Lemma ymdLocal_names_the_local_day_witness :
  "Trip" ≠ ""
  ∧ ∃ ev, persisted (addEventToday 540 "e1" (Some "Trip") (wallClock 19723 3 0 - 540 * msPerMinute))
          = [ev]
          ∧ interval 540 ev (19723 * msPerDay) (19723 * msPerDay).
Proof.
  split; [discriminate|].
  destruct (ymdLocal_names_the_local_day 540 (wallClock 19723 3 0 - 540 * msPerMinute))
    as (day & t0 & Hday & Hmid & _ & _ & Hev).
  injection Hday as <-. injection Hmid as <-.
  destruct (Hev "e1" "Trip" ltac:(discriminate)) as (ev & Hp & Hi & _).
  exists ev. split; [exact Hp|exact Hi].
Defined.


(** ** Clicks, moves and the collection *)

Section collection.

Variable tz : Z.
Variable ign : bool.
Implicit Types (m : gmap string CalendarEvent) (ev d : CalendarEvent).

Lemma alter_absent {A : Type} (f : A → A) (m : gmap string A) i :
  m !! i = None → alter f i m = m.
Proof.
  intros Hi. apply map_eq. intros j. destruct (decide (i = j)) as [<-|Hne].
  - by rewrite lookup_alter_eq, Hi.
  - by rewrite lookup_alter_ne.
Qed.

(** X4. A click on an event changes no other document.  A click on an
    event that is not in the snapshot changes nothing.  A click on an event
    that is not an available slot deletes it when the user confirms and
    changes nothing otherwise: it never books.  A click on an available slot
    never deletes it, and changes nothing when the name prompt is cancelled
    or left empty. *)
Theorem click_touches_only_the_clicked_event m evId nameAnswer confirmAnswer :
  let m' := applyEffects ign m
              (handleEventClick tz (snapshot m) evId nameAnswer confirmAnswer) in
  (∀ k, k ≠ evId → m' !! k = m !! k)
  ∧ (m !! evId = None → m' = m)
  ∧ (∀ ev, m !! evId = Some ev → status ev ≠ Some available →
       m' = if confirmAnswer then delete evId m else m)
  ∧ (∀ ev, m !! evId = Some ev → status ev = Some available →
       is_Some (m' !! evId) ∧ (truthy nameAnswer = false → m' = m)).
Proof.
  intros m'. unfold m', handleEventClick. rewrite find_snapshot.
  destruct (m !! evId) as [ev|] eqn:Hev; simpl.
  - case_bool_decide as Hst.
    + assert (Hbook : ∀ name,
                applyEffects ign m [UpdateDoc evId (bookingPatch name)]
                = <[evId := applyPatch (bookingPatch name) ev]> m).
      { intros name. unfold applyEffects. cbn [foldl applyEffect].
        change (forallb definedEntry (bookingPatch name)) with true. cbn [orb].
        by apply alter_lookup_insert. }
      split_and!; [| done | by intros ev' [= <-] | ].
      * intros k Hk. destruct nameAnswer as [name|]; [|done].
        destruct (truthy (Some name)); [|done]. cbn [negb].
        destruct (existsb _ _); [done|]. rewrite Hbook. by rewrite lookup_insert_ne.
      * intros ev' _ _. destruct nameAnswer as [name|]; [|by split; [exists ev|]].
        destruct (truthy (Some name)); cbn [negb]; [|by split; [exists ev|]].
        destruct (existsb _ _); [by split; [exists ev|]|].
        rewrite Hbook, lookup_insert_eq. by split.
    + split_and!; [|done| |by intros ev' [= <-]].
      * intros k Hk. destruct confirmAnswer; [|done]. simpl. by rewrite lookup_delete_ne.
      * intros ev' _ _. by destruct confirmAnswer.
  - split_and!; done.
Qed.

Lemma clearAll_lookup (events : list CalendarEvent) m k :
  applyEffects ign m ((λ e, DeleteDoc (id e)) <$> events) !! k
  = if bool_decide (k ∈ id <$> events) then None else m !! k.
Proof.
  revert m. induction events as [|e events IH]; intros m; [done|].
  cbn [fmap list_fmap applyEffects foldl applyEffect].
  change (foldl (applyEffect ign) (delete (id e) m) ((λ e, DeleteDoc (id e)) <$> events))
    with (applyEffects ign (delete (id e) m) ((λ e, DeleteDoc (id e)) <$> events)).
  rewrite IH. destruct (decide (k = id e)) as [->|Hne].
  - rewrite lookup_delete_eq. rewrite (bool_decide_eq_true_2 (id e ∈ id e :: _)).
    + by case_bool_decide.
    + by left.
  - rewrite lookup_delete_ne by done.
    rewrite (bool_decide_ext (k ∈ id e :: (id <$> events)) (k ∈ id <$> events)); [done|].
    rewrite elem_of_cons. split; [by intros [?|?]|by right].
Qed.

(** X5. "Clear All", once confirmed, leaves the collection empty, whatever
    it held; declined, it leaves the collection as it is. *)
Theorem clear_all_empties_the_collection m :
  applyEffects ign m (clearAll (snapshot m) true) = ∅
  ∧ applyEffects ign m (clearAll (snapshot m) false) = m.
Proof.
  split; [|done]. apply map_eq. intros k. unfold clearAll.
  rewrite clearAll_lookup, lookup_empty. case_bool_decide as Hk; [done|].
  destruct (m !! k) as [d|] eqn:Hd; [|done]. destruct Hk.
  apply list_elem_of_fmap. exists (fromDoc k d). split; [done|].
  apply elem_of_snapshot. by exists k, d.
Qed.

(** X6. Once a slot is booked it is no longer offered for booking: the next
    click on it, whatever name is typed, is a request to delete it, carried out
    only on confirmation.  So a second student cannot take a booked slot, and
    the first booking is never overwritten. *)
Theorem booked_slot_is_not_rebooked m evId ev name confirmAnswer :
  m !! evId = Some ev → status ev = Some available → name ≠ "" →
  ¬ conflicting tz m name ev →
  let m' := applyEffects ign m
              (handleEventClick tz (snapshot m) evId (Some name) confirmAnswer) in
  (∃ ev', m' !! evId = Some ev' ∧ status ev' = Some booked
          ∧ studentName ev' = Some name)
  ∧ ∀ nameAnswer2 confirmAnswer2,
      handleEventClick tz (snapshot m') evId nameAnswer2 confirmAnswer2
      = (if confirmAnswer2 then [DeleteDoc evId] else [])
      ∧ applyEffects ign m'
          (handleEventClick tz (snapshot m') evId nameAnswer2 confirmAnswer2)
        = if confirmAnswer2 then delete evId m else m'.
Proof.
  intros Hev Hst Hname Hno m'.
  assert (Hm' : m' = <[evId := applyPatch (bookingPatch name) ev]> m).
  { unfold m'. rewrite (handleEventClick_available tz _ _ _ _ _ Hev Hst Hname).
    destruct (existsb _ (snapshot m)) eqn:Hc.
    - destruct Hno. by apply (conflict_in_snapshot tz m name evId).
    - unfold applyEffects. cbn [foldl applyEffect].
      change (forallb definedEntry (bookingPatch name)) with true. cbn [orb].
      by apply alter_lookup_insert. }
  split.
  - eexists. rewrite Hm', lookup_insert_eq. by split.
  - intros name2 c2.
    assert (Hclick : handleEventClick tz (snapshot m') evId name2 c2
                     = if c2 then [DeleteDoc evId] else []).
    { unfold handleEventClick. rewrite find_snapshot, Hm', lookup_insert_eq.
      reflexivity. }
    split; [exact Hclick|]. rewrite Hclick. destruct c2; [|done].
    simpl. rewrite Hm'. apply delete_insert_eq.
Qed.

(** X7. A move or a resize changes no other document and creates none; in
    the moved document it leaves the identifier, the title, the colour, the
    status and the student as they are, and a resize leaves the start too.  A
    move to start [s] and end [e] gives the document the interval [s, e) in
    every time zone.  A resize that comes without an end changes nothing, and
    a move without an end is not written at all unless the store is set to
    ignore undefined values. *)
Theorem move_and_resize_change_times_only m evId newStart newEnd newAllDay :
  let m1 := applyEffects ign m (eventDrop evId newStart newEnd newAllDay) in
  let m2 := applyEffects ign m (eventResize evId newEnd) in
  (∀ k, k ≠ evId → m1 !! k = m !! k ∧ m2 !! k = m !! k)
  ∧ (m !! evId = None → m1 = m ∧ m2 = m)
  ∧ (∀ d, m !! evId = Some d →
       ∃ d1 d2, m1 !! evId = Some d1 ∧ m2 !! evId = Some d2
                ∧ sameBooking d d1 ∧ sameBooking d d2
                ∧ start d2 = start d ∧ allDay d2 = allDay d)
  ∧ (∀ d s e, m !! evId = Some d → newStart = Some s → newEnd = Some e →
       ∃ d1, m1 !! evId = Some d1 ∧ allDay d1 = Some newAllDay
             ∧ ∀ zone, interval zone d1 s e)
  ∧ (newEnd = None → m2 = m ∧ (ign = false → m1 = m)).
Proof.
  intros m1 m2. unfold m1, m2, eventDrop, eventResize, applyEffects.
  cbn [foldl applyEffect]. split_and!.
  - intros k Hk. split; case_match; by rewrite ?lookup_alter_ne.
  - intros Hnone. split; case_match; by rewrite ?alter_absent.
  - intros d Hd.
    destruct newStart as [s|], newEnd as [e|], ign; cbn [forallb definedEntry fmap
      option_fmap option_map andb orb];
      rewrite ?lookup_alter_eq, ?Hd; cbn [fmap option_fmap option_map];
      eexists _, _; (split; [reflexivity|]); (split; [reflexivity|]);
      by repeat split.
  - intros d s e Hd -> ->. cbn [forallb definedEntry fmap option_fmap option_map andb orb].
    rewrite lookup_alter_eq, Hd. eexists. split; [reflexivity|]. by split.
  - intros ->. cbn [forallb definedEntry fmap option_fmap option_map andb orb].
    split.
    + destruct ign; [|done]. destruct (m !! evId) as [d|] eqn:Hd.
      * rewrite (alter_lookup_insert _ _ _ _ Hd). by apply insert_id.
      * by apply alter_absent.
    + intros ->. destruct newStart; by rewrite ?andb_false_r.
Qed.

Lemma batchSet_lookup (docs : list CalendarEvent) m d :
  NoDup (id <$> docs) → d ∈ docs →
  foldl (λ m d, <[id d := d]> m) m docs !! id d = Some d.
Proof.
  revert m. induction docs as [|x docs IH]; intros m Hnd Hd.
  - by apply elem_of_nil in Hd.
  - apply NoDup_cons in Hnd as [Hx Hnd]. simpl.
    apply elem_of_cons in Hd as [->|Hd]; [|by apply IH].
    clear IH. revert m. induction docs as [|y docs IH]; intros m; simpl.
    + apply lookup_insert_eq.
    + apply NoDup_cons in Hnd as [_ Hnd]. rewrite ?fmap_cons in Hx.
      apply not_elem_of_cons in Hx as [Hxy Hx].
      rewrite insert_insert_ne by done. by apply IH.
Qed.

Lemma batchSet_lookup_other (docs : list CalendarEvent) m k :
  k ∉ id <$> docs → foldl (λ m d, <[id d := d]> m) m docs !! k = m !! k.
Proof.
  revert m. induction docs as [|x docs IH]; intros m Hk; [done|].
  rewrite ?fmap_cons in Hk. apply not_elem_of_cons in Hk as [Hkx Hk].
  simpl. rewrite IH by done. by apply lookup_insert_ne.
Qed.

Lemma snapshot_ids m : id <$> snapshot m = (map_to_list m).*1.
Proof. unfold snapshot. rewrite <- list_fmap_compose. by apply list_fmap_ext. Qed.

(** X8. Events saved in one batch under distinct identifiers are all in the
    next snapshot, each found by its identifier and as it was saved (with
    [allDay] made a boolean); a document under another identifier is not
    touched, and no identifier occurs twice in a snapshot. *)
Theorem saved_events_show_in_the_snapshot m docs :
  NoDup (id <$> docs) →
  let m' := applyEffects ign m [BatchSet docs] in
  (∀ d, d ∈ docs →
     m' !! id d = Some d
     ∧ find (λ e, bool_decide (id e = id d)) (snapshot m') = Some (fromDoc (id d) d))
  ∧ (∀ k, k ∉ id <$> docs → m' !! k = m !! k)
  ∧ NoDup (id <$> snapshot m')
  ∧ length (snapshot m') = size m'.
Proof.
  intros Hnd m'. unfold m', applyEffects. cbn [foldl applyEffect]. split_and!.
  - intros d Hd. pose proof (batchSet_lookup docs m d Hnd Hd) as Hl.
    split; [done|]. by rewrite find_snapshot, Hl.
  - apply batchSet_lookup_other.
  - rewrite snapshot_ids. apply NoDup_fst_map_to_list.
  - unfold snapshot. by rewrite length_fmap, length_map_to_list.
Qed.

End collection.

(** ** The counters of the header *)

Section counters.

Variable tz : Z.
Variable ign : bool.
Implicit Types (m : gmap string CalendarEvent) (events : list CalendarEvent).

Lemma snapshot_delete m k d :
  m !! k = Some d → snapshot m ≡ₚ fromDoc k d :: snapshot (delete k m).
Proof.
  intros Hk. unfold snapshot.
  rewrite <- (map_to_list_delete m k d Hk). by rewrite fmap_cons.
Qed.

Lemma snapshot_insert m k d :
  snapshot (<[k := d]> m) ≡ₚ fromDoc k d :: snapshot (delete k m).
Proof.
  rewrite <- insert_delete_eq. unfold snapshot.
  rewrite map_to_list_insert by apply lookup_delete_eq.
  by rewrite fmap_cons, delete_insert_eq_eq || rewrite fmap_cons.
Qed.

(** X9. The header counts every event once: the events are the available,
    the booked, the pending and those without status, and the number shown to
    the widget under a status filter is the counter of that status; without
    filter every event is shown. *)
Theorem counters_split_the_events events :
  length events
  = (availableCount events + bookedCount events + pendingCount events
     + length (filter (λ e, status e = None) events))%nat
  ∧ length (filteredEvents (FilterStatus available) events) = availableCount events
  ∧ length (filteredEvents (FilterStatus booked) events) = bookedCount events
  ∧ length (filteredEvents (FilterStatus pending) events) = pendingCount events
  ∧ filteredEvents FilterAll events = events
  ∧ ∀ s e, e ∈ filteredEvents (FilterStatus s) events ↔ e ∈ events ∧ status e = Some s.
Proof.
  split_and!; [|done..|].
  - unfold availableCount, bookedCount, pendingCount.
    induction events as [|e events IH]; [done|].
    rewrite !filter_cons. destruct (status e) as [[| |]|] eqn:Hs;
      repeat case_decide; try congruence; simpl; lia.
  - intros s e. unfold filteredEvents. rewrite list_elem_of_filter. tauto.
Qed.

(** X10. A booking moves one event from the available to the booked: the
    counter of available slots goes down by one, the counter of booked slots
    up by one, the pending and the total stay. *)
Theorem booking_moves_one_counter m evId ev name confirmAnswer :
  m !! evId = Some ev → status ev = Some available → name ≠ "" →
  ¬ conflicting tz m name ev →
  let events := snapshot m in
  let events' := snapshot (applyEffects ign m
                   (handleEventClick tz (snapshot m) evId (Some name) confirmAnswer)) in
  availableCount events = S (availableCount events')
  ∧ bookedCount events' = S (bookedCount events)
  ∧ pendingCount events' = pendingCount events
  ∧ length events' = length events.
Proof.
  intros Hev Hst Hname Hno events events'.
  assert (Hm' : applyEffects ign m
                  (handleEventClick tz (snapshot m) evId (Some name) confirmAnswer)
                = <[evId := applyPatch (bookingPatch name) ev]> m).
  { rewrite (handleEventClick_available tz _ _ _ _ _ Hev Hst Hname).
    destruct (existsb _ (snapshot m)) eqn:Hc.
    - destruct Hno. by apply (conflict_in_snapshot tz m name evId).
    - unfold applyEffects. cbn [foldl applyEffect].
      change (forallb definedEntry (bookingPatch name)) with true. cbn [orb].
      by apply alter_lookup_insert. }
  unfold events', events, availableCount, bookedCount, pendingCount.
  rewrite Hm', (snapshot_delete m evId ev Hev), snapshot_insert.
  rewrite !filter_cons. cbn [fromDoc status applyPatch bookingPatch foldl applyEntry
    withStatus withStudentName withColor].
  rewrite Hst. repeat case_decide; try congruence. by simpl.
Qed.

End counters.

Lemma booking_moves_one_counter_witness :
  let slot := slotOn 19723 "s1" 14 0 14 15 in
  let m : gmap string CalendarEvent := {[ "s1" := slot ]} in
  m !! "s1" = Some slot ∧ status slot = Some available ∧ "Sam" ≠ ""
  ∧ ¬ conflicting 0 m "Sam" slot
  ∧ availableCount (snapshot m) = 1%nat
  ∧ bookedCount (snapshot (applyEffects false m
                   (handleEventClick 0 (snapshot m) "s1" (Some "Sam") false))) = 1%nat.
Proof.
  intros slot m.
  assert (Hev : m !! "s1" = Some slot) by reflexivity.
  assert (Hno : ¬ conflicting 0 m "Sam" slot).
  { intros (k & e & Hk & Hs & _). unfold m in Hk.
    apply lookup_singleton_Some in Hk as [_ <-]. discriminate Hs. }
  destruct (booking_moves_one_counter 0 false m "s1" slot "Sam" false Hev eq_refl
              ltac:(discriminate) Hno) as (_ & Hb & _).
  split_and!; [exact Hev|reflexivity|discriminate|exact Hno|by vm_compute|].
  rewrite Hb. by vm_compute.
Defined.

(** ** Generating twice *)

Section generating_twice.

Variable tz : Z.
Variable ign : bool.
Implicit Types (m : gmap string CalendarEvent) (p : SlotPrompts).

Lemma applyEffects_reportCreated m created :
  applyEffects ign m (reportCreated created)
  = foldl (λ m d, <[id d := d]> m) m created.
Proof. unfold reportCreated. case_bool_decide as Hc; [by rewrite Hc|done]. Qed.

Lemma survivors_ids uid events p s e :
  ∃ n, id <$> survivors tz uid events p s e `sublist_of` uid <$> seq 0 n.
Proof.
  unfold survivors. eexists.
  rewrite <- (candidates_ids tz uid (orString (slotTitleAnswer p) "Conference Slot")
                (slotMinOf (slotMinStr p)) 0 s e).
  apply fmap_sublist, sublist_filter.
Qed.

Lemma survivors_ids_NoDup uid events p s e :
  (∀ i j, uid i = uid j → i = j) → NoDup (id <$> survivors tz uid events p s e).
Proof.
  intros Hinj. destruct (survivors_ids uid events p s e) as [n Hsub].
  eapply sublist_NoDup; [|exact Hsub].
  apply NoDup_fmap_2; [|apply NoDup_seq]. intros i j. apply Hinj.
Qed.

Lemma survivors_ids_fresh uid events p s e m k :
  (∀ i, m !! uid i = None) → is_Some (m !! k) →
  k ∉ id <$> survivors tz uid events p s e.
Proof.
  intros Hfresh [d Hk] Hin. destruct (survivors_ids uid events p s e) as [n Hsub].
  eapply elem_of_sublist in Hin; [|exact Hsub].
  apply list_elem_of_fmap in Hin as (i & -> & _). by rewrite Hfresh in Hk.
Qed.

Lemma snapshot_batchSet m (docs : list CalendarEvent) :
  NoDup (id <$> docs) → (∀ d, d ∈ docs → m !! id d = None) →
  snapshot (foldl (λ m d, <[id d := d]> m) m docs)
  ≡ₚ ((λ d, fromDoc (id d) d) <$> docs) ++ snapshot m.
Proof.
  revert m. induction docs as [|x docs IH]; intros m Hnd Hfresh; [done|].
  rewrite ?fmap_cons in Hnd. apply NoDup_cons in Hnd as [Hx Hnd]. simpl.
  rewrite IH; [|done|].
  - unfold snapshot at 1. rewrite map_to_list_insert by (apply Hfresh; by left).
    rewrite fmap_cons. cbn [fst snd]. fold (snapshot m).
    by rewrite Permutation_middle.
  - intros d Hd. rewrite lookup_insert_ne; [apply Hfresh; by right|].
    intros Heq. apply Hx. rewrite Heq. by apply list_elem_of_fmap_2.
Qed.

(** X11. What a generation reports is what it adds: with identifiers that
    are distinct and not yet in use, the collection grows by exactly the slots
    handed to [saveEvents], all of them available, the booked and the pending
    counters stay, and when at least one slot is created the alert names that
    number. *)
Theorem generation_adds_what_it_reports uid m p effs :
  (∀ i j, uid i = uid j → i = j) → (∀ i, m !! uid i = None) →
  generateTimeSlots tz uid (snapshot m) p = Some effs →
  let n := length (persisted effs) in
  let events' := snapshot (applyEffects ign m effs) in
  length events' = (length (snapshot m) + n)%nat
  ∧ availableCount events' = (availableCount (snapshot m) + n)%nat
  ∧ bookedCount events' = bookedCount (snapshot m)
  ∧ pendingCount events' = pendingCount (snapshot m)
  ∧ (n ≠ 0%nat → effs = [BatchSet (persisted effs);
                          Alert ("Created " +:+ pretty n +:+ " slot(s).")]).
Proof.
  intros Hinj Hfresh Hgen n events'. unfold n, events'.
  destruct (generateTimeSlots_cases _ _ _ _ _ Hgen)
    as [->|[->|(s & e & Hw & Hlt & ->)]]; [by simpl; rewrite !Nat.add_0_r..|].
  rewrite persisted_reportCreated, applyEffects_reportCreated.
  set (S := survivors tz uid (snapshot m) p s e).
  assert (Hperm : snapshot (foldl (λ m d, <[id d := d]> m) m S)
                  ≡ₚ ((λ d, fromDoc (id d) d) <$> S) ++ snapshot m).
  { apply snapshot_batchSet; [by apply survivors_ids_NoDup|].
    intros d Hd. destruct (m !! id d) as [x|] eqn:Hx; [|done].
    exfalso. eapply (survivors_ids_fresh uid); [done|by eexists|].
    by apply list_elem_of_fmap_2. }
  assert (Hav : Forall (λ d, status d = Some available) ((λ d, fromDoc (id d) d) <$> S)).
  { rewrite Forall_fmap, Forall_forall. intros c Hc. unfold S, survivors in Hc.
    apply list_elem_of_filter in Hc as [_ Hc].
    by apply candidates_elem in Hc as (j & t1 & d2 & -> & _). }
  unfold availableCount, bookedCount, pendingCount.
  rewrite Hperm, !filter_app, !length_app, length_fmap.
  assert (Hcount : ∀ l : list CalendarEvent, Forall (λ d, status d = Some available) l →
            length (filter (λ e, status e = Some available) l) = length l
            ∧ length (filter (λ e, status e = Some booked) l) = 0%nat
            ∧ length (filter (λ e, status e = Some pending) l) = 0%nat).
  { induction 1 as [|x l Hx _ IH]; [done|]. rewrite !filter_cons.
    repeat case_decide; try congruence. simpl. destruct IH as (-> & -> & ->). done. }
  destruct (Hcount _ Hav) as (-> & -> & ->). rewrite length_fmap.
  split_and!; [lia..|].
  intros Hn. unfold reportCreated. rewrite bool_decide_eq_false_2; [done|].
  intros HS. by rewrite HS in Hn.
Qed.


End generating_twice.

Lemma click_touches_only_the_clicked_event_witness :
  let lesson := localEvent "l1" (wallClock 19723 9 0) (wallClock 19723 10 0) None None in
  let slot := slotOn 19723 "s1" 14 0 14 15 in
  let m : gmap string CalendarEvent := {[ "l1" := lesson; "s1" := slot ]} in
  m !! "l1" = Some lesson ∧ status lesson ≠ Some available
  ∧ applyEffects false m (handleEventClick 0 (snapshot m) "l1" (Some "Sam") true)
    = delete "l1" m
  ∧ applyEffects false m (handleEventClick 0 (snapshot m) "l1" (Some "Sam") true) !! "s1"
    = Some slot.
Proof.
  intros lesson slot m.
  destruct (click_touches_only_the_clicked_event 0 false m "l1" (Some "Sam") true)
    as (Hframe & _ & Hplain & _).
  split_and!; [reflexivity|discriminate| |].
  - apply (Hplain lesson); [reflexivity|discriminate].
  - rewrite (Hframe "s1") by discriminate. reflexivity.
Defined.

Lemma booked_slot_is_not_rebooked_witness :
  let slot := slotOn 19723 "s1" 14 0 14 15 in
  let m : gmap string CalendarEvent := {[ "s1" := slot ]} in
  let m' := applyEffects false m
              (handleEventClick 0 (snapshot m) "s1" (Some "Sam") false) in
  m !! "s1" = Some slot ∧ status slot = Some available ∧ "Sam" ≠ ""
  ∧ ¬ conflicting 0 m "Sam" slot
  ∧ handleEventClick 0 (snapshot m') "s1" (Some "Kim") false = [].
Proof.
  intros slot m m'.
  assert (Hev : m !! "s1" = Some slot) by reflexivity.
  assert (Hno : ¬ conflicting 0 m "Sam" slot).
  { intros (k & e & Hk & Hs & _). unfold m in Hk.
    apply lookup_singleton_Some in Hk as [_ <-]. discriminate Hs. }
  destruct (booked_slot_is_not_rebooked 0 false m "s1" slot "Sam" false Hev eq_refl
              ltac:(discriminate) Hno) as (_ & Hnext).
  split_and!; [exact Hev|reflexivity|discriminate|exact Hno|].
  exact (proj1 (Hnext (Some "Kim") false)).
Defined.

Lemma move_and_resize_change_times_only_witness :
  let slot := slotOn 19723 "s1" 14 0 14 15 in
  let m : gmap string CalendarEvent := {[ "s1" := slot ]} in
  m !! "s1" = Some slot
  ∧ ∃ d1, applyEffects false m
            (eventDrop "s1" (Some (wallClock 19723 15 0)) (Some (wallClock 19723 15 15))
               false) !! "s1" = Some d1
          ∧ interval 330 d1 (wallClock 19723 15 0) (wallClock 19723 15 15).
Proof.
  intros slot m. split; [reflexivity|].
  destruct (move_and_resize_change_times_only false m "s1"
              (Some (wallClock 19723 15 0)) (Some (wallClock 19723 15 15)) false)
    as (_ & _ & _ & Hmove & _).
  destruct (Hmove slot _ _ eq_refl eq_refl eq_refl) as (d1 & Hd1 & _ & Hi).
  exists d1. split; [exact Hd1|apply Hi].
Defined.

Lemma saved_events_show_in_the_snapshot_witness :
  let docs := [slotOn 19723 "s1" 14 0 14 15; slotOn 19723 "s2" 14 15 14 30] in
  NoDup (id <$> docs)
  ∧ find (λ e, bool_decide (id e = "s2"))
      (snapshot (applyEffects false ∅ [BatchSet docs]))
    = Some (fromDoc "s2" (slotOn 19723 "s2" 14 15 14 30)).
Proof.
  intros docs.
  assert (Hnd : NoDup (id <$> docs)).
  { apply NoDup_cons. split; [|apply NoDup_singleton].
    intros Hin. apply list_elem_of_singleton in Hin. discriminate Hin. }
  split; [exact Hnd|].
  destruct (saved_events_show_in_the_snapshot false ∅ docs Hnd) as (Hall & _).
  apply (Hall (slotOn 19723 "s2" 14 15 14 30)). right. by left.
Defined.

Lemma generation_adds_what_it_reports_witness :
  (∀ i j : nat, pretty i = pretty j → i = j)
  ∧ (∀ i : nat, (∅ : gmap string CalendarEvent) !! pretty i = None)
  ∧ generateTimeSlots 0 pretty (snapshot ∅) (promptsFor 19723 14 0 14 30 (Some 15))
    = Some [BatchSet [slotOn 19723 "0" 14 0 14 15; slotOn 19723 "1" 14 15 14 30];
            Alert "Created 2 slot(s)."]
  ∧ availableCount
      (snapshot (applyEffects false ∅
         [BatchSet [slotOn 19723 "0" 14 0 14 15; slotOn 19723 "1" 14 15 14 30];
          Alert "Created 2 slot(s)."])) = 2%nat.
Proof.
  assert (Hinj : ∀ i j : nat, pretty i = pretty j → i = j) by (intros i j; apply (inj pretty)).
  assert (Hfresh : ∀ i : nat, (∅ : gmap string CalendarEvent) !! pretty i = None)
    by (intros i; apply lookup_empty).
  assert (Hgen : generateTimeSlots 0 pretty (snapshot ∅)
                   (promptsFor 19723 14 0 14 30 (Some 15))
                 = Some [BatchSet [slotOn 19723 "0" 14 0 14 15;
                                   slotOn 19723 "1" 14 15 14 30];
                         Alert "Created 2 slot(s)."]) by reflexivity.
  split_and!; [exact Hinj|exact Hfresh|exact Hgen|].
  exact (proj1 (proj2 (generation_adds_what_it_reports 0 false pretty ∅ _ _
                         Hinj Hfresh Hgen))).
Defined.


(** ** Documents stay well formed *)

Section well_formed_documents.

Variable tz : Z.
Variable ign : bool.

Lemma orString_nonempty s dflt : dflt ≠ "" → orString s dflt ≠ "".
Proof.
  intros Hd. destruct s as [s|]; [|done]. cbn. by case_bool_decide.
Qed.

Lemma truthy_nonempty name : truthy (Some name) = true → name ≠ "".
Proof. cbn. by case_bool_decide. Qed.

Lemma applyEffect_keepsWellFormed m eff :
  keepsWellFormed eff → wellKept m → wellKept (applyEffect ign m eff).
Proof.
  destruct eff as [msg|ttl d|docs|evId patch|evId]; cbn [keepsWellFormed applyEffect];
    intros Hok Hm; try done.
  - revert m Hm. induction Hok as [|d docs Hd _ IH]; intros m Hm; [done|].
    cbn [foldl]. apply IH. intros k d' [[<- <-]|[_ Hk]]%lookup_insert_Some.
    + done.
    + by apply Hm.
  - destruct (forallb definedEntry patch || ign); [|done].
    intros k d' [[-> (d & Hd & ->)]|[_ Hk]]%lookup_alter_Some; [|by apply Hm].
    destruct (Hm _ _ Hd) as [Hid Hwf]. destruct (Hok d Hwf) as [Hid' Hwf'].
    split; [congruence|done].
  - intros k d' [_ Hk]%lookup_delete_Some. by apply Hm.
Qed.

Lemma created_wellFormed newId t s e a c :
  t ≠ "" → wellFormed (mkEvent newId t s e a c None None).
Proof. intros Ht. by split_and!. Qed.

Lemma booking_keepsWellFormed evId name :
  name ≠ "" → keepsWellFormed (UpdateDoc evId (bookingPatch name)).
Proof.
  intros Hname d (Ht & _ & _). destruct d. split; [done|].
  split_and!; [done..|]. intros _. by exists name.
Qed.

Lemma drag_keepsWellFormed evId (newStart newEnd : option DateInput)
    (newAllDay : option bool) :
  keepsWellFormed (UpdateDoc evId [SetStart newStart; SetEnd newEnd;
                                   SetAllDay newAllDay])
  ∧ keepsWellFormed (UpdateDoc evId [SetEnd newEnd]).
Proof.
  split; intros d Hd; by destruct d, newStart, newEnd, newAllDay.
Qed.

Lemma run_keepsWellFormed op events effs :
  run tz op events = Some effs → Forall keepsWellFormed effs.
Proof.
  destruct op as [uid p|evId nameAnswer confirmAnswer|evId newStart newEnd newAllDay
                 |evId newEnd|newId ttl s e d|newId ttl d ds date|confirmAnswer
                 |newId ttl now];
    cbn [run]; intros Hrun; try (injection Hrun as <-).
  - destruct (generateTimeSlots_cases _ _ _ _ _ Hrun)
      as [->|[->|(s & e & _ & _ & ->)]]; [by repeat constructor..|].
    unfold reportCreated. case_bool_decide; repeat constructor.
    apply Forall_forall. intros c [_ Hc]%list_elem_of_filter.
    apply candidates_elem in Hc as (j & t1 & d2 & -> & _). split_and!; [|done..].
    by apply orString_nonempty.
  - unfold handleEventClick.
    destruct (find _ events) as [ev|]; [|constructor].
    case_bool_decide.
    + destruct nameAnswer as [name|]; [|constructor].
      destruct (truthy (Some name)) eqn:Hname; [|constructor]. cbn [negb].
      destruct (existsb _ events); [by repeat constructor|].
      constructor; [|constructor].
      by apply booking_keepsWellFormed, truthy_nonempty.
    + destruct confirmAnswer; by repeat constructor.
  - constructor; [|constructor].
    apply (drag_keepsWellFormed evId _ _ (Some newAllDay)).
  - constructor; [|constructor].
    apply (drag_keepsWellFormed evId None _ None).
  - unfold handleSelect. destruct ttl as [t|]; [|constructor].
    destruct (truthy (Some t)) eqn:Ht; cbn [negb]; [|constructor].
    constructor; [|constructor]. constructor; [|constructor].
    by apply created_wellFormed, truthy_nonempty.
  - unfold handleDateClick. destruct ttl as [t|]; [|constructor].
    destruct (truthy (Some t)) eqn:Ht; cbn [negb]; [|constructor].
    destruct d; (constructor; [|by repeat constructor]);
      (constructor; [|constructor]); by apply created_wellFormed, truthy_nonempty.
  - unfold clearAll. destruct confirmAnswer; [|constructor].
    apply Forall_fmap, Forall_true. by intros x.
  - unfold addEventToday. destruct ttl as [t|]; [|constructor].
    destruct (truthy (Some t)) eqn:Ht; cbn [negb]; [|constructor].
    constructor; [|by repeat constructor]. constructor; [|constructor].
    by apply created_wellFormed, truthy_nonempty.
Qed.

Lemma applyEffects_keepsWellFormed effs m :
  Forall keepsWellFormed effs → wellKept m → wellKept (applyEffects ign m effs).
Proof.
  intros Hok. revert m. induction Hok as [|eff effs Heff _ IH]; intros m Hm; [done|].
  cbn. apply IH. by apply applyEffect_keepsWellFormed.
Qed.

(** X27. Whatever the client does (slot generation, clicks, moves,
    resizes, plain events, "Clear All"), in any order, every document of the
    collection keeps its id under its key, has a title that is not empty, is
    never pending, and carries a student name that is not empty whenever it
    is booked, provided this held when the client started. *)
Theorem documents_stay_well_formed m m' :
  wellKept m →
  reachable tz ign (λ _, True) m m' →
  wellKept m'.
Proof.
  intros Hm. induction 1 as [|m1 m2 op _ IH _ (effs & Hrun & ->)]; [done|].
  apply applyEffects_keepsWellFormed; [|done].
  by apply run_keepsWellFormed in Hrun.
Qed.

End well_formed_documents.

(** ** The note form *)

Section note_form.

Import NoteForm.

Lemma omitUndefined_lookup (obj : gmap string JsValue) key :
  omitUndefined obj !! key
  = match obj !! key with Some VUndefined => None | o => o end.
Proof.
  unfold omitUndefined.
  apply (map_fold_weak_ind
           (λ r (m : gmap string JsValue),
              r !! key = match m !! key with Some VUndefined => None | o => o end)).
  - by rewrite !lookup_empty.
  - intros i x m r Hi IH. destruct (decide (x = VUndefined)) as [->|Hx].
    + destruct (decide (i = key)) as [->|Hne].
      * by rewrite lookup_insert_eq, IH, Hi.
      * by rewrite lookup_insert_ne.
    + destruct (decide (i = key)) as [->|Hne].
      * rewrite !lookup_insert_eq. by destruct x.
      * by rewrite !lookup_insert_ne.
Qed.

(** X13. [omitUndefined] keeps exactly the entries whose value is not
    [undefined], [null] ones included, and applying it twice changes nothing
    more. *)
Theorem omitUndefined_drops_only_undefined (obj : gmap string JsValue) :
  omitUndefined obj = filter (λ kv, kv.2 ≠ VUndefined) obj
  ∧ omitUndefined (omitUndefined obj) = omitUndefined obj.
Proof.
  assert (∀ o : gmap string JsValue,
            omitUndefined o = filter (λ kv, kv.2 ≠ VUndefined) o) as Hfilter.
  { intros o. apply map_eq. intros key. rewrite omitUndefined_lookup.
    destruct (o !! key) as [v|] eqn:Hk.
    - destruct (decide (v = VUndefined)) as [->|Hv].
      + symmetry. apply map_lookup_filter_None. right. intros v Hv. simpl.
        rewrite Hk in Hv. injection Hv as <-. by intros [].
      + transitivity (Some v); [by destruct v|].
        symmetry. by apply map_lookup_filter_Some.
    - symmetry. apply map_lookup_filter_None. by left. }
  split; [apply Hfilter|].
  rewrite (Hfilter (omitUndefined obj)), Hfilter.
  apply map_eq. intros key. rewrite map_lookup_filter.
  destruct (filter _ obj !! key) as [v|] eqn:Hk; [|done].
  apply map_lookup_filter_Some in Hk as [_ Hv]. simpl in *.
  by rewrite option_guard_True.
Qed.


Lemma after_app st t1 t2 : after st (t1 ++ t2) = after (after st t1) t2.
Proof. apply foldl_app. Qed.

Lemma after_keepsInput tr st :
  forallb keepsInput tr = true →
  title (after st tr) = title st ∧ body (after st tr) = body st
  ∧ file (after st tr) = file st ∧ imagePreview (after st tr) = imagePreview st.
Proof.
  revert st. induction tr as [|a tr IH]; intros st Hk; [done|].
  cbn [forallb] in Hk. apply andb_prop in Hk as [Ha Htr].
  change (after st (a :: tr)) with (after (setState st a) tr).
  destruct (IH (setState st a) Htr) as (-> & -> & -> & ->).
  by destruct st, a.
Qed.

Lemma progress_keepsInput (progress : list Z) :
  forallb keepsInput ((λ pct, SetUploadProgress (Some pct)) <$> progress) = true.
Proof. by induction progress. Qed.

Lemma after_progress st (progress : list Z) :
  foldl setState st ((λ pct, SetUploadProgress (Some pct)) <$> progress)
  = setState st
      (SetUploadProgress (from_option Some (uploadProgress st) (last progress))).
Proof.
  revert st. induction progress as [|pct l IH]; intros st; [by destruct st|].
  cbn [fmap list_fmap foldl]. rewrite IH.
  destruct l as [|pct' l]; [by destruct st|].
  change (last (pct :: pct' :: l)) with (last (pct' :: l)).
  destruct (last (pct' :: l)) eqn:Hlast; [by destruct st|].
  by apply last_None in Hlast.
Qed.

Lemma omap_progress {A : Type} (g : Action → option A) (progress : list Z) :
  (∀ up, g (SetUploadProgress up) = None) →
  omap g ((λ pct, SetUploadProgress (Some pct)) <$> progress) = [].
Proof. intros Hg. induction progress as [|pct l IH]; [done|]. cbn. by rewrite Hg. Qed.

Lemma performAll_progress docId w (progress : list Z) :
  performAll docId w ((λ pct, SetUploadProgress (Some pct)) <$> progress) = w.
Proof. revert w. by induction progress. Qed.

Lemma performAll_app docId w t1 t2 :
  performAll docId w (t1 ++ t2) = performAll docId (performAll docId w t1) t2.
Proof. apply foldl_app. Qed.

Lemma canSave_validation st :
  canSave st = true →
  bool_decide (trim (title st) = "") && bool_decide (trim (body st) = "")
  && negb (bool_decide (is_Some (file st))) = false.
Proof.
  unfold canSave. intros [H _]%andb_prop.
  destruct (bool_decide (trim (title st) = "")),
    (bool_decide (trim (body st) = "")), (bool_decide (is_Some (file st))); done.
Qed.

(** The outcomes of [handleSave], one goal for each. *)
Ltac save_compute H :=
  cbn -[String.append errorText storagePathFor notePayload trim] in H.

Ltac save_cases B st :=
  let tr := fresh "tr" in
  let Htr := fresh "Htr" in
  remember (handleSave B st) as tr eqn:Htr;
  unfold handleSave in Htr;
  match type of Htr with
  | context [if ?c then _ else _] => destruct c eqn:Hvalidation
  end;
  [|destruct (ensureAnon B) as [e|uid] eqn:Hens;
    [|destruct (file st) as [f|] eqn:Hfile;
      [save_compute Htr; unfold upload in Htr;
       destruct (uploadBytes B (storagePathFor uid (now B) f))
         as [progress [e|]] eqn:Hup;
       [|save_compute Htr;
         destruct (getDownloadURL B (storagePathFor uid (now B) f))
           as [e|url] eqn:Hurl;
         [|save_compute Htr;
           destruct (addDoc B (notePayload st uid
                                 (Some (url, storagePathFor uid (now B) f))))
             as [e|] eqn:Hadd]]
      |save_compute Htr;
       destruct (addDoc B (notePayload st uid None)) as [e|] eqn:Hadd]]];
  save_compute Htr;
  rewrite <- ?app_assoc in Htr;
  cbn [app] in Htr;
  subst tr.

Ltac trace_lists :=
  unfold dialogs, rejections, storeWrites;
  cbn [omap list_omap app];
  rewrite ?omap_app, ?omap_progress by done;
  cbn [omap list_omap app].

Ltac final_state st :=
  unfold after; cbn [foldl]; rewrite ?foldl_app, ?after_progress; cbn [foldl];
  destruct st; reflexivity.

(** X14. With the "Save Note" button enabled, [handleSave] goes past its
    own check of the input: it sets the busy flag, clears the last error and
    signs in before anything else.  Whatever then resolves or is rejected,
    its last two steps clear the progress and the busy flag, so the form is
    never left busy. *)
Theorem enabled_save_signs_in_and_ends_idle B st :
  canSave st = true →
  (∃ rest, handleSave B st
           = SetSaving true :: SetUploadError None
             :: Call EnsureAnon (failed (ensureAnon B)) :: rest)
  ∧ (∃ before, handleSave B st
               = before ++ [SetUploadProgress None; SetSaving false])
  ∧ saving (after st (handleSave B st)) = false
  ∧ uploadProgress (after st (handleSave B st)) = None.
Proof.
  intros Hcan%canSave_validation.
  assert (∃ before, handleSave B st
                    = before ++ [SetUploadProgress None; SetSaving false])
    as [before Hbefore].
  { unfold handleSave. rewrite Hcan. unfold finally. cbn [fst].
    eexists. by rewrite app_assoc. }
  split_and!.
  - save_cases B st; [congruence|..]; by eexists.
  - by exists before.
  - rewrite Hbefore, after_app. by destruct (after st before).
  - rewrite Hbefore, after_app. by destruct (after st before).
Qed.

(** X15. When a call of [handleSave] is rejected (sign-in, upload, download
    URL or the write of the document), nothing the user has entered is lost:
    title, text, file and preview are as before.  The first rejection ends
    the attempt, no document is written, the error is shown in one dialog
    "Save failed: ..." and kept as the error of the form. *)
Theorem failed_save_keeps_what_was_entered B st :
  canSave st = true →
  rejections (handleSave B st) ≠ [] →
  (title (after st (handleSave B st)) = title st
   ∧ body (after st (handleSave B st)) = body st
   ∧ file (after st (handleSave B st)) = file st
   ∧ imagePreview (after st (handleSave B st)) = imagePreview st)
  ∧ storeWrites (handleSave B st) = []
  ∧ ∃ e, rejections (handleSave B st) = [e]
         ∧ dialogs (handleSave B st)
           = ["Save failed: " +:+ errorText e "Failed to save note"]
         ∧ uploadError (after st (handleSave B st))
           = Some (errorText e "Failed to save note").
Proof.
  intros Hcan%canSave_validation.
  pose proof (after_keepsInput (handleSave B st) st) as Hkeep.
  save_cases B st; [congruence|..]; intros Hrej.
  all: try (exfalso; apply Hrej; by trace_lists).
  all: split; [apply Hkeep; cbn [forallb keepsInput andb];
                rewrite ?forallb_app, ?progress_keepsInput; reflexivity|].
  all: split; [by trace_lists|].
  all: exists e; split_and!; [by trace_lists|by trace_lists|final_state st].
Qed.

(** X16. When no call of [handleSave] is rejected, the form is empty again
    (title, text, file, preview, error), no dialog is shown, and exactly one
    document has been written: the payload of the form for the signed-in
    user, with an attachment exactly when a file was chosen. *)
Theorem successful_save_resets_the_form B st :
  canSave st = true →
  rejections (handleSave B st) = [] →
  title (after st (handleSave B st)) = ""
  ∧ body (after st (handleSave B st)) = ""
  ∧ file (after st (handleSave B st)) = None
  ∧ imagePreview (after st (handleSave B st)) = None
  ∧ uploadError (after st (handleSave B st)) = None
  ∧ dialogs (handleSave B st) = []
  ∧ ∃ uid attached,
      ensureAnon B = inr uid
      ∧ (is_Some attached ↔ is_Some (file st))
      ∧ storeWrites (handleSave B st)
        = [AddDoc "teacherNotes" (notePayload st uid attached)].
Proof.
  intros Hcan%canSave_validation.
  save_cases B st; [congruence|..]; intros Hrej.
  all: try (exfalso; revert Hrej; by trace_lists).
  all: split_and!; [final_state st..|by trace_lists|].
  - exists uid, (Some (url, storagePathFor uid (now B) f)).
    split; [done|split; [|by trace_lists]]. split; by eexists.
  - exists uid, None. split; [done|split; [|by trace_lists]].
    split; by intros [? [=]].
Qed.

Lemma perform_progress docId w (progress : list Z) :
  foldl (perform docId) w ((λ pct, SetUploadProgress (Some pct)) <$> progress) = w.
Proof. revert w. by induction progress. Qed.

Ltac in_trace H :=
  repeat first
    [ apply elem_of_cons in H as [H|H]; [try discriminate H|]
    | apply elem_of_app in H as [H|H];
      [apply list_elem_of_fmap in H as (? & H & _); discriminate H|]
    | apply elem_of_nil in H; destruct H ].

Ltac final_world :=
  unfold performAll; cbn [foldl perform];
  rewrite ?foldl_app, ?perform_progress; cbn [foldl perform].

Ltac note_fields :=
  cbn [Note.notes Note.blobs Note.id Note.title Note.body Note.ownerId
       Note.fileUrl Note.fileName Note.contentType Note.fileSize
       Note.storagePath fmap option_fmap option_map mbind option_bind].

Lemma storagePathFor_nonempty uid nowMs f : storagePathFor uid nowMs f ≠ "".
Proof. unfold storagePathFor. cbn. discriminate. Qed.

Lemma fromData_notePayload docId st uid attached :
  fromData docId (notePayload st uid attached)
  = Note.mkNote docId (trim (title st)) (trim (body st)) (Some uid)
      (match file st, attached with
       | Some _, Some (url, _) => Some url
       | _, _ => None
       end)
      (name <$> file st)
      (f ← file st; if truthy (Some (type f)) then Some (type f) else None)
      (size <$> file st)
      (match file st, attached with
       | Some _, Some (_, path) => Some path
       | _, _ => None
       end).
Proof.
  unfold fromData, stringField, numberField, notePayload.
  rewrite !omitUndefined_lookup.
  destruct (file st) as [f|], attached as [[url path]|]; cbn [mbind option_bind fmap option_fmap option_map];
    try destruct (truthy (Some (type f))); reflexivity.
Qed.

(** X17. [handleSave] does not undo an upload: when the file has been
    uploaded and a later call is rejected (the download URL or the write of
    the document), the file stays in storage and no note refers to it; the
    notes are as they were. *)
Theorem failed_write_orphans_the_upload B st docId w path attachment ct :
  Call (UploadBytes path attachment ct) None ∈ handleSave B st →
  rejections (handleSave B st) ≠ [] →
  performAll docId w (handleSave B st)
  = Note.mkWorld (Note.notes w) ({[path]} ∪ Note.blobs w).
Proof.
  save_cases B st; intros Hin Hrej; in_trace Hin.
  all: try (exfalso; apply Hrej; by trace_lists).
  all: injection Hin as -> -> ->; final_world; reflexivity.
Qed.

(** X18. A save that goes through adds one note and changes no other: the
    note has the title and the text of the form without the white space
    around them, and the name and the size of the file.  If it records a
    storage path, the path is not empty, a file was chosen, the note has its
    URL, and exactly that path has been added to the stored files; if it
    records none, no file was chosen and the stored files are as before. *)
Theorem successful_save_stores_what_was_entered B st docId w :
  canSave st = true →
  rejections (handleSave B st) = [] →
  ∃ n, Note.notes (performAll docId w (handleSave B st))
       = <[docId := n]> (Note.notes w)
     ∧ Note.id n = docId
     ∧ Note.title n = trim (title st) ∧ Note.body n = trim (body st)
     ∧ Note.fileName n = name <$> file st
     ∧ Note.fileSize n = size <$> file st
     ∧ match Note.storagePath n with
       | Some path =>
           path ≠ "" ∧ is_Some (file st) ∧ is_Some (Note.fileUrl n)
           ∧ Note.blobs (performAll docId w (handleSave B st))
             = {[path]} ∪ Note.blobs w
       | None =>
           file st = None ∧ Note.fileUrl n = None
           ∧ Note.blobs (performAll docId w (handleSave B st)) = Note.blobs w
       end.
Proof.
  intros Hcan%canSave_validation.
  pose proof (fromData_notePayload docId st) as Hread.
  save_cases B st; [congruence|..]; intros Hrej.
  all: try (exfalso; revert Hrej; by trace_lists).
  - exists (fromData docId
              (notePayload st uid (Some (url, storagePathFor uid (now B) f)))).
    final_world. rewrite !Hread. note_fields.
    split_and!; try done; apply storagePathFor_nonempty.
  - exists (fromData docId (notePayload st uid None)).
    final_world. rewrite !Hread. note_fields. by split_and!.
Qed.

(** X19. Saving a note with a file and deleting that note again, every
    call going through, gives back the notes and the stored files there were
    before: the path under which [handleSave] stores the file is the one the
    note records and [handleDelete] removes. *)
Theorem saved_note_deletes_cleanly B st docId w path attachment ct sel :
  Call (UploadBytes path attachment ct) None ∈ handleSave B st →
  rejections (handleSave B st) = [] →
  Note.notes w !! docId = None →
  path ∉ Note.blobs w →
  ∃ n, Note.notes (performAll docId w (handleSave B st)) !! docId = Some n
     ∧ Note.storagePath n = Some path
     ∧ path ∈ Note.blobs (performAll docId w (handleSave B st))
     ∧ Note.performAll (performAll docId w (handleSave B st))
         (Note.handleDelete deleting true sel n).1
       = w.
Proof.
  pose proof (fromData_notePayload docId st) as Hread.
  save_cases B st; intros Hin Hrej Hfresh Hblob; in_trace Hin.
  all: try (exfalso; revert Hrej; by trace_lists).
  injection Hin as -> -> ->.
  exists (fromData docId
            (notePayload st uid (Some (url, storagePathFor uid (now B) f)))).
  final_world. rewrite !Hread. note_fields.
  split_and!.
  - by rewrite lookup_insert_eq.
  - done.
  - by apply elem_of_union_l, elem_of_singleton.
  - rewrite (handleDelete_trace deleting sel _ (storagePathFor uid (now B) f));
      [|done|done|done|apply storagePathFor_nonempty].
    cbn [fst Note.deleteObject deleting app Note.id].
    unfold Note.performAll.
    cbn [foldl Note.perform Note.notes Note.blobs].
    match goal with
    | |- context [unselect sel ?n] =>
        assert (∀ w', foldl Note.perform w' (unselect sel n) = w') as ->
    end.
    { intros w'. unfold unselect. by destruct (bool_decide (Note.id <$> sel = _)). }
    rewrite delete_insert_id by done.
    destruct w as [ns bs]. f_equal. cbn [Note.blobs] in *.
    apply set_eq. intros x.
    rewrite elem_of_difference, elem_of_union, !elem_of_singleton.
    split; [by intros [[->|?] ?]|].
    intros Hx. split; [by right|]. by intros ->.
Qed.

Lemma editPayload_fields st :
  stringField (editPayload st) "title" = Some (trim (editTitle st))
  ∧ stringField (editPayload st) "body" = Some (trim (editBody st)).
Proof.
  unfold stringField, editPayload. rewrite !omitUndefined_lookup. by split.
Qed.

(** The outcomes of [saveEdit] on an open note, one goal for each. *)
Ltac edit_cases B st sel Hsel :=
  let tr := fresh "tr" in
  let Htr := fresh "Htr" in
  remember (saveEdit B st) as tr eqn:Htr;
  unfold saveEdit in Htr; rewrite Hsel in Htr;
  destruct (ensureAnon B) as [e|uid] eqn:Hens;
  [|destruct (updateDoc B (Note.id sel) (editPayload st)) as [e|] eqn:Hupd];
  cbn -[String.append errorText editPayload trim] in Htr;
  subst tr.

(** X20. [saveEdit], every call going through, writes one update: the
    stored note gets the edited title and text without the white space around
    them and keeps everything else, no other note and no stored file changes,
    the open note shows the same title and text, and the editing mode is
    left. *)
Theorem edit_reaches_the_store_and_the_open_note B st sel stored docId w :
  selected st = Some sel →
  Note.notes w !! Note.id sel = Some stored →
  rejections (saveEdit B st) = [] →
  selected (after st (saveEdit B st))
  = Some (withText (trim (editTitle st)) (trim (editBody st)) sel)
  ∧ isEditing (after st (saveEdit B st)) = false
  ∧ performAll docId w (saveEdit B st)
    = Note.mkWorld
        (<[Note.id sel := withText (trim (editTitle st)) (trim (editBody st)) stored]>
           (Note.notes w))
        (Note.blobs w)
  ∧ storeWrites (saveEdit B st)
    = [UpdateDoc "teacherNotes" (Note.id sel) (editPayload st)].
Proof.
  intros Hsel Hstored.
  destruct (editPayload_fields st) as [Htitle Hbody].
  edit_cases B st sel Hsel; intros Hrej; try discriminate Hrej.
  split_and!.
  - destruct st. cbn in *. by rewrite Hsel.
  - by destruct st.
  - final_world. rewrite (alter_lookup_insert _ _ _ _ Hstored).
    unfold patchNote. by rewrite Htitle, Hbody.
  - done.
Qed.

(** X21. When a call of [saveEdit] is rejected, nothing changes: the
    store is as it was, the state of the component too (the note stays open,
    in editing mode, the edits are kept), and the error is shown in one
    dialog. *)
Theorem failed_edit_changes_nothing B st docId w :
  rejections (saveEdit B st) ≠ [] →
  after st (saveEdit B st) = st
  ∧ performAll docId w (saveEdit B st) = w
  ∧ ∃ e, rejections (saveEdit B st) = [e]
         ∧ dialogs (saveEdit B st) = [errorText e "Failed to update note"].
Proof.
  destruct (selected st) as [sel|] eqn:Hsel.
  2: { unfold saveEdit. rewrite Hsel. by intros []. }
  edit_cases B st sel Hsel; intros Hrej; try (by destruct Hrej).
  all: split_and!; [by destruct st|done|by exists e].
Qed.

(** X22. A snapshot of the notes replaces the list and never changes which
    note is open: with no note open none is opened; the open note is
    replaced by the first note of the new list with the same id, and when
    the list has none (the note was deleted elsewhere), the copy that was
    open stays open as it was. *)
Theorem snapshot_keeps_the_open_note docs st :
  notes (after st (onNotesSnapshot docs)) = (λ d, fromData d.1 d.2) <$> docs
  ∧ Note.id <$> selected (after st (onNotesSnapshot docs))
    = Note.id <$> selected st
  ∧ (selected st = None → selected (after st (onNotesSnapshot docs)) = None)
  ∧ (∀ p n, selected st = Some p →
          find (λ n, bool_decide (Note.id n = Note.id p))
            (notes (after st (onNotesSnapshot docs))) = Some n →
          selected (after st (onNotesSnapshot docs)) = Some n)
  ∧ (∀ n, selected (after st (onNotesSnapshot docs)) = Some n →
          n ∈ notes (after st (onNotesSnapshot docs)) ∨ selected st = Some n)
  ∧ (∀ p, selected st = Some p →
          Note.id p ∉ (Note.id <$> notes (after st (onNotesSnapshot docs))) →
          selected (after st (onNotesSnapshot docs)) = Some p).
Proof.
  destruct st as [t b f ip sv up ns sel ie et eb ue].
  unfold onNotesSnapshot, after. cbn [foldl setState notes selected].
  split_and!; [done|..].
  - destruct sel as [p|]; [|done]. cbn [refresh fmap option_fmap option_map].
    destruct (find _ _) as [n|] eqn:Hfind; [|done].
    apply find_some in Hfind as [_ Hid]. apply bool_decide_eq_true in Hid.
    cbv [default from_option Datatypes.id]. by rewrite Hid.
  - by intros ->.
  - intros p n [= ->] Hfind. cbn [refresh]. by rewrite Hfind.
  - intros n. destruct sel as [p|]; [|done]. cbn [refresh].
    destruct (find _ _) as [n'|] eqn:Hfind; intros [= <-]; [|by right].
    left. apply find_some in Hfind as [Hin _]. by apply list_elem_of_In.
  - intros p [= ->] Hgone. cbn [refresh].
    destruct (find _ _) as [n|] eqn:Hfind; [|done].
    apply find_some in Hfind as [Hin Hid]. apply bool_decide_eq_true in Hid.
    destruct Hgone. rewrite <- Hid. apply list_elem_of_fmap. exists n.
    split; [done|]. by apply list_elem_of_In.
Qed.

Lemma onPickFile_file st picked :
  file (after st (onPickFile picked))
  = match picked with
    | None => None
    | Some f => if decide (validFile f) then Some f else file st
    end.
Proof.
  destruct picked as [f|]; [|by destruct st].
  unfold onPickFile, validFile.
  destruct (decide _) as [[Htype Hsize]|Hbad].
  - rewrite (bool_decide_eq_true_2 _ Htype).
    rewrite bool_decide_eq_false_2 by lia.
    cbn [negb]. destruct (isImage _); by destruct st.
  - case_bool_decide as Htype; cbn [negb]; [|by destruct st].
    case_bool_decide as Hsize; [by destruct st|].
    destruct Hbad. split; [done|lia].
Qed.

Lemma handleSave_file B st :
  file (after st (handleSave B st)) = file st
  ∨ file (after st (handleSave B st)) = None.
Proof.
  pose proof (after_keepsInput (handleSave B st) st) as Hkeep.
  save_cases B st.
  1: left; by destruct st.
  5,7: right; final_state st.
  all: left; apply Hkeep; cbn [forallb keepsInput andb];
    rewrite ?forallb_app, ?progress_keepsInput; reflexivity.
Qed.

Lemma saveEdit_keepsInput B st : forallb keepsInput (saveEdit B st) = true.
Proof.
  unfold saveEdit. destruct (selected st) as [sel|]; [|done].
  destruct (ensureAnon B); [done|].
  by destruct (updateDoc B _ _).
Qed.

Lemma formReach_valid st :
  formReach initialState st → ∀ f, file st = Some f → validFile f.
Proof.
  induction 1 as [|st1 op Hreach IH]; [done|]. intros f.
  assert (forallb keepsInput (runForm op st1) = true → file st1 = Some f → validFile f)
    as Hkept by auto.
  pose proof (after_keepsInput (runForm op st1) st1) as Hkeep.
  destruct op; cbn [runForm] in *.
  3: { rewrite onPickFile_file. destruct picked as [g|]; [|done].
       destruct (decide (validFile g)); [by intros [= <-]|apply IH]. }
  4: { destruct (handleSave_file B st1) as [->| ->]; [apply IH|done]. }
  1,2,3: destruct st1; apply IH.
  1: destruct st1; intros [=].
  all: intros Hf; apply IH; rewrite <- Hf; symmetry; apply Hkeep.
  all: try reflexivity.
  - unfold cancelEdit. by destruct (selected st1).
  - apply saveEdit_keepsInput.
Qed.

(** X23. However the form has been used since it was mounted, the file
    that [handleSave] uploads is the file of the form, it is of an allowed
    type and no larger than 10 MB, and it goes to the path built from the id
    of the signed-in user, the time and the name of the file. *)
Theorem only_valid_files_are_uploaded B st path attachment ct outcome :
  formReach initialState st →
  Call (UploadBytes path attachment ct) outcome ∈ handleSave B st →
  validFile attachment
  ∧ file st = Some attachment
  ∧ ∃ uid, ensureAnon B = inr uid
           ∧ path = storagePathFor uid (now B) attachment.
Proof.
  intros Hreach0. pose proof (formReach_valid st Hreach0) as Hreach.
  assert (∀ g, file st = Some g → file st = Some g) as Hsame by done.
  save_cases B st; intros Hin; in_trace Hin.
  all: injection Hin as -> -> -> ->; split_and!; [by apply Hreach|by apply Hsame|by exists uid].
Qed.

(** X24. Picking a file of an allowed type and of at most 10 MB selects it,
    clears the error and shows no dialog.  Picking any other file shows one
    dialog and empties the input, and leaves the file selected before, its
    preview and the error as they were. *)
Theorem picking_selects_only_valid_files st f :
  if decide (validFile f)
  then file (after st (onPickFile (Some f))) = Some f
       ∧ uploadError (after st (onPickFile (Some f))) = None
       ∧ dialogs (onPickFile (Some f)) = []
  else file (after st (onPickFile (Some f))) = file st
       ∧ imagePreview (after st (onPickFile (Some f))) = imagePreview st
       ∧ uploadError (after st (onPickFile (Some f))) = uploadError st
       ∧ ClearFileInput ∈ onPickFile (Some f)
       ∧ length (dialogs (onPickFile (Some f))) = 1%nat.
Proof.
  pose proof (onPickFile_file st (Some f)) as Hfile. cbn beta iota in Hfile.
  unfold onPickFile, validFile in *.
  destruct (decide _) as [[Htype Hsize]|Hbad].
  - rewrite (bool_decide_eq_true_2 _ Htype) in *.
    rewrite bool_decide_eq_false_2 in * by lia.
    cbn [negb] in *. split; [done|]. destruct (isImage _); by destruct st.
  - case_bool_decide as Htype; cbn [negb] in *.
    + case_bool_decide as Hsize; [|destruct Hbad; split; [done|lia]].
      split_and!; [done|by destruct st..| |done].
      apply elem_of_cons; right. apply list_elem_of_here.
    + split_and!; [done|by destruct st..| |done].
      apply elem_of_cons; right. apply list_elem_of_here.
Qed.

Lemma chars_app s1 s2 : chars (s1 +:+ s2) = chars s1 ++ chars s2.
Proof.
  induction s1 as [|c s1 IH]; [done|].
  change (chars (String c s1 +:+ s2)) with (c :: chars (s1 +:+ s2)).
  by rewrite IH.
Qed.

Lemma string_length_app s1 s2 :
  String.length (s1 +:+ s2) = (String.length s1 + String.length s2)%nat.
Proof.
  induction s1 as [|c s1 IH]; [done|].
  change (String.length (String c s1 +:+ s2)) with (S (String.length (s1 +:+ s2))).
  by rewrite IH.
Qed.

Lemma pretty_N_char_digit x : isDigit (pretty_N_char x).
Proof. unfold pretty_N_char, isDigit. repeat case_match; cbn; lia. Qed.

Lemma pretty_N_go_digits x s :
  Forall isDigit (chars s) → Forall isDigit (chars (pretty_N_go x s)).
Proof.
  revert s. induction (N.lt_wf_0 x) as [x _ IH]; intros s Hs.
  assert (x = 0 ∨ 0 < x)%N as [->|Hx] by lia.
  - by rewrite pretty_N_go_0.
  - rewrite pretty_N_go_step by done. apply IH.
    + by apply N.div_lt.
    + constructor; [apply pretty_N_char_digit|done].
Qed.

Lemma pretty_N_digits (x : N) : Forall isDigit (chars (pretty x)).
Proof.
  unfold pretty, pretty_N. destruct (decide (x = 0)%N).
  - repeat constructor; cbn; lia.
  - apply pretty_N_go_digits. constructor.
Qed.

Lemma sanitizeName_chars s c :
  c ∈ chars (sanitizeName s) → safeChar c = true ∨ c = underscore.
Proof.
  induction s as [|c' s IH]; cbn [sanitizeName chars]; [by intros ?%elem_of_nil|].
  intros [->|Hin]%elem_of_cons; [|by apply IH].
  destruct (safeChar c') eqn:Hsafe; [by left|by right].
Qed.

Lemma digits_then_underscore d1 d2 r1 r2 :
  Forall isDigit (chars d1) → Forall isDigit (chars d2) →
  d1 +:+ String underscore r1 = d2 +:+ String underscore r2 →
  d1 = d2 ∧ r1 = r2.
Proof.
  revert d2. induction d1 as [|c d1 IH]; intros [|c' d2] H1 H2 Heq.
  - by injection Heq as ->.
  - injection Heq as Hc _. apply Forall_cons in H2 as [Hd _]. subst c'.
    unfold isDigit in Hd. cbn in Hd. lia.
  - injection Heq as Hc _. apply Forall_cons in H1 as [Hd _]. subst c.
    unfold isDigit in Hd. cbn in Hd. lia.
  - injection Heq as -> Heq.
    apply Forall_cons in H1 as [_ H1]. apply Forall_cons in H2 as [_ H2].
    by destruct (IH d2 H1 H2 Heq) as [-> ->].
Qed.

(** X25. The storage path of an upload is ["users/<uid>/notes/<leaf>"]
    where the leaf is not empty and holds no ["/"], whatever the name of the
    file: the leaf is the time, ["_"] and the name with every character
    outside [a-zA-Z0-9.-] replaced, one for one. *)
Theorem upload_lands_in_the_users_notes_folder uid nowMs f :
  ∃ leaf, storagePathFor uid nowMs f = "users/" +:+ uid +:+ "/notes/" +:+ leaf
          ∧ leaf ≠ ""
          ∧ (slash ∉ chars leaf)
          ∧ String.length leaf
            = (String.length (pretty nowMs) + 1 + String.length (name f))%nat.
Proof.
  exists (pretty nowMs +:+ "_" +:+ sanitizeName (name f)). split_and!.
  - done.
  - intros Hempty. apply (f_equal chars) in Hempty.
    rewrite chars_app in Hempty. cbn in Hempty.
    by apply app_nil in Hempty as [_ ?].
  - rewrite chars_app. cbn [String.append chars].
    intros [Hin|[Hin|Hin]%elem_of_cons]%elem_of_app.
    + pose proof (pretty_N_digits nowMs) as Hd.
      rewrite Forall_forall in Hd. apply Hd in Hin.
      unfold isDigit, slash in Hin. cbn in Hin. lia.
    + discriminate Hin.
    + apply sanitizeName_chars in Hin as [Hsafe|Hu]; discriminate.
  - rewrite !string_length_app. cbn [String.length].
    assert (∀ s, String.length (sanitizeName s) = String.length s) as ->; [|lia].
    intros s. induction s as [|c s IH]; cbn; by rewrite ?IH.
Qed.

(** X26. Two uploads of one user share a storage path exactly when they are
    made in the same millisecond under names that are equal once sanitized:
    uploads at different times never overwrite each other, and two names
    that differ only in replaced characters can. *)
Theorem uploads_at_other_times_get_other_paths uid n1 n2 f1 f2 :
  storagePathFor uid n1 f1 = storagePathFor uid n2 f2
  ↔ n1 = n2 ∧ sanitizeName (name f1) = sanitizeName (name f2).
Proof.
  split; [|by intros [-> Hname]; unfold storagePathFor; rewrite Hname].
  unfold storagePathFor. intros Heq.
  do 3 apply (inj (String.append _)) in Heq.
  apply digits_then_underscore in Heq as [Hn Hname];
    [|apply pretty_N_digits..].
  split; [by apply (inj pretty)|done].
Qed.

End note_form.

Lemma enabled_save_signs_in_and_ends_idle_witness :
  NoteForm.canSave filled = true
  ∧ NoteForm.saving (NoteForm.after filled (NoteForm.handleSave readOnly filled)) = false
  ∧ NoteForm.uploadProgress
      (NoteForm.after filled (NoteForm.handleSave readOnly filled)) = None.
Proof.
  split; [reflexivity|].
  destruct (enabled_save_signs_in_and_ends_idle readOnly filled eq_refl)
    as (_ & _ & Hsaving & Hprogress).
  by split.
Defined.

Lemma failed_save_keeps_what_was_entered_witness :
  NoteForm.canSave filled = true
  ∧ rejections (NoteForm.handleSave readOnly filled) ≠ []
  ∧ NoteForm.file (NoteForm.after filled (NoteForm.handleSave readOnly filled))
    = Some photo
  ∧ storeWrites (NoteForm.handleSave readOnly filled) = [].
Proof.
  assert (rejections (NoteForm.handleSave readOnly filled) ≠ []) as Hrej
    by (vm_compute; discriminate).
  split; [reflexivity|]. split; [exact Hrej|].
  destruct (failed_save_keeps_what_was_entered readOnly filled eq_refl Hrej)
    as ((_ & _ & Hfile & _) & Hwrites & _).
  by split.
Defined.

Lemma successful_save_resets_the_form_witness :
  NoteForm.canSave filled = true
  ∧ rejections (NoteForm.handleSave reliable filled) = []
  ∧ NoteForm.title (NoteForm.after filled (NoteForm.handleSave reliable filled)) = ""
  ∧ NoteForm.file (NoteForm.after filled (NoteForm.handleSave reliable filled)) = None.
Proof.
  split; [reflexivity|]. split; [reflexivity|].
  destruct (successful_save_resets_the_form reliable filled eq_refl eq_refl)
    as (Htitle & _ & Hfile & _).
  by split.
Defined.

Lemma failed_write_orphans_the_upload_witness :
  NoteForm.Call (NoteForm.UploadBytes "users/u1/notes/42_a_b.png" photo (Some "image/png"))
    None ∈ NoteForm.handleSave readOnly filled
  ∧ rejections (NoteForm.handleSave readOnly filled) ≠ []
  ∧ NoteForm.performAll "n2" (Note.mkWorld ∅ ∅) (NoteForm.handleSave readOnly filled)
    = Note.mkWorld ∅ ({["users/u1/notes/42_a_b.png"]} ∪ ∅).
Proof.
  assert (NoteForm.Call
            (NoteForm.UploadBytes "users/u1/notes/42_a_b.png" photo (Some "image/png"))
            None ∈ NoteForm.handleSave readOnly filled) as Hin.
  { apply list_elem_of_In. vm_compute. right; right; right; left. reflexivity. }
  assert (rejections (NoteForm.handleSave readOnly filled) ≠ []) as Hrej
    by (vm_compute; discriminate).
  split; [exact Hin|]. split; [exact Hrej|].
  exact (failed_write_orphans_the_upload readOnly filled "n2" (Note.mkWorld ∅ ∅)
           _ _ _ Hin Hrej).
Defined.

Lemma successful_save_stores_what_was_entered_witness :
  NoteForm.canSave filled = true
  ∧ rejections (NoteForm.handleSave reliable filled) = []
  ∧ ∃ n, Note.notes (NoteForm.performAll "n2" (Note.mkWorld ∅ ∅)
                       (NoteForm.handleSave reliable filled))
         = <["n2" := n]> ∅
       ∧ Note.title n = "Agenda".
Proof.
  split; [reflexivity|]. split; [reflexivity|].
  destruct (successful_save_stores_what_was_entered reliable filled "n2"
              (Note.mkWorld ∅ ∅) eq_refl eq_refl)
    as (n & Hnotes & _ & Htitle & _).
  exists n. split; [exact Hnotes|]. exact Htitle.
Defined.

Lemma saved_note_deletes_cleanly_witness :
  NoteForm.Call (NoteForm.UploadBytes "users/u1/notes/42_a_b.png" photo (Some "image/png"))
    None ∈ NoteForm.handleSave reliable filled
  ∧ rejections (NoteForm.handleSave reliable filled) = []
  ∧ Note.notes (Note.mkWorld ∅ ∅) !! "n2" = None
  ∧ ("users/u1/notes/42_a_b.png" ∉ Note.blobs (Note.mkWorld ∅ ∅))
  ∧ ∃ n, Note.storagePath n = Some "users/u1/notes/42_a_b.png"
       ∧ Note.performAll
           (NoteForm.performAll "n2" (Note.mkWorld ∅ ∅)
              (NoteForm.handleSave reliable filled))
           (Note.handleDelete deleting true None n).1
         = Note.mkWorld ∅ ∅.
Proof.
  assert (NoteForm.Call
            (NoteForm.UploadBytes "users/u1/notes/42_a_b.png" photo (Some "image/png"))
            None ∈ NoteForm.handleSave reliable filled) as Hin.
  { apply list_elem_of_In. vm_compute. right; right; right; left. reflexivity. }
  assert ("users/u1/notes/42_a_b.png" ∉ Note.blobs (Note.mkWorld ∅ ∅)) as Hblob
    by apply not_elem_of_empty.
  assert (rejections (NoteForm.handleSave reliable filled) = []) as Hrej
    by reflexivity.
  assert (Note.notes (Note.mkWorld ∅ ∅) !! "n2" = None) as Hfresh by reflexivity.
  split; [exact Hin|]. split; [exact Hrej|]. split; [exact Hfresh|].
  split; [exact Hblob|].
  destruct (saved_note_deletes_cleanly reliable filled "n2" (Note.mkWorld ∅ ∅)
              _ _ _ None Hin Hrej Hfresh Hblob)
    as (n & _ & Hpath & _ & Hback).
  exists n. split; [exact Hpath|exact Hback].
Defined.

Lemma edit_reaches_the_store_and_the_open_note_witness :
  NoteForm.selected filled = Some agenda
  ∧ Note.notes (Note.mkWorld {["n1" := agenda]} ∅) !! Note.id agenda = Some agenda
  ∧ rejections (NoteForm.saveEdit reliable filled) = []
  ∧ NoteForm.selected (NoteForm.after filled (NoteForm.saveEdit reliable filled))
    = Some (NoteForm.withText "Agenda, week 2" "bring forms" agenda).
Proof.
  assert (Note.notes (Note.mkWorld {["n1" := agenda]} ∅) !! Note.id agenda
          = Some agenda) as Hstored by reflexivity.
  assert (rejections (NoteForm.saveEdit reliable filled) = []) as Hrej
    by reflexivity.
  split; [reflexivity|]. split; [exact Hstored|]. split; [exact Hrej|].
  destruct (edit_reaches_the_store_and_the_open_note reliable filled agenda agenda
              "n2" (Note.mkWorld {["n1" := agenda]} ∅) eq_refl Hstored Hrej)
    as (Hsel & _).
  exact Hsel.
Defined.

Lemma failed_edit_changes_nothing_witness :
  rejections (NoteForm.saveEdit readOnly filled) ≠ []
  ∧ NoteForm.after filled (NoteForm.saveEdit readOnly filled) = filled.
Proof.
  assert (rejections (NoteForm.saveEdit readOnly filled) ≠ []) as Hrej
    by (vm_compute; discriminate).
  split; [exact Hrej|].
  destruct (failed_edit_changes_nothing readOnly filled "n2" (Note.mkWorld ∅ ∅) Hrej)
    as (Hst & _).
  exact Hst.
Defined.

Lemma snapshot_keeps_the_open_note_witness :
  let docs : list (string * gmap string NoteForm.JsValue) :=
    [("n0", {[ "title" := NoteForm.VString "Minutes" ]});
     ("n1", {[ "title" := NoteForm.VString "Agenda, week 2";
               "body" := NoteForm.VString "bring forms" ]})] in
  NoteForm.selected filled = Some agenda
  ∧ find (λ n, bool_decide (Note.id n = Note.id agenda))
      (NoteForm.notes (NoteForm.after filled (NoteForm.onNotesSnapshot docs)))
    = Some (Note.mkNote "n1" "Agenda, week 2" "bring forms" None None None None None None)
  ∧ NoteForm.selected (NoteForm.after filled (NoteForm.onNotesSnapshot docs))
    = Some (Note.mkNote "n1" "Agenda, week 2" "bring forms" None None None None None None)
  ∧ (Note.id agenda
     ∉ Note.id <$> NoteForm.notes (NoteForm.after filled (NoteForm.onNotesSnapshot [])))
  ∧ NoteForm.selected (NoteForm.after filled (NoteForm.onNotesSnapshot []))
    = Some agenda.
Proof.
  intros docs.
  assert (Hsel : NoteForm.selected filled = Some agenda) by reflexivity.
  assert (Hfind : find (λ n, bool_decide (Note.id n = Note.id agenda))
                    (NoteForm.notes
                       (NoteForm.after filled (NoteForm.onNotesSnapshot docs)))
                  = Some (Note.mkNote "n1" "Agenda, week 2" "bring forms"
                            None None None None None None)) by reflexivity.
  assert (Note.id agenda
          ∉ Note.id <$> NoteForm.notes
                          (NoteForm.after filled (NoteForm.onNotesSnapshot [])))
    as Hgone by apply not_elem_of_nil.
  split; [exact Hsel|]. split; [exact Hfind|].
  destruct (snapshot_keeps_the_open_note docs filled) as (_ & _ & _ & Hnew & _).
  split; [exact (Hnew agenda _ Hsel Hfind)|].
  split; [exact Hgone|].
  destruct (snapshot_keeps_the_open_note [] filled) as (_ & _ & _ & _ & _ & Hkept).
  exact (Hkept agenda Hsel Hgone).
Defined.

Lemma only_valid_files_are_uploaded_witness :
  NoteForm.formReach NoteForm.initialState
    (NoteForm.after NoteForm.initialState
       (NoteForm.runForm (NoteForm.OpPick (Some photo)) NoteForm.initialState))
  ∧ NoteForm.Call
      (NoteForm.UploadBytes "users/u1/notes/42_a_b.png" photo (Some "image/png")) None
    ∈ NoteForm.handleSave reliable
        (NoteForm.after NoteForm.initialState
           (NoteForm.runForm (NoteForm.OpPick (Some photo)) NoteForm.initialState))
  ∧ NoteForm.validFile photo.
Proof.
  assert (NoteForm.formReach NoteForm.initialState
            (NoteForm.after NoteForm.initialState
               (NoteForm.runForm (NoteForm.OpPick (Some photo)) NoteForm.initialState)))
    as Hreach by apply NoteForm.form_step, NoteForm.form_refl.
  assert (NoteForm.Call
            (NoteForm.UploadBytes "users/u1/notes/42_a_b.png" photo (Some "image/png"))
            None
          ∈ NoteForm.handleSave reliable
              (NoteForm.after NoteForm.initialState
                 (NoteForm.runForm (NoteForm.OpPick (Some photo)) NoteForm.initialState)))
    as Hin.
  { apply list_elem_of_In. vm_compute. right; right; right; left. reflexivity. }
  split; [exact Hreach|]. split; [exact Hin|].
  destruct (only_valid_files_are_uploaded reliable _ _ _ _ _ Hreach Hin) as (Hvalid & _).
  exact Hvalid.
Defined.

Lemma upload_lands_in_the_users_notes_folder_witness :
  ∃ leaf, NoteForm.storagePathFor "u1" 42 photo = "users/u1/notes/" +:+ leaf
          ∧ (slash ∉ chars leaf).
Proof.
  destruct (upload_lands_in_the_users_notes_folder "u1" 42 photo)
    as (leaf & Hpath & _ & Hslash & _).
  exists leaf. split; [exact Hpath|exact Hslash].
Defined.

Lemma uploads_at_other_times_get_other_paths_witness :
  NoteForm.storagePathFor "u1" 42 photo
  = NoteForm.storagePathFor "u1" 42 (NoteForm.mkFile "a?b.png" "image/png" 7)
  ∧ NoteForm.storagePathFor "u1" 42 photo ≠ NoteForm.storagePathFor "u1" 43 photo.
Proof.
  split.
  - apply (proj2 (uploads_at_other_times_get_other_paths "u1" 42 42 photo
                    (NoteForm.mkFile "a?b.png" "image/png" 7))).
    split; reflexivity.
  - intros Heq.
    destruct (proj1 (uploads_at_other_times_get_other_paths "u1" 42 43 photo photo) Heq)
      as [Hn _].
    discriminate Hn.
Defined.

Lemma documents_stay_well_formed_witness :
  wellKept ∅
  ∧ reachable 0 false (λ _, True) ∅
      (applyEffects false ∅ (addEventToday 0 "e1" (Some "Meeting") 0))
  ∧ wellKept (applyEffects false ∅ (addEventToday 0 "e1" (Some "Meeting") 0)).
Proof.
  assert (wellKept ∅) as Hm by (intros k d Hk; by rewrite lookup_empty in Hk).
  assert (reachable 0 false (λ _, True) ∅
            (applyEffects false ∅ (addEventToday 0 "e1" (Some "Meeting") 0)))
    as Hreach.
  { apply (reach_step _ _ _ _ ∅ _ (OpAddEventToday "e1" (Some "Meeting") 0));
      [apply reach_refl|done|].
    eexists. split; reflexivity. }
  split; [exact Hm|]. split; [exact Hreach|].
  exact (documents_stay_well_formed 0 false _ _ Hm Hreach).
Defined.

Lemma counters_split_the_events_witness :
  slotOn 19723 "0" 14 0 14 15
  ∈ filteredEvents (FilterStatus available) [slotOn 19723 "0" 14 0 14 15].
Proof.
  destruct (counters_split_the_events [slotOn 19723 "0" 14 0 14 15])
    as (_ & _ & _ & _ & _ & Hiff).
  apply Hiff. split; [apply list_elem_of_here|reflexivity].
Defined.
